(** * The Raft core of dragonboat ([internal/raft/raft.go]) as a shallow embedding

    The node is a record [raft]; every method of the Go type [*raft] is a
    computation in a small state-and-panic monad over that record.  Unsigned
    64-bit integers are integers of [Z] with the wrap-around written out
    ([add64], [sub64]); Go maps are [gmap]s keyed by node id, and a pointer
    to a progress record is the pair of the map it lives in and its key. *)

From Stdlib Require Import ZArith Lia List Bool Sorting.Sorted Sorting.Permutation.
From stdpp Require Import base option list gmap fin_maps fin_sets.

Local Open Scope Z_scope.

(** ** Machine integers *)

Definition two64 : Z := 2 ^ 64.
Definition MaxUint64 : Z := two64 - 1.
Definition wrap64 (x : Z) : Z := x mod two64.
Definition add64 (a b : Z) : Z := wrap64 (a + b).
Definition sub64 (a b : Z) : Z := wrap64 (a - b).
Definition is_uint64 (x : Z) : Prop := 0 <= x < two64.
(** Modelled from the spec: the helpers [min] and [max] on [uint64] are
    declared in another file of the package. *)
Definition min64 (a b : Z) : Z := if a <? b then a else b.
Definition max64 (a b : Z) : Z := if a <? b then b else a.

(** ** The wire schema ([raftpb]), referenced by field *)

Module pb.

(** Modelled from the spec: the package raftpb is not among the sources.
    Section 6 of the specification lists the message types raft.go handles
    and the fields of a message; raft.go fixes their number
    ([numMessageTypes = 25]), and the types that no role has a handler for
    are dropped by the dispatcher. *)
Inductive MessageType : Set :=
| LocalTick | Election | LeaderHeartbeat | ConfigChangeEvent | NoOP
| Ping | Pong | Propose | SnapshotStatus | Unreachable | CheckQuorum
| BatchedReadIndex | Replicate | ReplicateResp | RequestVote
| RequestVoteResp | InstallSnapshot | Heartbeat | HeartbeatResp
| ReadIndex | ReadIndexResp | Quiesce | SnapshotReceived
| LeaderTransfer | TimeoutNow.

(** Modelled from the spec: the entry types of section 6. *)
Inductive EntryType : Set := ApplicationEntry | ConfigChangeEntry.

(** Modelled from the spec: a log entry, [{index, term, type, payload}]
    (section 3). *)
Record Entry : Type := mkEntry {
  Term : Z;
  Index : Z;
  Type_ : EntryType;
  Cmd : list Z
}.

(** Modelled from the spec: the membership of a snapshot, as the ids of
    the voters ([Addresses]) and of the observers (section 4.10); raft.go
    only ranges over the keys of the two maps. *)
Record Membership : Type := mkMembership {
  Addresses : gset Z;
  Observers : gset Z
}.

(** Modelled from the spec: the fields of a snapshot that raft.go reads. *)
Record Snapshot : Type := mkSnapshot {
  ssIndex : Z;
  ssTerm : Z;
  ssMembership : Membership
}.

(** Modelled from the spec: the opaque client context of a read, carried
    in [hint] and [hintHigh] (sections 4.7 and 6). *)
Record SystemCtx : Type := mkSystemCtx { Low : Z; High : Z }.

(** Modelled from the spec: a ready-to-read record (section 3). *)
Record ReadyToRead : Type := mkReadyToRead {
  rtrIndex : Z;
  rtrSystemCtx : SystemCtx
}.

(** Modelled from the spec: the persisted state [{term, vote, commit}]
    (section 6). *)
Record State : Type := mkState { stTerm : Z; stVote : Z; stCommit : Z }.

(** Modelled from the spec: the message of section 6,
    [{type, from, to, term, logIndex, logTerm, entries, commit, reject,
    hint, hintHigh, snapshot}]. *)
Record Message : Type := mkMessage {
  mType : MessageType;
  mTo : Z;
  mFrom : Z;
  mTerm : Z;
  mLogTerm : Z;
  mLogIndex : Z;
  mCommit : Z;
  mReject : bool;
  mHint : Z;
  mHintHigh : Z;
  mEntries : list Entry;
  mSnapshot : Snapshot
}.

Definition emptyMembership : Membership := mkMembership ∅ ∅.
Definition emptySnapshot : Snapshot := mkSnapshot 0 0 emptyMembership.
Definition zeroCtx : SystemCtx := mkSystemCtx 0 0.

(** The zero value [pb.Message{}] with the type and the receiver set. *)
Definition msg (t : MessageType) (to : Z) : Message :=
  mkMessage t to 0 0 0 0 0 false 0 0 [] emptySnapshot.

(** Modelled from the spec: [IsEmptySnapshot] and [IsEmptyState] of raftpb;
    a snapshot is empty at index 0 ("possibly empty", section 6) and a
    state is empty when it is the zero value. *)
Definition IsEmptySnapshot (s : Snapshot) : bool := ssIndex s =? 0.
Definition IsEmptyState (st : State) : bool :=
  (stTerm st =? 0) && (stVote st =? 0) && (stCommit st =? 0).

Definition MessageType_eqb (a b : MessageType) : bool :=
  match a, b with
  | LocalTick, LocalTick | Election, Election
  | LeaderHeartbeat, LeaderHeartbeat
  | ConfigChangeEvent, ConfigChangeEvent | NoOP, NoOP | Ping, Ping
  | Pong, Pong | Propose, Propose | SnapshotStatus, SnapshotStatus
  | Unreachable, Unreachable | CheckQuorum, CheckQuorum
  | BatchedReadIndex, BatchedReadIndex | Replicate, Replicate
  | ReplicateResp, ReplicateResp | RequestVote, RequestVote
  | RequestVoteResp, RequestVoteResp | InstallSnapshot, InstallSnapshot
  | Heartbeat, Heartbeat | HeartbeatResp, HeartbeatResp
  | ReadIndex, ReadIndex | ReadIndexResp, ReadIndexResp
  | Quiesce, Quiesce | SnapshotReceived, SnapshotReceived
  | LeaderTransfer, LeaderTransfer | TimeoutNow, TimeoutNow => true
  | _, _ => false
  end.

Definition SystemCtx_eqb (a b : SystemCtx) : bool :=
  (Low a =? Low b) && (High a =? High b).

Definition with_To (to : Z) (m : Message) : Message :=
  mkMessage (mType m) to (mFrom m) (mTerm m) (mLogTerm m) (mLogIndex m)
    (mCommit m) (mReject m) (mHint m) (mHintHigh m) (mEntries m)
    (mSnapshot m).
Definition with_From (from : Z) (m : Message) : Message :=
  mkMessage (mType m) (mTo m) from (mTerm m) (mLogTerm m) (mLogIndex m)
    (mCommit m) (mReject m) (mHint m) (mHintHigh m) (mEntries m)
    (mSnapshot m).
Definition with_Term (t : Z) (m : Message) : Message :=
  mkMessage (mType m) (mTo m) (mFrom m) t (mLogTerm m) (mLogIndex m)
    (mCommit m) (mReject m) (mHint m) (mHintHigh m) (mEntries m)
    (mSnapshot m).
Definition with_LogIndex (i : Z) (m : Message) : Message :=
  mkMessage (mType m) (mTo m) (mFrom m) (mTerm m) (mLogTerm m) i
    (mCommit m) (mReject m) (mHint m) (mHintHigh m) (mEntries m)
    (mSnapshot m).
Definition with_LogTerm (t : Z) (m : Message) : Message :=
  mkMessage (mType m) (mTo m) (mFrom m) (mTerm m) t (mLogIndex m)
    (mCommit m) (mReject m) (mHint m) (mHintHigh m) (mEntries m)
    (mSnapshot m).
Definition with_Commit (c : Z) (m : Message) : Message :=
  mkMessage (mType m) (mTo m) (mFrom m) (mTerm m) (mLogTerm m) (mLogIndex m)
    c (mReject m) (mHint m) (mHintHigh m) (mEntries m) (mSnapshot m).
Definition with_Reject (b : bool) (m : Message) : Message :=
  mkMessage (mType m) (mTo m) (mFrom m) (mTerm m) (mLogTerm m) (mLogIndex m)
    (mCommit m) b (mHint m) (mHintHigh m) (mEntries m) (mSnapshot m).
Definition with_Hint (h : Z) (m : Message) : Message :=
  mkMessage (mType m) (mTo m) (mFrom m) (mTerm m) (mLogTerm m) (mLogIndex m)
    (mCommit m) (mReject m) h (mHintHigh m) (mEntries m) (mSnapshot m).
Definition with_HintHigh (h : Z) (m : Message) : Message :=
  mkMessage (mType m) (mTo m) (mFrom m) (mTerm m) (mLogTerm m) (mLogIndex m)
    (mCommit m) (mReject m) (mHint m) h (mEntries m) (mSnapshot m).
Definition with_Entries (es : list Entry) (m : Message) : Message :=
  mkMessage (mType m) (mTo m) (mFrom m) (mTerm m) (mLogTerm m) (mLogIndex m)
    (mCommit m) (mReject m) (mHint m) (mHintHigh m) es (mSnapshot m).
Definition with_Snapshot (s : Snapshot) (m : Message) : Message :=
  mkMessage (mType m) (mTo m) (mFrom m) (mTerm m) (mLogTerm m) (mLogIndex m)
    (mCommit m) (mReject m) (mHint m) (mHintHigh m) (mEntries m) s.
Definition with_Type (t : MessageType) (m : Message) : Message :=
  mkMessage t (mTo m) (mFrom m) (mTerm m) (mLogTerm m) (mLogIndex m)
    (mCommit m) (mReject m) (mHint m) (mHintHigh m) (mEntries m)
    (mSnapshot m).

End pb.

(** ** Results of fallible log operations *)

(** Modelled from the spec: the errors of the log; raft.go names
    [ErrCompacted] and treats every other error apart. *)
Inductive logErr : Set := ErrCompacted | ErrUnavailable.

(** ** The log view ([entryLog], declared in logentry.go) *)

Module entryLog.

(** Modelled from the spec: the type [entryLog] and its methods live in
    logentry.go, which is not among the sources.  Following sections 3 and
    4.3 of the specification the log is an ordered sequence of entries with
    contiguous indices above a snapshot marker ([markerIndex], [markerTerm])
    that stands for the compacted prefix, together with the [committed] and
    [applied] cursors. *)
Record t : Type := mk {
  markerIndex : Z;
  markerTerm : Z;
  markerMembership : pb.Membership;
  ents : list pb.Entry;
  committed : Z;
  applied : Z
}.

Definition set_committed (c : Z) (l : t) : t :=
  mk (markerIndex l) (markerTerm l) (markerMembership l) (ents l) c
     (applied l).
Definition set_ents (es : list pb.Entry) (l : t) : t :=
  mk (markerIndex l) (markerTerm l) (markerMembership l) es (committed l)
     (applied l).

(** Modelled from the spec: [firstIndex] and [lastIndex] of section 2. *)
Definition firstIndex (l : t) : Z := markerIndex l + 1.
Definition lastIndex (l : t) : Z := markerIndex l + Z.of_nat (length (ents l)).

(** Modelled from the spec: [term(i)] of sections 2 and 6
    ([Term(i) -> term | Compacted]): below the marker the entry is
    compacted, at the marker it is the marker's term, inside the log it is
    the entry's term, and above the last index there is no entry (term 0). *)
Definition term (l : t) (i : Z) : Z + logErr :=
  if i <? markerIndex l then inr ErrCompacted
  else if i =? markerIndex l then inl (markerTerm l)
  else match ents l !! Z.to_nat (i - markerIndex l - 1) with
       | Some e => inl (pb.Term e)
       | None => inl 0
       end.

(** Modelled from the spec: [lastTerm] is the term at the last index
    (section 4.3). *)
Definition lastTerm (l : t) : Z :=
  match term l (lastIndex l) with inl x => x | inr _ => 0 end.

(** Modelled from the spec: [matchTerm(i,t)] of section 2. *)
Definition matchTerm (l : t) (i tm : Z) : bool :=
  match term l i with inl x => x =? tm | inr _ => false end.

(** Modelled from the spec: [upToDate(index, term)] of section 4.3: true
    iff [term > lastTerm] or ([term == lastTerm] and [index >= lastIndex]). *)
Definition upToDate (l : t) (index tm : Z) : bool :=
  (lastTerm l <? tm) || ((tm =? lastTerm l) && (lastIndex l <=? index)).

(** Modelled from the spec: [commitTo(i)] of section 4.3 raises
    [committed] to [min(i, lastIndex)] and never lowers it. *)
Definition commitTo (l : t) (i : Z) : t :=
  let target := min64 i (lastIndex l) in
  if committed l <? target then set_committed target l else l.

(** Modelled from the spec: the commit rule of section 4.3: [committed]
    advances to [index] only if the entry there has the given term. *)
Definition tryCommit (l : t) (index tm : Z) : bool * t :=
  if index <=? committed l then (false, l)
  else
    let lterm := match term l index with inl x => x | inr _ => 0 end in
    if lterm =? tm then (true, commitTo l index) else (false, l).

(** Modelled from the spec: the bytes an entry counts for against the
    [maxBytes] of a batch (section 6), taken as the size of its payload. *)
Definition entrySize (e : pb.Entry) : Z := Z.of_nat (length (pb.Cmd e)).

(** Modelled from the spec: a batch limited by [maxBytes] (section 6); it
    always holds its first entry, so that replication makes progress. *)
Fixpoint limitSizeFrom (acc maxSize : Z) (es : list pb.Entry) : list pb.Entry :=
  match es with
  | [] => []
  | e :: es' =>
      if acc + entrySize e <=? maxSize
      then e :: limitSizeFrom (acc + entrySize e) maxSize es'
      else []
  end.

Definition limitSize (maxSize : Z) (es : list pb.Entry) : list pb.Entry :=
  match es with
  | [] => []
  | e :: es' => e :: limitSizeFrom (entrySize e) maxSize es'
  end.

(** Modelled from the spec: [entries(from, maxBytes)] of sections 2 and 6
    ([Entries(lo, maxBytes) -> []Entry | Compacted]). *)
Definition entries (l : t) (lo maxSize : Z) : list pb.Entry + logErr :=
  if lo <? firstIndex l then inr ErrCompacted
  else inl (limitSize maxSize (drop (Z.to_nat (lo - firstIndex l)) (ents l))).

(** Modelled from the spec: appending replaces whatever the log holds from
    the first new index on (section 4.3, "any suffix that conflicts is
    truncated"). *)
Definition append (l : t) (es : list pb.Entry) : t :=
  match es with
  | [] => l
  | e :: _ =>
      set_ents (take (Z.to_nat (pb.Index e - firstIndex l)) (ents l) ++ es) l
  end.

(** Modelled from the spec: the first entry of [es] that conflicts by term
    with the log (section 4.3), 0 when there is none. *)
Fixpoint getConflictIndex (l : t) (es : list pb.Entry) : Z :=
  match es with
  | [] => 0
  | e :: es' =>
      if matchTerm l (pb.Index e) (pb.Term e)
      then getConflictIndex l es' else pb.Index e
  end.

(** Modelled from the spec: [tryAppend(prevIndex, entries)] of section
    4.3: entries are inserted from the first conflict on; it never
    truncates below [committed]. *)
Definition tryAppend (l : t) (prevIndex : Z) (es : list pb.Entry) : option t :=
  let ci := getConflictIndex l es in
  if ci =? 0 then Some l
  else if ci <=? committed l then None
  else Some (append l (drop (Z.to_nat (ci - prevIndex - 1)) es)).

(** Modelled from the spec: [restore(snapshot)] of section 4.10 replaces
    the log state with the snapshot. *)
Definition restore (l : t) (ss : pb.Snapshot) : t :=
  mk (pb.ssIndex ss) (pb.ssTerm ss) (pb.ssMembership ss) [] (pb.ssIndex ss)
     (applied l).

(** Modelled from the spec: [Snapshot()] of section 6, the snapshot the
    log starts from. *)
Definition snapshot (l : t) : pb.Snapshot :=
  pb.mkSnapshot (markerIndex l) (markerTerm l) (markerMembership l).

End entryLog.

(** ** Replication progress of one peer ([remote], declared in remote.go) *)

Module remote.

(** Modelled from the spec: the type [remote] and its methods live in
    remote.go, which is not among the sources.  Section 3 of the
    specification gives the peer record ([match], [next], a flow state, an
    activity flag and the snapshot index in flight); the flow states are
    the ones raft.go names, and a fresh record [&remote{next: n}] starts in
    the retry state with everything else zero. *)
Inductive stateType : Set :=
| remoteRetry | remoteWait | remoteReplicate | remoteSnapshot.

Record t : Type := mk {
  match_ : Z;
  next : Z;
  snapshotIndex : Z;
  state : stateType;
  active : bool
}.

(** Modelled from the spec: the record [&remote{next: n}], everything but
    [next] being the zero value. *)
Definition fresh (n : Z) : t := mk 0 n 0 remoteRetry false.

Definition set_match (v : Z) (p : t) : t :=
  mk v (next p) (snapshotIndex p) (state p) (active p).
Definition set_next (v : Z) (p : t) : t :=
  mk (match_ p) v (snapshotIndex p) (state p) (active p).
Definition set_snapshotIndex (v : Z) (p : t) : t :=
  mk (match_ p) (next p) v (state p) (active p).
Definition set_state (v : stateType) (p : t) : t :=
  mk (match_ p) (next p) (snapshotIndex p) v (active p).
Definition set_active (v : bool) (p : t) : t :=
  mk (match_ p) (next p) (snapshotIndex p) (state p) v.

Definition stateType_eqb (a b : stateType) : bool :=
  match a, b with
  | remoteRetry, remoteRetry | remoteWait, remoteWait
  | remoteReplicate, remoteReplicate | remoteSnapshot, remoteSnapshot => true
  | _, _ => false
  end.

(** Modelled from the spec: the activity flag of section 3. *)
Definition isActive (p : t) : bool := active p.
Definition setActive (p : t) : t := set_active true p.
Definition setNotActive (p : t) : t := set_active false p.

(** Modelled from the spec: sending is throttled in the wait and snapshot
    states (section 3, "flowState governing send throttling"). *)
Definition isPaused (p : t) : bool :=
  match state p with
  | remoteRetry | remoteReplicate => false
  | remoteWait | remoteSnapshot => true
  end.

(** Modelled from the spec: on a rejected snapshot the index in flight is
    cleared (section 4.10). *)
Definition clearPendingSnapshot (p : t) : t := set_snapshotIndex 0 p.

(** Modelled from the spec: leaving the snapshot state resumes at
    [next = pendingSnapshotIndex + 1] when the snapshot went through
    (section 4.10), otherwise after [match]. *)
Definition becomeRetry (p : t) : t :=
  let n := match state p with
           | remoteSnapshot =>
               max64 (add64 (match_ p) 1) (add64 (snapshotIndex p) 1)
           | _ => add64 (match_ p) 1
           end in
  set_state remoteRetry (set_snapshotIndex 0 (set_next n p)).

(** Modelled from the spec: the moves between the retry and the wait
    state that the names used in raft.go stand for. *)
Definition retryToWait (p : t) : t :=
  match state p with remoteRetry => set_state remoteWait p | _ => p end.

Definition waitToRetry (p : t) : t :=
  match state p with remoteWait => set_state remoteRetry p | _ => p end.

(** Modelled from the spec: after a snapshot the peer moves to the wait
    state (section 4.10). *)
Definition becomeWait (p : t) : t := retryToWait (becomeRetry p).

(** Modelled from the spec: replication resumes right after [match]. *)
Definition becomeReplicate (p : t) : t :=
  set_state remoteReplicate
    (set_snapshotIndex 0 (set_next (add64 (match_ p) 1) p)).

(** Modelled from the spec: in the snapshot state the record holds the
    snapshot index in flight (section 4.5). *)
Definition becomeSnapshot (index : Z) (p : t) : t :=
  set_state remoteSnapshot (set_snapshotIndex index p).

(** Modelled from the spec: a successful response advances [match] to the
    acknowledged index and [next] beyond it, and clears the pause (section
    4.5); the result tells whether [match] moved. *)
Definition tryUpdate (index : Z) (p : t) : bool * t :=
  let p1 := if next p <? add64 index 1
            then set_next (add64 index 1) p else p in
  if match_ p1 <? index
  then (true, set_match index (waitToRetry p1))
  else (false, p1).

(** Modelled from the spec: after queuing a Replicate, [next] is moved
    optimistically past the last entry sent and the flow state is updated
    (section 4.5).  [None] stands for the panic on an unexpected state. *)
Definition progress (lastIndex : Z) (p : t) : option t :=
  match state p with
  | remoteReplicate => Some (set_next (add64 lastIndex 1) p)
  | remoteRetry => Some (retryToWait p)
  | _ => None
  end.

(** Modelled from the spec: a response lets a retrying peer replicate, and
    ends the snapshot state once [match] has reached the snapshot. *)
Definition respondedTo (p : t) : t :=
  match state p with
  | remoteRetry => becomeReplicate p
  | remoteSnapshot =>
      if snapshotIndex p <=? match_ p then becomeRetry p else p
  | _ => p
  end.

(** Modelled from the spec: on rejection [next] decreases to
    [min(rejectedIndex, hint+1)] (section 4.5), never below 1; the result
    tells whether the rejection was taken into account. *)
Definition decreaseTo (rejected last : Z) (p : t) : bool * t :=
  match state p with
  | remoteReplicate =>
      if rejected <=? match_ p then (false, p)
      else (true, set_next (add64 (match_ p) 1) p)
  | _ =>
      if negb (sub64 (next p) 1 =? rejected) then (false, p)
      else
        let p1 := waitToRetry p in
        (true, set_next (max64 1 (min64 rejected (add64 last 1))) p1)
  end.

End remote.

(** ** The queue of pending reads ([readIndex], declared in readindex.go) *)

Module readIndex.

(** Modelled from the spec: the type [readIndex] lives in readindex.go,
    which is not among the sources.  Section 3 of the specification gives
    an ordered sequence of pending reads, each with the commit index at
    the time of the request, the client context and the originator, waiting
    for a quorum of confirmations. *)
Record readStatus : Type := mkReadStatus {
  confirmed : gset Z;
  index : Z;
  from : Z;
  ctx : pb.SystemCtx
}.

Definition set_index (i : Z) (s : readStatus) : readStatus :=
  mkReadStatus (confirmed s) i (from s) (ctx s).

(** Modelled from the spec: the queue, in request order. *)
Definition t : Type := list readStatus.

(** Modelled from the spec: the empty queue. *)
Definition newReadIndex : t := [].

(** Modelled from the spec: whether a read is queued. *)
Definition hasPendingRequest (q : t) : bool :=
  match q with [] => false | _ => true end.

(** Modelled from the spec: the context most recently queued, which the
    next heartbeats are stamped with (section 4.7); [None] on an empty
    queue. *)
Definition peepCtx (q : t) : option pb.SystemCtx := ctx <$> last q.

(** Modelled from the spec: the queued read with a given context. *)
Definition pending (q : t) (c : pb.SystemCtx) : option readStatus :=
  List.find (fun s => pb.SystemCtx_eqb (ctx s) c) q.

(** Modelled from the spec: a heartbeat response from [nid] confirms the
    read with context [c] (section 4.7). *)
Definition confirmFrom (c : pb.SystemCtx) (nid : Z) (q : t) : t :=
  (fun s => if pb.SystemCtx_eqb (ctx s) c
            then mkReadStatus ({[nid]} ∪ confirmed s) (index s) (from s)
                   (ctx s)
            else s) <$> q.

(** Modelled from the spec: a read is queued once per context, in request
    order; [None] stands for the panic on a commit index that went
    backwards. *)
Definition addRequest (q : t) (i : Z) (c : pb.SystemCtx) (nid : Z)
  : option t :=
  match pending q c with
  | Some _ => Some q
  | None =>
      match last q with
      | Some p =>
          if i <? index p then None
          else Some (q ++ [mkReadStatus ∅ i nid c])
      | None => Some (q ++ [mkReadStatus ∅ i nid c])
      end
  end.

(** Modelled from the spec: the queue split after the read with context
    [c], the reads "with matching (or earlier) ctx" of section 4.7 and the
    rest. *)
Fixpoint splitAt (c : pb.SystemCtx) (q : t) : option (t * t) :=
  match q with
  | [] => None
  | s :: q' =>
      if pb.SystemCtx_eqb (ctx s) c then Some ([s], q')
      else match splitAt c q' with
           | Some (cs, rest) => Some (s :: cs, rest)
           | None => None
           end
  end.

(** Modelled from the spec: once heartbeat responses carrying the context
    arrived from a quorum (counting the leader itself), every read queued
    up to and including that context is drained, at the index of the
    confirmed one (section 4.7).  The outer [None] stands for the panic on
    an index above the confirmed one. *)
Definition confirm (q : t) (c : pb.SystemCtx) (nid : Z) (quorum : Z)
  : option (list readStatus * t) :=
  match pending q c with
  | None => Some ([], q)
  | Some _ =>
      let q1 := confirmFrom c nid q in
      match pending q1 c with
      | None => Some ([], q1)
      | Some p =>
          if Z.of_nat (size (confirmed p)) + 1 <? quorum then Some ([], q1)
          else
            match splitAt c q1 with
            | None => Some ([], q1)
            | Some (cs, rest) =>
                if forallb (fun v => index v <=? index p) cs
                then Some (set_index (index p) <$> cs, rest)
                else None
            end
      end
  end.

End readIndex.

(** ** The node *)

Inductive State : Set := follower | candidate | leader | observer.

Definition State_eqb (a b : State) : bool :=
  match a, b with
  | follower, follower | candidate, candidate
  | leader, leader | observer, observer => true
  | _, _ => false
  end.

Definition NoLeader : Z := 0.
Definition NoNode : Z := 0.
Definition noLimit : Z := MaxUint64.
Definition numMessageTypes : Z := 25.

(** The struct [raft].  The dispatch table [handlers] and the step function
    [handle] are fixed at construction and appear below as [handlers] and
    [defaultHandle]; [recordLeader] only reports to the host.  The test hook
    [hasNotAppliedConfigChange] sees the log and the applied index.  The
    limits [settings.Soft.MaxEntrySize] and [maxEntriesToApplySize] are
    declared outside raft.go and kept as [maxEntrySize] and
    [maxEntriesToApplySize]; the process-wide [random.LockGuardedRand] is the
    stream [rand] read at [randPos]. *)
Record raft : Type := mkRaft {
  applied : Z;
  nodeID : Z;
  clusterID : Z;
  term : Z;
  vote : Z;
  log : entryLog.t;
  remotes : gmap Z remote.t;
  observers : gmap Z remote.t;
  state : State;
  votes : gmap Z bool;
  msgs : list pb.Message;
  leaderID : Z;
  leaderTransferTarget : Z;
  isLeaderTransferTarget : bool;
  pendingConfigChange : bool;
  readIndex : readIndex.t;
  readyToRead : list pb.ReadyToRead;
  checkQuorum : bool;
  tickCount : Z;
  electionTick : Z;
  heartbeatTick : Z;
  heartbeatTimeout : Z;
  electionTimeout : Z;
  randomizedElectionTimeout : Z;
  matched : list Z;
  hasNotAppliedConfigChange : option (entryLog.t -> Z -> bool);
  maxEntrySize : Z;
  maxEntriesToApplySize : Z;
  rand : nat -> Z;
  randPos : nat
}.

Definition set_applied (v : Z) (r : raft) : raft :=
  mkRaft v (nodeID r) (clusterID r) (term r) (vote r) (log r) (remotes r)
    (observers r) (state r) (votes r) (msgs r) (leaderID r)
    (leaderTransferTarget r) (isLeaderTransferTarget r)
    (pendingConfigChange r) (readIndex r) (readyToRead r) (checkQuorum r)
    (tickCount r) (electionTick r) (heartbeatTick r) (heartbeatTimeout r)
    (electionTimeout r) (randomizedElectionTimeout r) (matched r)
    (hasNotAppliedConfigChange r) (maxEntrySize r) (maxEntriesToApplySize r)
    (rand r) (randPos r).
Definition set_term (v : Z) (r : raft) : raft :=
  mkRaft (applied r) (nodeID r) (clusterID r) v (vote r) (log r) (remotes r)
    (observers r) (state r) (votes r) (msgs r) (leaderID r)
    (leaderTransferTarget r) (isLeaderTransferTarget r)
    (pendingConfigChange r) (readIndex r) (readyToRead r) (checkQuorum r)
    (tickCount r) (electionTick r) (heartbeatTick r) (heartbeatTimeout r)
    (electionTimeout r) (randomizedElectionTimeout r) (matched r)
    (hasNotAppliedConfigChange r) (maxEntrySize r) (maxEntriesToApplySize r)
    (rand r) (randPos r).
Definition set_vote (v : Z) (r : raft) : raft :=
  mkRaft (applied r) (nodeID r) (clusterID r) (term r) v (log r) (remotes r)
    (observers r) (state r) (votes r) (msgs r) (leaderID r)
    (leaderTransferTarget r) (isLeaderTransferTarget r)
    (pendingConfigChange r) (readIndex r) (readyToRead r) (checkQuorum r)
    (tickCount r) (electionTick r) (heartbeatTick r) (heartbeatTimeout r)
    (electionTimeout r) (randomizedElectionTimeout r) (matched r)
    (hasNotAppliedConfigChange r) (maxEntrySize r) (maxEntriesToApplySize r)
    (rand r) (randPos r).
Definition set_log (v : entryLog.t) (r : raft) : raft :=
  mkRaft (applied r) (nodeID r) (clusterID r) (term r) (vote r) v
    (remotes r) (observers r) (state r) (votes r) (msgs r) (leaderID r)
    (leaderTransferTarget r) (isLeaderTransferTarget r)
    (pendingConfigChange r) (readIndex r) (readyToRead r) (checkQuorum r)
    (tickCount r) (electionTick r) (heartbeatTick r) (heartbeatTimeout r)
    (electionTimeout r) (randomizedElectionTimeout r) (matched r)
    (hasNotAppliedConfigChange r) (maxEntrySize r) (maxEntriesToApplySize r)
    (rand r) (randPos r).
Definition set_remotes (v : gmap Z remote.t) (r : raft) : raft :=
  mkRaft (applied r) (nodeID r) (clusterID r) (term r) (vote r) (log r) v
    (observers r) (state r) (votes r) (msgs r) (leaderID r)
    (leaderTransferTarget r) (isLeaderTransferTarget r)
    (pendingConfigChange r) (readIndex r) (readyToRead r) (checkQuorum r)
    (tickCount r) (electionTick r) (heartbeatTick r) (heartbeatTimeout r)
    (electionTimeout r) (randomizedElectionTimeout r) (matched r)
    (hasNotAppliedConfigChange r) (maxEntrySize r) (maxEntriesToApplySize r)
    (rand r) (randPos r).
Definition set_observers (v : gmap Z remote.t) (r : raft) : raft :=
  mkRaft (applied r) (nodeID r) (clusterID r) (term r) (vote r) (log r)
    (remotes r) v (state r) (votes r) (msgs r) (leaderID r)
    (leaderTransferTarget r) (isLeaderTransferTarget r)
    (pendingConfigChange r) (readIndex r) (readyToRead r) (checkQuorum r)
    (tickCount r) (electionTick r) (heartbeatTick r) (heartbeatTimeout r)
    (electionTimeout r) (randomizedElectionTimeout r) (matched r)
    (hasNotAppliedConfigChange r) (maxEntrySize r) (maxEntriesToApplySize r)
    (rand r) (randPos r).
Definition set_state (v : State) (r : raft) : raft :=
  mkRaft (applied r) (nodeID r) (clusterID r) (term r) (vote r) (log r)
    (remotes r) (observers r) v (votes r) (msgs r) (leaderID r)
    (leaderTransferTarget r) (isLeaderTransferTarget r)
    (pendingConfigChange r) (readIndex r) (readyToRead r) (checkQuorum r)
    (tickCount r) (electionTick r) (heartbeatTick r) (heartbeatTimeout r)
    (electionTimeout r) (randomizedElectionTimeout r) (matched r)
    (hasNotAppliedConfigChange r) (maxEntrySize r) (maxEntriesToApplySize r)
    (rand r) (randPos r).
Definition set_votes (v : gmap Z bool) (r : raft) : raft :=
  mkRaft (applied r) (nodeID r) (clusterID r) (term r) (vote r) (log r)
    (remotes r) (observers r) (state r) v (msgs r) (leaderID r)
    (leaderTransferTarget r) (isLeaderTransferTarget r)
    (pendingConfigChange r) (readIndex r) (readyToRead r) (checkQuorum r)
    (tickCount r) (electionTick r) (heartbeatTick r) (heartbeatTimeout r)
    (electionTimeout r) (randomizedElectionTimeout r) (matched r)
    (hasNotAppliedConfigChange r) (maxEntrySize r) (maxEntriesToApplySize r)
    (rand r) (randPos r).
Definition set_msgs (v : list pb.Message) (r : raft) : raft :=
  mkRaft (applied r) (nodeID r) (clusterID r) (term r) (vote r) (log r)
    (remotes r) (observers r) (state r) (votes r) v (leaderID r)
    (leaderTransferTarget r) (isLeaderTransferTarget r)
    (pendingConfigChange r) (readIndex r) (readyToRead r) (checkQuorum r)
    (tickCount r) (electionTick r) (heartbeatTick r) (heartbeatTimeout r)
    (electionTimeout r) (randomizedElectionTimeout r) (matched r)
    (hasNotAppliedConfigChange r) (maxEntrySize r) (maxEntriesToApplySize r)
    (rand r) (randPos r).
Definition set_leaderID (v : Z) (r : raft) : raft :=
  mkRaft (applied r) (nodeID r) (clusterID r) (term r) (vote r) (log r)
    (remotes r) (observers r) (state r) (votes r) (msgs r) v
    (leaderTransferTarget r) (isLeaderTransferTarget r)
    (pendingConfigChange r) (readIndex r) (readyToRead r) (checkQuorum r)
    (tickCount r) (electionTick r) (heartbeatTick r) (heartbeatTimeout r)
    (electionTimeout r) (randomizedElectionTimeout r) (matched r)
    (hasNotAppliedConfigChange r) (maxEntrySize r) (maxEntriesToApplySize r)
    (rand r) (randPos r).
Definition set_leaderTransferTarget (v : Z) (r : raft) : raft :=
  mkRaft (applied r) (nodeID r) (clusterID r) (term r) (vote r) (log r)
    (remotes r) (observers r) (state r) (votes r) (msgs r) (leaderID r) v
    (isLeaderTransferTarget r) (pendingConfigChange r) (readIndex r)
    (readyToRead r) (checkQuorum r) (tickCount r) (electionTick r)
    (heartbeatTick r) (heartbeatTimeout r) (electionTimeout r)
    (randomizedElectionTimeout r) (matched r) (hasNotAppliedConfigChange r)
    (maxEntrySize r) (maxEntriesToApplySize r) (rand r) (randPos r).
Definition set_isLeaderTransferTarget (v : bool) (r : raft) : raft :=
  mkRaft (applied r) (nodeID r) (clusterID r) (term r) (vote r) (log r)
    (remotes r) (observers r) (state r) (votes r) (msgs r) (leaderID r)
    (leaderTransferTarget r) v (pendingConfigChange r) (readIndex r)
    (readyToRead r) (checkQuorum r) (tickCount r) (electionTick r)
    (heartbeatTick r) (heartbeatTimeout r) (electionTimeout r)
    (randomizedElectionTimeout r) (matched r) (hasNotAppliedConfigChange r)
    (maxEntrySize r) (maxEntriesToApplySize r) (rand r) (randPos r).
Definition set_pendingConfigChange (v : bool) (r : raft) : raft :=
  mkRaft (applied r) (nodeID r) (clusterID r) (term r) (vote r) (log r)
    (remotes r) (observers r) (state r) (votes r) (msgs r) (leaderID r)
    (leaderTransferTarget r) (isLeaderTransferTarget r) v (readIndex r)
    (readyToRead r) (checkQuorum r) (tickCount r) (electionTick r)
    (heartbeatTick r) (heartbeatTimeout r) (electionTimeout r)
    (randomizedElectionTimeout r) (matched r) (hasNotAppliedConfigChange r)
    (maxEntrySize r) (maxEntriesToApplySize r) (rand r) (randPos r).
Definition set_readIndex (v : readIndex.t) (r : raft) : raft :=
  mkRaft (applied r) (nodeID r) (clusterID r) (term r) (vote r) (log r)
    (remotes r) (observers r) (state r) (votes r) (msgs r) (leaderID r)
    (leaderTransferTarget r) (isLeaderTransferTarget r)
    (pendingConfigChange r) v (readyToRead r) (checkQuorum r) (tickCount r)
    (electionTick r) (heartbeatTick r) (heartbeatTimeout r)
    (electionTimeout r) (randomizedElectionTimeout r) (matched r)
    (hasNotAppliedConfigChange r) (maxEntrySize r) (maxEntriesToApplySize r)
    (rand r) (randPos r).
Definition set_readyToRead (v : list pb.ReadyToRead) (r : raft) : raft :=
  mkRaft (applied r) (nodeID r) (clusterID r) (term r) (vote r) (log r)
    (remotes r) (observers r) (state r) (votes r) (msgs r) (leaderID r)
    (leaderTransferTarget r) (isLeaderTransferTarget r)
    (pendingConfigChange r) (readIndex r) v (checkQuorum r) (tickCount r)
    (electionTick r) (heartbeatTick r) (heartbeatTimeout r)
    (electionTimeout r) (randomizedElectionTimeout r) (matched r)
    (hasNotAppliedConfigChange r) (maxEntrySize r) (maxEntriesToApplySize r)
    (rand r) (randPos r).
Definition set_tickCount (v : Z) (r : raft) : raft :=
  mkRaft (applied r) (nodeID r) (clusterID r) (term r) (vote r) (log r)
    (remotes r) (observers r) (state r) (votes r) (msgs r) (leaderID r)
    (leaderTransferTarget r) (isLeaderTransferTarget r)
    (pendingConfigChange r) (readIndex r) (readyToRead r) (checkQuorum r) v
    (electionTick r) (heartbeatTick r) (heartbeatTimeout r)
    (electionTimeout r) (randomizedElectionTimeout r) (matched r)
    (hasNotAppliedConfigChange r) (maxEntrySize r) (maxEntriesToApplySize r)
    (rand r) (randPos r).
Definition set_electionTick (v : Z) (r : raft) : raft :=
  mkRaft (applied r) (nodeID r) (clusterID r) (term r) (vote r) (log r)
    (remotes r) (observers r) (state r) (votes r) (msgs r) (leaderID r)
    (leaderTransferTarget r) (isLeaderTransferTarget r)
    (pendingConfigChange r) (readIndex r) (readyToRead r) (checkQuorum r)
    (tickCount r) v (heartbeatTick r) (heartbeatTimeout r)
    (electionTimeout r) (randomizedElectionTimeout r) (matched r)
    (hasNotAppliedConfigChange r) (maxEntrySize r) (maxEntriesToApplySize r)
    (rand r) (randPos r).
Definition set_heartbeatTick (v : Z) (r : raft) : raft :=
  mkRaft (applied r) (nodeID r) (clusterID r) (term r) (vote r) (log r)
    (remotes r) (observers r) (state r) (votes r) (msgs r) (leaderID r)
    (leaderTransferTarget r) (isLeaderTransferTarget r)
    (pendingConfigChange r) (readIndex r) (readyToRead r) (checkQuorum r)
    (tickCount r) (electionTick r) v (heartbeatTimeout r)
    (electionTimeout r) (randomizedElectionTimeout r) (matched r)
    (hasNotAppliedConfigChange r) (maxEntrySize r) (maxEntriesToApplySize r)
    (rand r) (randPos r).
Definition set_randomizedElectionTimeout (v : Z) (r : raft) : raft :=
  mkRaft (applied r) (nodeID r) (clusterID r) (term r) (vote r) (log r)
    (remotes r) (observers r) (state r) (votes r) (msgs r) (leaderID r)
    (leaderTransferTarget r) (isLeaderTransferTarget r)
    (pendingConfigChange r) (readIndex r) (readyToRead r) (checkQuorum r)
    (tickCount r) (electionTick r) (heartbeatTick r) (heartbeatTimeout r)
    (electionTimeout r) v (matched r) (hasNotAppliedConfigChange r)
    (maxEntrySize r) (maxEntriesToApplySize r) (rand r) (randPos r).
Definition set_matched (v : list Z) (r : raft) : raft :=
  mkRaft (applied r) (nodeID r) (clusterID r) (term r) (vote r) (log r)
    (remotes r) (observers r) (state r) (votes r) (msgs r) (leaderID r)
    (leaderTransferTarget r) (isLeaderTransferTarget r)
    (pendingConfigChange r) (readIndex r) (readyToRead r) (checkQuorum r)
    (tickCount r) (electionTick r) (heartbeatTick r) (heartbeatTimeout r)
    (electionTimeout r) (randomizedElectionTimeout r) v
    (hasNotAppliedConfigChange r) (maxEntrySize r) (maxEntriesToApplySize r)
    (rand r) (randPos r).
Definition set_randPos (v : nat) (r : raft) : raft :=
  mkRaft (applied r) (nodeID r) (clusterID r) (term r) (vote r) (log r)
    (remotes r) (observers r) (state r) (votes r) (msgs r) (leaderID r)
    (leaderTransferTarget r) (isLeaderTransferTarget r)
    (pendingConfigChange r) (readIndex r) (readyToRead r) (checkQuorum r)
    (tickCount r) (electionTick r) (heartbeatTick r) (heartbeatTimeout r)
    (electionTimeout r) (randomizedElectionTimeout r) (matched r)
    (hasNotAppliedConfigChange r) (maxEntrySize r) (maxEntriesToApplySize r)
    (rand r) v.

(** ** Computations on the node

    A method either returns with a new state, panics (an explicit [panic], a
    nil dereference, an index out of range, a division by zero), or runs out
    of the fuel that bounds the re-entrant calls of [Handle]. *)

Inductive outcome (A : Type) : Type :=
| Ok (a : A) (r : raft)
| Panic
| Diverge.
Arguments Ok {A} a r.
Arguments Panic {A}.
Arguments Diverge {A}.

Definition M (A : Type) : Type := raft -> outcome A.

Definition ret {A : Type} (a : A) : M A := fun r => Ok a r.

Definition bind {A B : Type} (c : M A) (k : A -> M B) : M B :=
  fun r => match c r with
           | Ok a r' => k a r'
           | Panic => Panic
           | Diverge => Diverge
           end.

Definition get : M raft := fun r => Ok r r.
Definition modify (f : raft -> raft) : M unit := fun r => Ok tt (f r).
Definition panic {A : Type} : M A := fun _ => Panic.
Definition diverge {A : Type} : M A := fun _ => Diverge.

Declare Scope raft_scope.
Delimit Scope raft_scope with raft.
Notation "x <- c ;; k" := (bind c (fun x => k))
  (at level 100, c at next level, k at level 200, right associativity)
  : raft_scope.
Notation "c ;; k" := (bind c (fun _ => k))
  (at level 100, k at level 200, right associativity) : raft_scope.
Local Open Scope raft_scope.

Definition when (b : bool) (c : M unit) : M unit := if b then c else ret tt.

Fixpoint forM_ {K : Type} (l : list K) (f : K -> M unit) : M unit :=
  match l with
  | [] => ret tt
  | k :: l' => f k ;; forM_ l' f
  end.

Fixpoint foldM {K A : Type} (f : A -> K -> M A) (l : list K) (a : A) : M A :=
  match l with
  | [] => ret a
  | k :: l' => a' <- f a k ;; foldM f l' a'
  end.

(** The keys a [range] over a map visits. *)
Definition keys {V : Type} (m : gmap Z V) : list Z := (map_to_list m).*1.

(** A [*remote]: the map the record lives in and its key. *)
Inductive remoteRef : Set := inRemotes (id : Z) | inObservers (id : Z).

Definition deref (p : remoteRef) (r : raft) : option remote.t :=
  match p with
  | inRemotes id => remotes r !! id
  | inObservers id => observers r !! id
  end.

Definition store (p : remoteRef) (v : remote.t) (r : raft) : raft :=
  match p with
  | inRemotes id => set_remotes (<[id := v]> (remotes r)) r
  | inObservers id => set_observers (<[id := v]> (observers r)) r
  end.

(** Reading and updating through a pointer; a nil pointer panics. *)
Definition load (p : remoteRef) : M remote.t :=
  fun r => match deref p r with Some v => Ok v r | None => Panic end.

Definition update (p : remoteRef) (f : remote.t -> remote.t) : M unit :=
  v <- load p ;; modify (store p (f v)).

(** ** Accessors *)

Definition setApplied (a : Z) : M unit := modify (set_applied a).
Definition getApplied (r : raft) : Z := applied r.

Definition resetMatchValueArray : M unit :=
  modify (fun r => set_matched (replicate (size (remotes r)) 0) r).

Definition isObserver (r : raft) : bool := State_eqb (state r) observer.

Definition setLeaderID (leaderID : Z) : M unit := modify (set_leaderID leaderID).

Definition leaderTransfering (r : raft) : bool :=
  negb (leaderTransferTarget r =? NoNode) && State_eqb (state r) leader.

Definition abortLeaderTransfer : M unit :=
  modify (set_leaderTransferTarget NoNode).

Definition quorum (r : raft) : Z := Z.of_nat (size (remotes r)) / 2 + 1.

Definition isSingleNodeQuorum (r : raft) : bool := quorum r =? 1.

Definition leaderHasQuorum : M bool :=
  r0 <- get ;;
  c <- foldM (fun c nid =>
                r <- get ;;
                rp <- load (inRemotes nid) ;;
                if (nid =? nodeID r) || remote.isActive rp
                then update (inRemotes nid) remote.setNotActive ;; ret (c + 1)
                else ret c)
             (keys (remotes r0)) 0 ;;
  r <- get ;;
  ret (quorum r <=? c).

Definition raftState (r : raft) : pb.State :=
  pb.mkState (term r) (vote r) (entryLog.committed (log r)).

Definition loadState (st : pb.State) : M unit :=
  r <- get ;;
  if (pb.stCommit st <? entryLog.committed (log r))
     || (entryLog.lastIndex (log r) <? pb.stCommit st)
  then panic
  else
    modify (fun r => set_log (entryLog.set_committed (pb.stCommit st) (log r)) r) ;;
    modify (set_term (pb.stTerm st)) ;;
    modify (set_vote (pb.stVote st)).

Definition restore (ss : pb.Snapshot) : M bool :=
  r <- get ;;
  if pb.ssIndex ss <=? entryLog.committed (log r) then ret false
  else
    (if negb (isObserver r)
     then forM_ (elements (pb.Observers (pb.ssMembership ss)))
                (fun nid => if nid =? nodeID r then panic else ret tt)
     else ret tt) ;;
    if entryLog.matchTerm (log r) (pb.ssIndex ss) (pb.ssTerm ss)
    then modify (set_log (entryLog.commitTo (log r) (pb.ssIndex ss))) ;;
         ret false
    else modify (set_log (entryLog.restore (log r) ss)) ;;
         ret true.

(** ** Tick predicates *)

Definition timeForElection (r : raft) : bool :=
  randomizedElectionTimeout r <=? electionTick r.

Definition timeForHearbeat (r : raft) : bool :=
  heartbeatTimeout r <=? heartbeatTick r.

Definition timeForCheckQuorum (r : raft) : bool :=
  electionTimeout r <=? electionTick r.

Definition timeToAbortLeaderTransfer (r : raft) : bool :=
  leaderTransfering r && (electionTimeout r <=? electionTick r).

Definition quiescedTick : M unit :=
  modify (fun r => set_electionTick (add64 (electionTick r) 1) r).

(** One unsigned integer is drawn per call; the remainder by a zero
    election timeout is a run-time panic. *)
Definition setRandomizedElectionTimeout : M unit :=
  r <- get ;;
  let v := wrap64 (rand r (randPos r)) in
  modify (set_randPos (S (randPos r))) ;;
  if electionTimeout r =? 0 then panic
  else
    let randTime := v mod electionTimeout r in
    modify (set_randomizedElectionTimeout
              (add64 (electionTimeout r) randTime)).

(** ** Send and broadcast *)

Definition isRequestMessage (t : pb.MessageType) : bool :=
  pb.MessageType_eqb t pb.Propose || pb.MessageType_eqb t pb.ReadIndex.

Definition isLeaderMessage (t : pb.MessageType) : bool :=
  pb.MessageType_eqb t pb.Replicate
  || pb.MessageType_eqb t pb.InstallSnapshot
  || pb.MessageType_eqb t pb.Heartbeat
  || pb.MessageType_eqb t pb.TimeoutNow
  || pb.MessageType_eqb t pb.ReadIndexResp.

Definition finalizeMessageTerm (m : pb.Message) : M pb.Message :=
  r <- get ;;
  if (pb.mTerm m =? 0) && pb.MessageType_eqb (pb.mType m) pb.RequestVote
  then panic
  else if (0 <? pb.mTerm m)
          && negb (pb.MessageType_eqb (pb.mType m) pb.RequestVote)
  then panic
  else if negb (isRequestMessage (pb.mType m))
  then ret (pb.with_Term (term r) m)
  else ret m.

Definition send (m : pb.Message) : M unit :=
  r <- get ;;
  m' <- finalizeMessageTerm (pb.with_From (nodeID r) m) ;;
  modify (fun r => set_msgs (msgs r ++ [m']) r).

Definition makeInstallSnapshotMessage (to : Z) (m : pb.Message)
  : M (Z * pb.Message) :=
  r <- get ;;
  let snapshot := entryLog.snapshot (log r) in
  if pb.IsEmptySnapshot snapshot then panic
  else ret (pb.ssIndex snapshot,
            pb.with_Snapshot snapshot
              (pb.with_Type pb.InstallSnapshot (pb.with_To to m))).

Definition makeReplicateMessage (to next maxSize : Z)
  : M (pb.Message + logErr) :=
  r <- get ;;
  match entryLog.term (log r) (sub64 next 1) with
  | inr err => ret (inr err)
  | inl tm =>
      match entryLog.entries (log r) next maxSize with
      | inr err => ret (inr err)
      | inl entries =>
          match last entries with
          | Some e =>
              if negb (pb.Index e
                       =? add64 (sub64 next 1) (Z.of_nat (length entries)))
              then panic
              else ret tt
          | None => ret tt
          end ;;
          ret (inl (pb.with_Commit (entryLog.committed (log r))
                      (pb.with_Entries entries
                         (pb.with_LogTerm tm
                            (pb.with_LogIndex (sub64 next 1)
                               (pb.msg pb.Replicate to))))))
      end
  end.

Definition sendReplicateMessage (to : Z) : M unit :=
  r <- get ;;
  rp <- (match remotes r !! to with
         | Some _ => ret (inRemotes to)
         | None => match observers r !! to with
                   | Some _ => ret (inObservers to)
                   | None => panic
                   end
         end) ;;
  v <- load rp ;;
  if remote.isPaused v then ret tt
  else
    res <- makeReplicateMessage to (remote.next v) (maxEntrySize r) ;;
    match res with
    | inr _ =>
        if negb (remote.isActive v) then ret tt
        else
          im <- makeInstallSnapshotMessage to (pb.msg pb.LocalTick 0) ;;
          update rp (remote.becomeSnapshot (fst im)) ;;
          send (snd im)
    | inl m =>
        match last (pb.mEntries m) with
        | Some e =>
            match remote.progress (pb.Index e) v with
            | Some v' => modify (store rp v')
            | None => panic
            end
        | None => ret tt
        end ;;
        send m
    end.

Definition broadcastReplicateMessage : M unit :=
  r <- get ;;
  forM_ (keys (remotes r))
        (fun nid => if negb (nid =? nodeID r)
                    then sendReplicateMessage nid else ret tt) ;;
  r1 <- get ;;
  forM_ (keys (observers r1))
        (fun nid => if nid =? nodeID r1 then panic
                    else sendReplicateMessage nid).

Definition sendHeartbeatMessage (to : Z) (hint : pb.SystemCtx)
    (toObserver : bool) : M unit :=
  rp <- load (if toObserver then inObservers to else inRemotes to) ;;
  r <- get ;;
  let commit := min64 (remote.match_ rp) (entryLog.committed (log r)) in
  send (pb.with_HintHigh (pb.High hint)
          (pb.with_Hint (pb.Low hint)
             (pb.with_Commit commit (pb.msg pb.Heartbeat to)))).

Definition broadcastHeartbeatMessageWithHint (ctx : pb.SystemCtx) : M unit :=
  r <- get ;;
  forM_ (keys (remotes r))
        (fun id => if negb (id =? nodeID r)
                   then sendHeartbeatMessage id ctx false else ret tt) ;;
  if pb.SystemCtx_eqb ctx pb.zeroCtx
  then r1 <- get ;;
       forM_ (keys (observers r1))
             (fun id => sendHeartbeatMessage id pb.zeroCtx true)
  else ret tt.

Definition broadcastHeartbeatMessage : M unit :=
  r <- get ;;
  if readIndex.hasPendingRequest (readIndex r)
  then match readIndex.peepCtx (readIndex r) with
       | Some ctx => broadcastHeartbeatMessageWithHint ctx
       | None => panic
       end
  else broadcastHeartbeatMessageWithHint pb.zeroCtx.

Definition sendTimeoutNowMessage (target : Z) : M unit :=
  send (pb.msg pb.TimeoutNow target).

(** ** Log append and commit *)

(** [sort.Slice] of the Go library on a slice of integers, by insertion. *)
Fixpoint insertSorted (x : Z) (l : list Z) : list Z :=
  match l with
  | [] => [x]
  | y :: l' => if x <=? y then x :: l else y :: insertSorted x l'
  end.

Fixpoint sortSlice (l : list Z) : list Z :=
  match l with
  | [] => []
  | x :: l' => insertSorted x (sortSlice l')
  end.

(** [if a[i] > a[j] { swap }] on a slice. *)
Definition swapIfGreater (i j : nat) (a : list Z) : list Z :=
  match a !! i, a !! j with
  | Some x, Some y => if y <? x then <[j := x]> (<[i := y]> a) else a
  | _, _ => a
  end.

Definition sortMatchValues : M unit :=
  modify (fun r =>
    if (length (matched r) =? 3)%nat
    then set_matched
           (swapIfGreater 0 1 (swapIfGreater 1 2 (swapIfGreater 0 1 (matched r))))
           r
    else set_matched (sortSlice (matched r)) r).

(** [for _, v := range r.remotes { r.matched[idx] = v.match; idx++ }];
    [None] is the index out of range. *)
Fixpoint fillMatched (vals : list remote.t) (idx : nat) (arr : list Z)
  : option (list Z) :=
  match vals with
  | [] => Some arr
  | v :: vals' =>
      if (idx <? length arr)%nat
      then fillMatched vals' (S idx) (<[idx := remote.match_ v]> arr)
      else None
  end.

Definition tryCommit : M bool :=
  r <- get ;;
  (if negb (size (remotes r) =? length (matched r))%nat
   then resetMatchValueArray else ret tt) ;;
  r1 <- get ;;
  match fillMatched (map_to_list (remotes r1)).*2 0 (matched r1) with
  | None => panic
  | Some arr =>
      modify (set_matched arr) ;;
      sortMatchValues ;;
      r2 <- get ;;
      let i := Z.of_nat (size (remotes r2)) - quorum r2 in
      if i <? 0 then panic
      else match matched r2 !! Z.to_nat i with
           | None => panic
           | Some q =>
               let res := entryLog.tryCommit (log r2) q (term r2) in
               modify (set_log (snd res)) ;;
               ret (fst res)
           end
  end.

(** [entries[i].Term = r.term; entries[i].Index = lastIndex + 1 + i]. *)
Fixpoint stampEntries (tm lastIndex : Z) (i : nat) (es : list pb.Entry)
  : list pb.Entry :=
  match es with
  | [] => []
  | e :: es' =>
      pb.mkEntry tm (add64 (add64 lastIndex 1) (Z.of_nat i)) (pb.Type_ e)
        (pb.Cmd e)
      :: stampEntries tm lastIndex (S i) es'
  end.

Definition appendEntries (entries : list pb.Entry) : M unit :=
  r <- get ;;
  let lastIndex := entryLog.lastIndex (log r) in
  let entries' := stampEntries (term r) lastIndex 0 entries in
  modify (set_log (entryLog.append (log r) entries')) ;;
  r1 <- get ;;
  rp <- load (inRemotes (nodeID r1)) ;;
  modify (store (inRemotes (nodeID r1))
            (snd (remote.tryUpdate (entryLog.lastIndex (log r1)) rp))) ;;
  r2 <- get ;;
  if isSingleNodeQuorum r2 then _ <- tryCommit ;; ret tt else ret tt.

(** ** State transitions *)

Definition setPendingConfigChange : M unit :=
  modify (set_pendingConfigChange true).
Definition hasPendingConfigChange (r : raft) : bool := pendingConfigChange r.
Definition clearPendingConfigChange : M unit :=
  modify (set_pendingConfigChange false).

Definition freshRemote (r : raft) (id : Z) : remote.t :=
  let rp := remote.fresh (add64 (entryLog.lastIndex (log r)) 1) in
  if id =? nodeID r
  then remote.set_match (entryLog.lastIndex (log r)) rp else rp.

Definition resetRemotes : M unit :=
  modify (fun r =>
    set_remotes (map_imap (fun id _ => Some (freshRemote r id)) (remotes r)) r).

Definition resetObservers : M unit :=
  modify (fun r =>
    set_observers
      (map_imap (fun id _ => Some (freshRemote r id)) (observers r)) r).

Definition reset (tm : Z) : M unit :=
  r <- get ;;
  (if negb (term r =? tm)
   then modify (set_term tm) ;; modify (set_vote NoLeader)
   else ret tt) ;;
  setLeaderID NoLeader ;;
  modify (set_votes ∅) ;;
  modify (set_electionTick 0) ;;
  modify (set_heartbeatTick 0) ;;
  setRandomizedElectionTimeout ;;
  modify (set_readIndex readIndex.newReadIndex) ;;
  clearPendingConfigChange ;;
  abortLeaderTransfer ;;
  resetRemotes ;;
  resetObservers ;;
  resetMatchValueArray.

(** Modelled from the spec: the helper [countConfigChange] is declared in
    another file of the package; it counts the [ConfigChange] entries of a
    batch (section 4.1). *)
Definition isConfigChange (e : pb.Entry) : bool :=
  match pb.Type_ e with pb.ConfigChangeEntry => true | _ => false end.

Definition countConfigChange (es : list pb.Entry) : Z :=
  Z.of_nat (length (List.filter isConfigChange es)).

(** The loop of [getPendingConfigChangeCount]: every round reads a batch
    that is not empty and resumes after its last entry, so the rounds are
    bounded by the number of entries in the log. *)
Fixpoint getPendingConfigChangeCountFrom (fuel : nat) (idx count : Z) : M Z :=
  match fuel with
  | O => diverge
  | S fuel' =>
      r <- get ;;
      match entryLog.entries (log r) idx (maxEntriesToApplySize r) with
      | inr _ => panic
      | inl ents =>
          match last ents with
          | None => ret count
          | Some e =>
              getPendingConfigChangeCountFrom fuel' (add64 (pb.Index e) 1)
                (count + countConfigChange ents)
          end
      end
  end.

Definition getPendingConfigChangeCount : M Z :=
  r <- get ;;
  getPendingConfigChangeCountFrom (S (length (entryLog.ents (log r))))
    (add64 (entryLog.committed (log r)) 1) 0.

Definition preLeaderPromotionHandleConfigChange : M unit :=
  n <- getPendingConfigChangeCount ;;
  if 1 <? n then panic
  else if n =? 1 then setPendingConfigChange
  else ret tt.

Definition becomeObserver (tm leaderID : Z) : M unit :=
  r <- get ;;
  if negb (State_eqb (state r) observer) then panic
  else reset tm ;; setLeaderID leaderID.

Definition becomeFollower (tm leaderID : Z) : M unit :=
  modify (set_state follower) ;;
  reset tm ;;
  setLeaderID leaderID.

Definition becomeCandidate : M unit :=
  r <- get ;;
  if State_eqb (state r) leader then panic
  else if State_eqb (state r) observer then panic
  else
    modify (set_state candidate) ;;
    reset (add64 (term r) 1) ;;
    modify (set_vote (nodeID r)).

Definition becomeLeader : M unit :=
  r <- get ;;
  if State_eqb (state r) follower then panic
  else if State_eqb (state r) observer then panic
  else
    modify (set_state leader) ;;
    reset (term r) ;;
    setLeaderID (nodeID r) ;;
    preLeaderPromotionHandleConfigChange ;;
    appendEntries [pb.mkEntry 0 0 pb.ApplicationEntry []].

(** ** Election *)

Definition handleVoteResp (from : Z) (rejected : bool) : M Z :=
  r <- get ;;
  (match votes r !! from with
   | Some _ => ret tt
   | None => modify (set_votes (<[from := negb rejected]> (votes r)))
   end) ;;
  r1 <- get ;;
  ret (Z.of_nat (length (List.filter (fun v : bool => v)
                           (map_to_list (votes r1)).*2))).

Definition campaign : M unit :=
  becomeCandidate ;;
  r <- get ;;
  let tm := term r in
  _ <- handleVoteResp (nodeID r) false ;;
  r1 <- get ;;
  if isSingleNodeQuorum r1 then becomeLeader
  else
    hint <- (if isLeaderTransferTarget r1
             then modify (set_isLeaderTransferTarget false) ;;
                  ret (nodeID r1)
             else ret 0) ;;
    forM_ (keys (remotes r1))
          (fun k =>
             if k =? nodeID r1 then ret tt
             else
               r2 <- get ;;
               send (pb.with_Hint hint
                       (pb.with_LogTerm (entryLog.lastTerm (log r2))
                          (pb.with_LogIndex (entryLog.lastIndex (log r2))
                             (pb.with_Term tm (pb.msg pb.RequestVote k)))))).

(** ** Membership *)

Definition selfRemoved (r : raft) : bool :=
  if State_eqb (state r) observer
  then negb (bool_decide (is_Some (observers r !! nodeID r)))
  else negb (bool_decide (is_Some (remotes r !! nodeID r))).

Definition deleteRemote (nodeID : Z) : M unit :=
  modify (fun r => set_remotes (delete nodeID (remotes r)) r) ;;
  resetMatchValueArray.

Definition deleteObserver (nodeID : Z) : M unit :=
  modify (fun r => set_observers (delete nodeID (observers r)) r).

Definition setRemote (nodeID match_ next : Z) : M unit :=
  modify (fun r =>
    set_remotes
      (<[nodeID := remote.set_match match_ (remote.fresh next)]> (remotes r))
      r) ;;
  resetMatchValueArray.

Definition setObserver (nodeID match_ next : Z) : M unit :=
  modify (fun r =>
    set_observers
      (<[nodeID := remote.set_match match_ (remote.fresh next)]>
         (observers r))
      r).

Definition addNode (nodeID' : Z) : M unit :=
  clearPendingConfigChange ;;
  r <- get ;;
  match remotes r !! nodeID' with
  | Some _ => ret tt
  | None =>
      match observers r !! nodeID' with
      | Some rp =>
          deleteObserver nodeID' ;;
          modify (fun r => set_remotes (<[nodeID' := rp]> (remotes r)) r) ;;
          if nodeID' =? nodeID r
          then r1 <- get ;; becomeFollower (term r1) (leaderID r1)
          else ret tt
      | None => setRemote nodeID' 0 (add64 (entryLog.lastIndex (log r)) 1)
      end
  end.

Definition addObserver (nodeID' : Z) : M unit :=
  clearPendingConfigChange ;;
  r <- get ;;
  match observers r !! nodeID' with
  | Some _ => ret tt
  | None => setObserver nodeID' 0 (add64 (entryLog.lastIndex (log r)) 1)
  end.

Definition removeNode (nodeID' : Z) : M unit :=
  deleteRemote nodeID' ;;
  deleteObserver nodeID' ;;
  clearPendingConfigChange ;;
  r <- get ;;
  (if leaderTransfering r && (leaderTransferTarget r =? nodeID')
   then abortLeaderTransfer else ret tt) ;;
  if (0 <? size (remotes r))%nat
  then committed <- tryCommit ;;
       if committed then broadcastReplicateMessage else ret tt
  else ret tt.

(** The progress record [restoreRemotes] gives to [id]. *)
Definition restoredProgress (id : Z) : M (Z * Z) :=
  r <- get ;;
  let next := add64 (entryLog.lastIndex (log r)) 1 in
  ret (if id =? nodeID r then sub64 next 1 else 0, next).

Definition restoreRemotes (ss : pb.Snapshot) : M unit :=
  modify (set_remotes ∅) ;;
  forM_ (elements (pb.Addresses (pb.ssMembership ss)))
        (fun id =>
           r <- get ;;
           (match observers r !! id with
            | Some _ => becomeFollower (term r) (leaderID r)
            | None => ret tt
            end) ;;
           mn <- restoredProgress id ;;
           setRemote id (fst mn) (snd mn)) ;;
  modify (set_observers ∅) ;;
  forM_ (elements (pb.Observers (pb.ssMembership ss)))
        (fun id =>
           mn <- restoredProgress id ;;
           setObserver id (fst mn) (snd mn)) ;;
  resetMatchValueArray.

(** ** Handlers shared by several roles *)

Definition handleHeartbeatMessage (m : pb.Message) : M unit :=
  modify (fun r => set_log (entryLog.commitTo (log r) (pb.mCommit m)) r) ;;
  send (pb.with_HintHigh (pb.mHintHigh m)
          (pb.with_Hint (pb.mHint m) (pb.msg pb.HeartbeatResp (pb.mFrom m)))).

Definition handleInstallSnapshotMessage (m : pb.Message) : M unit :=
  let resp := pb.msg pb.ReplicateResp (pb.mFrom m) in
  ok <- restore (pb.mSnapshot m) ;;
  r <- get ;;
  if ok
  then send (pb.with_LogIndex (entryLog.lastIndex (log r)) resp)
  else send (pb.with_LogIndex (entryLog.committed (log r)) resp).

Definition handleReplicateMessage (m : pb.Message) : M unit :=
  let resp := pb.msg pb.ReplicateResp (pb.mFrom m) in
  r <- get ;;
  if pb.mLogIndex m <? entryLog.committed (log r)
  then send (pb.with_LogIndex (entryLog.committed (log r)) resp)
  else if entryLog.matchTerm (log r) (pb.mLogIndex m) (pb.mLogTerm m)
  then
    match entryLog.tryAppend (log r) (pb.mLogIndex m) (pb.mEntries m) with
    | None => panic
    | Some l =>
        let lastIdx :=
          add64 (pb.mLogIndex m) (Z.of_nat (length (pb.mEntries m))) in
        modify (set_log (entryLog.commitTo l (min64 lastIdx (pb.mCommit m)))) ;;
        send (pb.with_LogIndex lastIdx resp)
    end
  else
    send (pb.with_Hint (entryLog.lastIndex (log r))
            (pb.with_LogIndex (pb.mLogIndex m) (pb.with_Reject true resp))).

(** ** Term reconciliation *)

Definition dropRequestVoteFromHighTermNode (r : raft) (m : pb.Message) : bool :=
  if negb (pb.MessageType_eqb (pb.mType m) pb.RequestVote)
     || negb (checkQuorum r) || (pb.mTerm m <=? term r)
  then false
  else if pb.mHint m =? pb.mFrom m then false
  else if negb (leaderID r =? NoLeader)
          && (electionTick r <? electionTimeout r)
  then true
  else false.

Definition onMessageTermNotMatched (m : pb.Message) : M bool :=
  r <- get ;;
  if (pb.mTerm m =? 0) || (pb.mTerm m =? term r) then ret false
  else if dropRequestVoteFromHighTermNode r m then ret true
  else if term r <? pb.mTerm m
  then
    let leaderID := if isLeaderMessage (pb.mType m) then pb.mFrom m
                    else NoLeader in
    (if isObserver r then becomeObserver (pb.mTerm m) leaderID
     else becomeFollower (pb.mTerm m) leaderID) ;;
    ret false
  else if pb.mTerm m <? term r
  then
    (if isLeaderMessage (pb.mType m) && checkQuorum r
     then send (pb.msg pb.NoOP (pb.mFrom m))
     else ret tt) ;;
    ret true
  else ret false.

Definition doubleCheckTermMatched (msgTerm : Z) : M unit :=
  r <- get ;;
  if negb (msgTerm =? 0) && negb (term r =? msgTerm) then panic else ret tt.

Definition hasConfigChangeToApply (r : raft) : bool :=
  match hasNotAppliedConfigChange r with
  | Some f => f (log r) (applied r)
  | None => getApplied r <? entryLog.committed (log r)
  end.

Definition canGrantVote (r : raft) (m : pb.Message) : bool :=
  (vote r =? NoNode) || (vote r =? pb.mFrom m) || (term r <? pb.mTerm m).

(** ** Handlers for nodes in any state *)

Definition handleNodeElection (m : pb.Message) : M unit :=
  r <- get ;;
  if negb (State_eqb (state r) leader)
  then if hasConfigChangeToApply r then ret tt else campaign
  else ret tt.

Definition handleNodeRequestVote (m : pb.Message) : M unit :=
  let resp := pb.msg pb.RequestVoteResp (pb.mFrom m) in
  r <- get ;;
  let canGrant := canGrantVote r m in
  let isUpToDate :=
    entryLog.upToDate (log r) (pb.mLogIndex m) (pb.mLogTerm m) in
  if canGrant && isUpToDate
  then
    modify (set_electionTick 0) ;;
    modify (set_vote (pb.mFrom m)) ;;
    send resp
  else send (pb.with_Reject true resp).

(** ** Handlers used by the leader *)

Definition handleLeaderLeaderHeartbeat (m : pb.Message) : M unit :=
  broadcastHeartbeatMessage.

Definition handleLeaderCheckQuorum (m : pb.Message) : M unit :=
  ok <- leaderHasQuorum ;;
  if negb ok
  then r <- get ;; becomeFollower (term r) NoLeader
  else ret tt.

(** The loop of [handleLeaderPropose] over the proposed entries. *)
Fixpoint guardConfigChanges (es : list pb.Entry) : M (list pb.Entry) :=
  match es with
  | [] => ret []
  | e :: es' =>
      e' <- (if isConfigChange e
             then r <- get ;;
                  setPendingConfigChange ;;
                  ret (if hasPendingConfigChange r
                       then pb.mkEntry 0 0 pb.ApplicationEntry [] else e)
             else ret e) ;;
      rest <- guardConfigChanges es' ;;
      ret (e' :: rest)
  end.

Definition handleLeaderPropose (m : pb.Message) : M unit :=
  r <- get ;;
  if selfRemoved r then ret tt
  else if leaderTransfering r then ret tt
  else
    entries <- guardConfigChanges (pb.mEntries m) ;;
    appendEntries entries ;;
    broadcastReplicateMessage.

Definition hasCommittedEntryAtCurrentTerm : M bool :=
  r <- get ;;
  if term r =? 0 then panic
  else match entryLog.term (log r) (entryLog.committed (log r)) with
       | inl lastCommittedTerm => ret (lastCommittedTerm =? term r)
       | inr ErrCompacted => ret (0 =? term r)
       | inr _ => panic
       end.

Definition clearReadyToRead : M unit := modify (set_readyToRead []).

Definition addReadyToRead (index : Z) (ctx : pb.SystemCtx) : M unit :=
  modify (fun r =>
    set_readyToRead (readyToRead r ++ [pb.mkReadyToRead index ctx]) r).

Definition handleLeaderReadIndex (m : pb.Message) : M unit :=
  let ctx := pb.mkSystemCtx (pb.mHint m) (pb.mHintHigh m) in
  r <- get ;;
  if negb (isSingleNodeQuorum r)
  then
    ok <- hasCommittedEntryAtCurrentTerm ;;
    if negb ok then ret tt
    else
      match readIndex.addRequest (readIndex r)
              (entryLog.committed (log r)) ctx (pb.mFrom m) with
      | None => panic
      | Some q =>
          modify (set_readIndex q) ;;
          broadcastHeartbeatMessageWithHint ctx
      end
  else
    addReadyToRead (entryLog.committed (log r)) ctx ;;
    if negb (pb.mFrom m =? nodeID r)
       && bool_decide (is_Some (observers r !! pb.mFrom m))
    then send (pb.with_Commit (pb.mCommit m)
                 (pb.with_HintHigh (pb.mHintHigh m)
                    (pb.with_Hint (pb.mHint m)
                       (pb.with_LogIndex (entryLog.committed (log r))
                          (pb.msg pb.ReadIndexResp (pb.mFrom m))))))
    else ret tt.

Definition enterRetryState (rp : remoteRef) : M unit :=
  v <- load rp ;;
  if remote.stateType_eqb (remote.state v) remote.remoteReplicate
  then update rp remote.becomeRetry else ret tt.

Definition handleLeaderReplicateResp (m : pb.Message) (rp : remoteRef)
  : M unit :=
  update rp remote.setActive ;;
  if negb (pb.mReject m)
  then
    v <- load rp ;;
    let paused := remote.isPaused v in
    let res := remote.tryUpdate (pb.mLogIndex m) v in
    modify (store rp (snd res)) ;;
    if fst res
    then
      update rp remote.respondedTo ;;
      committed <- tryCommit ;;
      (if committed then broadcastReplicateMessage
       else if paused then sendReplicateMessage (pb.mFrom m)
       else ret tt) ;;
      r <- get ;;
      v2 <- load rp ;;
      if leaderTransfering r && (pb.mFrom m =? leaderTransferTarget r)
         && (entryLog.lastIndex (log r) =? remote.match_ v2)
      then sendTimeoutNowMessage (leaderTransferTarget r)
      else ret tt
    else ret tt
  else
    v <- load rp ;;
    let res := remote.decreaseTo (pb.mLogIndex m) (pb.mHint m) v in
    modify (store rp (snd res)) ;;
    if fst res
    then enterRetryState rp ;; sendReplicateMessage (pb.mFrom m)
    else ret tt.

Definition handleReadIndexLeaderConfirmation (m : pb.Message) : M unit :=
  let ctx := pb.mkSystemCtx (pb.mHint m) (pb.mHintHigh m) in
  r <- get ;;
  match readIndex.confirm (readIndex r) ctx (pb.mFrom m) (quorum r) with
  | None => panic
  | Some (ris, q) =>
      modify (set_readIndex q) ;;
      forM_ ris
        (fun s =>
           r1 <- get ;;
           if (readIndex.from s =? NoNode) || (readIndex.from s =? nodeID r1)
           then addReadyToRead (readIndex.index s) (readIndex.ctx s)
           else send (pb.with_HintHigh (pb.mHintHigh m)
                        (pb.with_Hint (pb.mHint m)
                           (pb.with_LogIndex (readIndex.index s)
                              (pb.msg pb.ReadIndexResp (readIndex.from s))))))
  end.

Definition handleLeaderHeartbeatResp (m : pb.Message) (rp : remoteRef)
  : M unit :=
  update rp remote.setActive ;;
  update rp remote.waitToRetry ;;
  v <- load rp ;;
  r <- get ;;
  (if remote.match_ v <? entryLog.lastIndex (log r)
   then sendReplicateMessage (pb.mFrom m) else ret tt) ;;
  if negb (pb.mHint m =? 0)
  then handleReadIndexLeaderConfirmation m else ret tt.

Definition handleLeaderLeaderTransfer (m : pb.Message) (rp : remoteRef)
  : M unit :=
  let target := pb.mHint m in
  r <- get ;;
  if target =? NoNode then panic
  else if leaderTransfering r then ret tt
  else if nodeID r =? target then ret tt
  else
    modify (set_leaderTransferTarget target) ;;
    modify (set_electionTick 0) ;;
    v <- load rp ;;
    if remote.match_ v =? entryLog.lastIndex (log r)
    then sendTimeoutNowMessage target else ret tt.

Definition handleLeaderSnapshotStatus (m : pb.Message) (rp : remoteRef)
  : M unit :=
  v <- load rp ;;
  if negb (remote.stateType_eqb (remote.state v) remote.remoteSnapshot)
  then ret tt
  else
    (if pb.mReject m then update rp remote.clearPendingSnapshot
     else ret tt) ;;
    update rp remote.becomeWait.

Definition handleLeaderUnreachable (m : pb.Message) (rp : remoteRef)
  : M unit :=
  enterRetryState rp.

(** ** Handlers used by followers and observers *)

Definition handleFollowerPropose (m : pb.Message) : M unit :=
  r <- get ;;
  if leaderID r =? NoLeader then ret tt
  else send (pb.with_To (leaderID r) m).

Definition handleFollowerReplicate (m : pb.Message) : M unit :=
  modify (set_electionTick 0) ;;
  setLeaderID (pb.mFrom m) ;;
  handleReplicateMessage m.

Definition handleFollowerHeartbeat (m : pb.Message) : M unit :=
  modify (set_electionTick 0) ;;
  setLeaderID (pb.mFrom m) ;;
  handleHeartbeatMessage m.

Definition handleFollowerReadIndex (m : pb.Message) : M unit :=
  r <- get ;;
  if leaderID r =? NoLeader then ret tt
  else send (pb.with_To (leaderID r) m).

Definition handleFollowerLeaderTransfer (m : pb.Message) : M unit :=
  r <- get ;;
  if leaderID r =? NoLeader then ret tt
  else send (pb.with_To (leaderID r) m).

Definition handleFollowerReadIndexResp (m : pb.Message) : M unit :=
  let ctx := pb.mkSystemCtx (pb.mHint m) (pb.mHintHigh m) in
  modify (set_electionTick 0) ;;
  setLeaderID (pb.mFrom m) ;;
  addReadyToRead (pb.mLogIndex m) ctx.

Definition handleFollowerInstallSnapshot (m : pb.Message) : M unit :=
  modify (set_electionTick 0) ;;
  setLeaderID (pb.mFrom m) ;;
  handleInstallSnapshotMessage m.

Definition handleObserverReplicate := handleFollowerReplicate.
Definition handleObserverHeartbeat := handleFollowerHeartbeat.
Definition handleObserverSnapshot := handleFollowerInstallSnapshot.
Definition handleObserverPropose := handleFollowerPropose.
Definition handleObserverReadIndex := handleFollowerReadIndex.
Definition handleObserverReadIndexResp := handleFollowerReadIndexResp.

(** ** Handlers used by candidates *)

Definition handleCandidatePropose (m : pb.Message) : M unit := ret tt.

Definition handleCandidateReplicate (m : pb.Message) : M unit :=
  r <- get ;;
  becomeFollower (term r) (pb.mFrom m) ;;
  handleReplicateMessage m.

Definition handleCandidateInstallSnapshot (m : pb.Message) : M unit :=
  r <- get ;;
  becomeFollower (term r) (pb.mFrom m) ;;
  handleInstallSnapshotMessage m.

Definition handleCandidateHeartbeat (m : pb.Message) : M unit :=
  r <- get ;;
  becomeFollower (term r) (pb.mFrom m) ;;
  handleHeartbeatMessage m.

Definition handleCandidateRequestVoteResp (m : pb.Message) : M unit :=
  r <- get ;;
  if bool_decide (is_Some (observers r !! pb.mFrom m)) then ret tt
  else
    count <- handleVoteResp (pb.mFrom m) (pb.mReject m) ;;
    r1 <- get ;;
    if count =? quorum r1
    then becomeLeader ;; broadcastReplicateMessage
    else if Z.of_nat (size (votes r1)) - count =? quorum r1
    then becomeFollower (term r1) NoLeader
    else ret tt.

(** The wrapper [lw]: the handler runs on the progress record of the sender
    and the message is dropped when there is none. *)
Definition lw (f : pb.Message -> remoteRef -> M unit) (nm : pb.Message)
  : M unit :=
  r <- get ;;
  match remotes r !! pb.mFrom nm with
  | Some _ => f nm (inRemotes (pb.mFrom nm))
  | None =>
      match observers r !! pb.mFrom nm with
      | Some _ => f nm (inObservers (pb.mFrom nm))
      | None => ret tt
      end
  end.

(** ** Ticks and the dispatcher

    [tick] calls [Handle] and the handler of [TimeoutNow] calls [tick]; the
    section takes the re-entrant [Handle] as [HandleRec]. *)

Section Dispatch.

Variable HandleRec : pb.Message -> M unit.

Definition nonLeaderTickWith : M unit :=
  r <- get ;;
  if State_eqb (state r) leader then panic
  else
    modify (fun r => set_electionTick (add64 (electionTick r) 1) r) ;;
    r1 <- get ;;
    if isObserver r1 then ret tt
    else if negb (selfRemoved r1) && timeForElection r1
    then
      modify (set_electionTick 0) ;;
      HandleRec (pb.with_From (nodeID r1) (pb.msg pb.Election 0))
    else ret tt.

Definition leaderTickWith : M unit :=
  r <- get ;;
  if negb (State_eqb (state r) leader) then panic
  else
    modify (fun r => set_electionTick (add64 (electionTick r) 1) r) ;;
    r1 <- get ;;
    let timeToAbort := timeToAbortLeaderTransfer r1 in
    (if timeForCheckQuorum r1
     then
       modify (set_electionTick 0) ;;
       if checkQuorum r1
       then HandleRec (pb.with_From (nodeID r1) (pb.msg pb.CheckQuorum 0))
       else ret tt
     else ret tt) ;;
    (if timeToAbort then abortLeaderTransfer else ret tt) ;;
    modify (fun r => set_heartbeatTick (add64 (heartbeatTick r) 1) r) ;;
    r2 <- get ;;
    if timeForHearbeat r2
    then
      modify (set_heartbeatTick 0) ;;
      HandleRec (pb.with_From (nodeID r2) (pb.msg pb.LeaderHeartbeat 0))
    else ret tt.

Definition tickWith : M unit :=
  modify (fun r => set_tickCount (add64 (tickCount r) 1) r) ;;
  r <- get ;;
  if State_eqb (state r) leader then leaderTickWith else nonLeaderTickWith.

Definition handleFollowerTimeoutNow (m : pb.Message) : M unit :=
  modify (fun r => set_electionTick (randomizedElectionTimeout r) r) ;;
  modify (set_isLeaderTransferTarget true) ;;
  tickWith ;;
  r <- get ;;
  if isLeaderTransferTarget r
  then modify (set_isLeaderTransferTarget false) else ret tt.

(** The table filled by [initializeHandlerMap]; [None] is a nil entry. *)
Definition handlers (st : State) (t : pb.MessageType)
  : option (pb.Message -> M unit) :=
  match st, t with
  | candidate, pb.Heartbeat => Some handleCandidateHeartbeat
  | candidate, pb.Propose => Some handleCandidatePropose
  | candidate, pb.Replicate => Some handleCandidateReplicate
  | candidate, pb.InstallSnapshot => Some handleCandidateInstallSnapshot
  | candidate, pb.RequestVoteResp => Some handleCandidateRequestVoteResp
  | candidate, pb.Election => Some handleNodeElection
  | candidate, pb.RequestVote => Some handleNodeRequestVote
  | follower, pb.Propose => Some handleFollowerPropose
  | follower, pb.Replicate => Some handleFollowerReplicate
  | follower, pb.Heartbeat => Some handleFollowerHeartbeat
  | follower, pb.ReadIndex => Some handleFollowerReadIndex
  | follower, pb.LeaderTransfer => Some handleFollowerLeaderTransfer
  | follower, pb.ReadIndexResp => Some handleFollowerReadIndexResp
  | follower, pb.InstallSnapshot => Some handleFollowerInstallSnapshot
  | follower, pb.Election => Some handleNodeElection
  | follower, pb.RequestVote => Some handleNodeRequestVote
  | follower, pb.TimeoutNow => Some handleFollowerTimeoutNow
  | leader, pb.LeaderHeartbeat => Some handleLeaderLeaderHeartbeat
  | leader, pb.CheckQuorum => Some handleLeaderCheckQuorum
  | leader, pb.Propose => Some handleLeaderPropose
  | leader, pb.ReadIndex => Some handleLeaderReadIndex
  | leader, pb.ReplicateResp => Some (lw handleLeaderReplicateResp)
  | leader, pb.HeartbeatResp => Some (lw handleLeaderHeartbeatResp)
  | leader, pb.SnapshotStatus => Some (lw handleLeaderSnapshotStatus)
  | leader, pb.Unreachable => Some (lw handleLeaderUnreachable)
  | leader, pb.LeaderTransfer => Some (lw handleLeaderLeaderTransfer)
  | leader, pb.Election => Some handleNodeElection
  | leader, pb.RequestVote => Some handleNodeRequestVote
  | observer, pb.Heartbeat => Some handleObserverHeartbeat
  | observer, pb.Replicate => Some handleObserverReplicate
  | observer, pb.InstallSnapshot => Some handleObserverSnapshot
  | observer, pb.Propose => Some handleObserverPropose
  | observer, pb.ReadIndex => Some handleObserverReadIndex
  | observer, pb.ReadIndexResp => Some handleObserverReadIndexResp
  | _, _ => None
  end.

Definition defaultHandle (m : pb.Message) : M unit :=
  r <- get ;;
  match handlers (state r) (pb.mType m) with
  | Some f => f m
  | None => ret tt
  end.

Definition HandleWith (m : pb.Message) : M unit :=
  ignored <- onMessageTermNotMatched m ;;
  if negb ignored
  then doubleCheckTermMatched (pb.mTerm m) ;; defaultHandle m
  else ret tt.

End Dispatch.

(** [Handle] at a nesting depth: the host's call is the outermost one. *)
Fixpoint HandleN (depth : nat) (m : pb.Message) : M unit :=
  match depth with
  | O => diverge
  | S d => HandleWith (HandleN d) m
  end.

(** The calls nest twice at most: [Handle(TimeoutNow)] ticks, the tick
    handles a local [Election], [CheckQuorum] or [LeaderHeartbeat], and none
    of their handlers ticks. *)
Definition Handle : pb.Message -> M unit := HandleN 2.

Definition tick : M unit := tickWith Handle.
Definition nonLeaderTick : M unit := nonLeaderTickWith Handle.
Definition leaderTick : M unit := leaderTickWith Handle.

(** ** Construction *)

Module config.

(** Modelled from the spec: the type [config.Config] and its [Validate]
    live in the package config, which is not among the sources.  Section 6
    of the specification lists the fields and requires
    [electionRTT > heartbeatRTT > 0]. *)
Record Config : Type := mkConfig {
  ClusterID : Z;
  NodeID : Z;
  ElectionRTT : Z;
  HeartbeatRTT : Z;
  CheckQuorum : bool;
  IsObserver : bool
}.

Definition Validate (c : Config) : bool :=
  (0 <? HeartbeatRTT c) && (HeartbeatRTT c <? ElectionRTT c).

End config.

(** Modelled from the spec: the interface [ILogDB] is declared outside
    raft.go.  Section 6 of the specification gives it the persisted state
    and membership ([NodeState]) and the stored log with its snapshot. *)
Record ILogDB : Type := mkLogDB {
  dbState : pb.State;
  dbMembership : pb.Membership;
  dbSnapshot : pb.Snapshot;
  dbEntries : list pb.Entry
}.

(** Modelled from the spec: [newEntryLog] is declared in logentry.go.  The
    view starts on the stored log with nothing above the compacted prefix
    known to be committed or applied. *)
Definition newEntryLog (logdb : ILogDB) : entryLog.t :=
  entryLog.mk (pb.ssIndex (dbSnapshot logdb)) (pb.ssTerm (dbSnapshot logdb))
    (pb.ssMembership (dbSnapshot logdb)) (dbEntries logdb)
    (pb.ssIndex (dbSnapshot logdb)) (pb.ssIndex (dbSnapshot logdb)).

(** The environment of the process: the settings and the random source. *)
Record Env : Type := mkEnv {
  envMaxEntrySize : Z;
  envMaxEntriesToApplySize : Z;
  envRand : nat -> Z
}.

Definition newRaft (env : Env) (c : config.Config) (logdb : ILogDB)
  : outcome unit :=
  if negb (config.Validate c) then Panic
  else
    let r0 :=
      mkRaft 0 (config.NodeID c) (config.ClusterID c) 0 0
        (newEntryLog logdb)
        (gset_to_gmap (remote.fresh 1) (pb.Addresses (dbMembership logdb)))
        (gset_to_gmap (remote.fresh 1) (pb.Observers (dbMembership logdb)))
        follower ∅ [] NoLeader NoNode false false readIndex.newReadIndex []
        (config.CheckQuorum c) 0 0 0 (config.HeartbeatRTT c)
        (config.ElectionRTT c) 0 [] None (envMaxEntrySize env)
        (envMaxEntriesToApplySize env) (envRand env) O in
    (resetMatchValueArray ;;
     (if negb (pb.IsEmptyState (dbState logdb))
      then loadState (dbState logdb) else ret tt) ;;
     if config.IsObserver c
     then modify (set_state observer) ;;
          r <- get ;; becomeObserver (term r) NoLeader
     else r <- get ;; becomeFollower (term r) NoLeader) r0.

(** ** Views of the node for its host *)

Definition nodes (r : raft) : list Z :=
  sortSlice (keys (remotes r) ++ keys (observers r)).

Record Status : Type := mkStatus {
  stNodeID : Z;
  stClusterID : Z;
  stApplied : Z;
  stLeaderID : Z;
  stNodeState : State;
  stState : pb.State
}.

Definition IsLeader (s : Status) : bool := State_eqb (stNodeState s) leader.
Definition IsFollower (s : Status) : bool := State_eqb (stNodeState s) follower.

Definition getLocalStatus (r : raft) : Status :=
  mkStatus (nodeID r) (clusterID r) (entryLog.applied (log r)) (leaderID r)
    (state r) (raftState r).

Definition setTestPeers (peers : list Z) : M unit :=
  r <- get ;;
  if (size (remotes r) =? 0)%nat
  then forM_ peers
         (fun p => modify (fun r =>
                     set_remotes (<[p := remote.fresh 1]> (remotes r)) r))
  else ret tt.


(** * Notions used to state the properties *)

(** The part of the state that the term and vote discipline is about. *)
Definition tvn (r : raft) : Z * Z * Z := (term r, vote r, nodeID r).

(** A computation keeps the projection [f] of the state at [x]. *)
Definition keepsOf {X A : Type} (f : raft -> X) (x : X) (c : M A) : Prop :=
  forall r a r', f r = x -> c r = Ok a r' -> f r' = x.

(** A computation keeps the term, the vote and the identity at [x]. *)
Abbreviation keeps := (keepsOf tvn).

(** The result of a campaign on the triple. *)
Definition campaigned (r r' : raft) : Prop :=
  tvn r' = (add64 (term r) 1, nodeID r, nodeID r).

(** From the triple [x], a computation ends in a triple that satisfies [Q]. *)
Definition steps {A : Type} (x : Z * Z * Z) (Q : Z * Z * Z -> Prop)
    (c : M A) : Prop :=
  forall r a r', tvn r = x -> c r = Ok a r' -> Q (tvn r').

(** The triple after a campaign started from [x]. *)
Definition campaignFrom (x : Z * Z * Z) : Z * Z * Z :=
  (add64 (fst (fst x)) 1, snd x, snd x).

(** What a local message or a tick may do: nothing, or a campaign. *)
Definition localEffect (x y : Z * Z * Z) : Prop :=
  y = x \/ y = campaignFrom x.

(** What a message [m] may do: first the step down to a higher term, which
    clears the vote; then nothing more, or a campaign on [Election] and
    [TimeoutNow], or a vote for the sender of a [RequestVote]. *)
Definition handleEffect (m : pb.Message) (x y : Z * Z * Z) : Prop :=
  exists t0 v0,
    ((t0 = fst (fst x) /\ v0 = snd (fst x))
     \/ (pb.mTerm m <> 0 /\ fst (fst x) < pb.mTerm m
         /\ t0 = pb.mTerm m /\ v0 = NoNode))
    /\ (y = (t0, v0, snd x)
        \/ (y = campaignFrom (t0, v0, snd x)
            /\ (pb.mType m = pb.Election \/ pb.mType m = pb.TimeoutNow))
        \/ (y = (t0, pb.mFrom m, snd x) /\ pb.mType m = pb.RequestVote)).

(** What the handler of [m] may do, after the term has been reconciled. *)
Definition handlerEffect (m : pb.Message) (x y : Z * Z * Z) : Prop :=
  y = x
  \/ (y = campaignFrom x
      /\ (pb.mType m = pb.Election \/ pb.mType m = pb.TimeoutNow))
  \/ (y = (fst (fst x), pb.mFrom m, snd x) /\ pb.mType m = pb.RequestVote).

(** The inputs of the state machine: a tick of the logical clock or an
    inbound message. *)
Inductive input : Type := Tick | Msg (m : pb.Message).

Definition step (i : input) : M unit :=
  match i with Tick => tick | Msg m => Handle m end.

Definition inputTerm (i : input) : Z :=
  match i with Tick => 0 | Msg m => pb.mTerm m end.

(** The vote that a step may leave behind when it has raised the term. *)
Definition voteAfterRaise (i : input) (r r' : raft) : Prop :=
  match i with
  | Tick => vote r' = nodeID r
  | Msg m =>
      vote r' = NoNode
      \/ (vote r' = nodeID r
          /\ (pb.mType m = pb.Election \/ pb.mType m = pb.TimeoutNow))
      \/ (vote r' = pb.mFrom m /\ pb.mType m = pb.RequestVote)
  end.

(** The conditions of leader stickiness, as the claim lists them. *)
Definition sticky (r : raft) (m : pb.Message) : Prop :=
  checkQuorum r = true /\ leaderID r <> NoLeader
  /\ electionTick r < electionTimeout r /\ pb.mHint m <> pb.mFrom m.

(** The reply to a vote request. *)
Definition voteResp (r : raft) (m : pb.Message) (reject : bool) : pb.Message :=
  pb.mkMessage pb.RequestVoteResp (pb.mFrom m) (nodeID r) (term r) 0 0 0
    reject 0 0 [] pb.emptySnapshot.

(** The term the log has at an index, 0 when the entry is compacted. *)
Definition termAt (l : entryLog.t) (i : Z) : Z :=
  match entryLog.term l i with
  | inl t => t
  | inr _ => 0
  end.

(** The term of the entry at the committed index. *)
Definition committedTerm (r : raft) : Z :=
  termAt (log r) (entryLog.committed (log r)).

(** The [match] values of the voters, in the order a [range] visits them. *)
Definition matchValues (r : raft) : list Z :=
  remote.match_ <$> (map_to_list (remotes r)).*2.

(** The client context a read request carries. *)
Definition readCtx (m : pb.Message) : pb.SystemCtx :=
  pb.mkSystemCtx (pb.mHint m) (pb.mHintHigh m).

(** Whether a committed entry that is not applied yet is a config change,
    which is how the claim words the refusal to campaign. *)
Definition hasUnappliedConfigChangeEntry (r : raft) : bool :=
  existsb (fun e => (applied r <? pb.Index e)
                    && (pb.Index e <=? entryLog.committed (log r))
                    && isConfigChange e)
          (entryLog.ents (log r)).

(** The [Heartbeat] the leader sends to the peer [id] with progress [rp]. *)
Definition heartbeatMsg (r : raft) (ctx : pb.SystemCtx) (p : Z * remote.t)
  : pb.Message :=
  pb.mkMessage pb.Heartbeat (fst p) (nodeID r) (term r) 0 0
    (min64 (remote.match_ (snd p)) (entryLog.committed (log r))) false
    (pb.Low ctx) (pb.High ctx) [] pb.emptySnapshot.

(** The [ReplicateResp] a node sends back to the sender of [m]. *)
Definition replicateResp (r : raft) (m : pb.Message) (index : Z) : pb.Message :=
  pb.mkMessage pb.ReplicateResp (pb.mFrom m) (nodeID r) (term r) 0 index 0
    false 0 0 [] pb.emptySnapshot.

(** The state with one more message queued. *)
Definition queued (ms : list pb.Message) (r : raft) : raft :=
  set_msgs (msgs r ++ ms) r.

(** What a follower does first on a message from the leader. *)
Definition heardFrom (m : pb.Message) (r : raft) : raft :=
  set_leaderID (pb.mFrom m) (set_electionTick 0 r).

(** Ticking [n] times. *)
Fixpoint ticks (n : nat) : M unit :=
  match n with
  | O => ret tt
  | S k => tick ;; ticks k
  end.

(** The single-voter scenario: node 1, election RTT 10, heartbeat RTT 1,
    voters [{1}], nothing stored yet. *)
Definition singleConfig (cid : Z) (cq : bool) : config.Config :=
  config.mkConfig cid 1 10 1 cq false.

Definition singleLogDB : ILogDB :=
  mkLogDB (pb.mkState 0 0 0) (pb.mkMembership {[1]} ∅) pb.emptySnapshot [].

(** The node of the scenario right after construction, with randomized
    election timeout [T]. *)
Definition singleFresh (env : Env) (cid : Z) (cq : bool) (T : Z) : raft :=
  mkRaft 0 1 cid 0 0 (entryLog.mk 0 0 pb.emptyMembership [] 0 0)
    {[1 := remote.mk 0 1 0 remote.remoteRetry false]} ∅ follower ∅ [] NoLeader
    NoNode false false readIndex.newReadIndex [] cq 0 0 0 1 10 T [0] None
    (envMaxEntrySize env) (envMaxEntriesToApplySize env) (envRand env) 1%nat.

(** The node is a follower at term 0 with an empty log. *)
Definition stillFollower (o : outcome unit) : bool :=
  match o with
  | Ok _ r =>
      State_eqb (state r) follower && (term r =? 0)
      && match entryLog.ents (log r) with [] => true | _ => false end
  | _ => false
  end.

(** The node is the leader at term 1 and its log is the single no-op
    [Application] entry at index 1 and term 1, committed. *)
Definition leaderWithNoop (o : outcome unit) : bool :=
  match o with
  | Ok _ r =>
      State_eqb (state r) leader && (term r =? 1)
      && match entryLog.ents (log r) with
         | [e] =>
             (pb.Term e =? 1) && (pb.Index e =? 1)
             && negb (isConfigChange e)
             && match pb.Cmd e with [] => true | _ => false end
         | _ => false
         end
      && (entryLog.committed (log r) =? 1)
  | _ => false
  end.

(** ** Concrete nodes used as examples *)

Definition exampleEnv (v : Z) : Env := mkEnv 1024 1024 (fun _ => v).

(** A log holding the entries [es] above an empty snapshot. *)
Definition exampleLog (es : list pb.Entry) (committed : Z) : entryLog.t :=
  entryLog.mk 0 0 pb.emptyMembership es committed 0.

(** A node of cluster 1 with election timeout 10 and heartbeat timeout 1. *)
Definition exampleNode (id : Z) (st : State) (tm vt : Z) (lg : entryLog.t)
    (voters : gmap Z remote.t) (lead : Z) (cq : bool) (etick : Z) : raft :=
  mkRaft 0 id 1 tm vt lg voters ∅ st ∅ [] lead NoNode false false
    readIndex.newReadIndex [] cq 0 etick 0 1 10 10
    (replicate (size voters) 0) None 1024 1024 (fun _ => 0) 0%nat.

(** One entry of term 1 at index 1, committed and not applied yet. *)
Definition oneEntryLog : entryLog.t :=
  exampleLog [pb.mkEntry 1 1 pb.ApplicationEntry []] 1.

(** A leader at term 2 that is its own quorum and has nothing of term 2
    committed. *)
Definition loneLeader : raft :=
  exampleNode 1 leader 2 1 oneEntryLog {[1 := remote.mk 1 2 0 remote.remoteRetry true]}
    1 false 0.

Definition threeVoters : gmap Z remote.t :=
  {[1 := remote.mk 1 2 0 remote.remoteRetry true;
    2 := remote.mk 1 2 0 remote.remoteReplicate true;
    3 := remote.mk 0 1 0 remote.remoteRetry false]}.

(** A leader of three voters at term 2 with nothing of term 2 committed. *)
Definition trioLeader : raft :=
  exampleNode 1 leader 2 1 oneEntryLog threeVoters 1 false 0.

(** A follower of node 1 at term 5 that heard from it 3 ticks ago, with
    check-quorum enabled. *)
Definition calmFollower : raft :=
  exampleNode 2 follower 5 1 oneEntryLog threeVoters 1 true 3.

(** A [RequestVote] of node 3 for term 6. *)
Definition voteRequest : pb.Message :=
  pb.mkMessage pb.RequestVote 2 3 6 1 1 0 false 0 0 [] pb.emptySnapshot.

(** A local read request. *)
Definition readRequest : pb.Message :=
  pb.mkMessage pb.ReadIndex 1 1 0 0 0 0 false 7 0 [] pb.emptySnapshot.

(** A local proposal of one entry. *)
Definition proposal : pb.Message :=
  pb.mkMessage pb.Propose 1 1 0 0 0 0 false 0 0
    [pb.mkEntry 0 0 pb.ApplicationEntry [1]] pb.emptySnapshot.

(** The leader of three voters while it hands leadership over to node 2. *)
Definition transferringLeader : raft :=
  set_leaderTransferTarget 2 trioLeader.

(** A snapshot at index 4 and term 2 for the voters 1, 2 and 3. *)
Definition snapshotMsg : pb.Message :=
  pb.mkMessage pb.InstallSnapshot 2 1 5 0 0 0 false 0 0 []
    (pb.mkSnapshot 4 2 (pb.mkMembership {[1; 2; 3]} ∅)).

(** The stored state of a node whose term counter is at its maximum. *)
Definition lastTermLogDB : ILogDB :=
  mkLogDB (pb.mkState MaxUint64 0 0) (pb.mkMembership {[1]} ∅)
    pb.emptySnapshot [].

(** The state a computation ends in, [r] itself if it does not return. *)
Definition stateAfter {A : Type} (c : M A) (r : raft) : raft :=
  match c r with Ok _ r' => r' | _ => r end.

(** The [RequestVote] a candidate sends to the voter [k]. *)
Definition requestVoteMsg (r : raft) (hint k : Z) : pb.Message :=
  pb.mkMessage pb.RequestVote k (nodeID r) (term r)
    (entryLog.lastTerm (log r)) (entryLog.lastIndex (log r)) 0 false hint 0 []
    pb.emptySnapshot.

(** The entries of a log carry their own positions. *)
Definition indexed (l : entryLog.t) : Prop :=
  forall (i : nat) (e : pb.Entry),
    entryLog.ents l !! i = Some e ->
    pb.Index e = entryLog.firstIndex l + Z.of_nat i.

(** ** Notions used for the further properties *)

(** A computation preserves the property [P] of the state. *)
Definition preserves {A : Type} (P : raft -> Prop) (c : M A) : Prop :=
  forall r a r', P r -> c r = Ok a r' -> P r'.

(** What construction fixes for the life of the node. *)
Definition configOf (r : raft)
  : Z * Z * bool * Z * Z * Z * Z :=
  (nodeID r, clusterID r, checkQuorum r, electionTimeout r,
   heartbeatTimeout r, maxEntrySize r, maxEntriesToApplySize r).

(** The output of the node only grows from [r] to [r']: messages are added
    at the end of the buffer, stamped with the id of the node, and so are
    the ready-to-read records. *)
Definition outputGrows (r r' : raft) : Prop :=
  nodeID r' = nodeID r
  /\ (exists new, msgs r' = msgs r ++ new
                  /\ Forall (fun m => pb.mFrom m = nodeID r) new)
  /\ readyToRead r `prefix_of` readyToRead r'.

(** The [NoOP] by which a node tells the sender of a stale leader message
    what the term is. *)
Definition noopReply (r : raft) (m : pb.Message) : pb.Message :=
  pb.mkMessage pb.NoOP (pb.mFrom m) (nodeID r) (term r) 0 0 0 false 0 0 []
    pb.emptySnapshot.

(** Whether the dispatch table has a handler for a role and a message
    type. *)
Definition hasHandler (st : State) (t : pb.MessageType) : bool :=
  match handlers (fun _ => ret tt) st t with
  | Some _ => true
  | None => false
  end.

(** The state after the clock of a node that is not the leader has moved
    by one tick. *)
Definition clockAdvanced (r : raft) : raft :=
  set_electionTick (add64 (electionTick r) 1)
    (set_tickCount (add64 (tickCount r) 1) r).

(** A heartbeat of node 1 that reaches a leader at its own term 2. *)
Definition strayHeartbeat : pb.Message :=
  pb.mkMessage pb.Heartbeat 1 3 2 0 0 0 false 0 0 [] pb.emptySnapshot.

(** A heartbeat of an old leader at term 3. *)
Definition staleHeartbeat : pb.Message :=
  pb.mkMessage pb.Heartbeat 2 3 3 0 0 1 false 0 0 [] pb.emptySnapshot.

(** The number of granted votes in a tally. *)
Definition grantedVotes (v : gmap Z bool) : Z :=
  Z.of_nat (length (List.filter (fun b : bool => b) (map_to_list v).*2)).

(** The tally after a response of [from]: the first response of a node is
    the one that counts. *)
Definition recordVote (from : Z) (rejected : bool) (v : gmap Z bool)
  : gmap Z bool :=
  match v !! from with
  | Some _ => v
  | None => <[from := negb rejected]> v
  end.

(** A candidate of three voters at term 3 that has voted for itself. *)
Definition hopefulCandidate : raft :=
  set_votes {[1 := true]}
    (exampleNode 1 candidate 3 1 oneEntryLog threeVoters NoLeader false 0).

(** The vote node 2 grants to the candidate. *)
Definition voteGranted : pb.Message :=
  pb.mkMessage pb.RequestVoteResp 1 2 3 0 0 0 false 0 0 [] pb.emptySnapshot.

(** A heartbeat of node 3, the leader of term 3. *)
Definition leaderHeartbeat : pb.Message :=
  pb.mkMessage pb.Heartbeat 1 3 3 0 0 1 false 0 0 [] pb.emptySnapshot.

(** Whether the voter [k] counts for the leader's quorum check: the leader
    itself does, and so does a voter whose progress record is marked
    active. *)
Definition countsAsActive (r : raft) (k : Z) : bool :=
  (k =? nodeID r)
  || match remotes r !! k with
     | Some rp => remote.isActive rp
     | None => false
     end.

(** The number of voters that count in [l]. *)
Definition activeAmong (r : raft) (l : list Z) : Z :=
  Z.of_nat (length (List.filter (countsAsActive r) l)).

(** The number of voters that count for the quorum check. *)
Definition activeVoters (r : raft) : Z := activeAmong r (keys (remotes r)).

(** The state after the clock of a leader has moved by one tick. *)
Definition leaderClockAdvanced (r : raft) : raft :=
  set_heartbeatTick (add64 (heartbeatTick r) 1)
    (set_electionTick (add64 (electionTick r) 1)
       (set_tickCount (add64 (tickCount r) 1) r)).

(** A [RequestVote] of node 3 for term 5, the term the follower is in. *)
Definition rivalRequest : pb.Message :=
  pb.mkMessage pb.RequestVote 2 3 5 1 1 0 false 0 0 [] pb.emptySnapshot.

(** The [TimeoutNow] by which node 1, the leader of term 5, hands over. *)
Definition timeoutNow : pb.Message :=
  pb.mkMessage pb.TimeoutNow 2 1 5 0 0 0 false 0 0 [] pb.emptySnapshot.

(** A heartbeat of node 1 as the leader of term 6. *)
Definition newerHeartbeat : pb.Message :=
  pb.mkMessage pb.Heartbeat 2 1 6 0 0 1 false 0 0 [] pb.emptySnapshot.

(** A response of node 9, which is no member, at term 2. *)
Definition strangerResp : pb.Message :=
  pb.mkMessage pb.ReplicateResp 1 9 2 0 1 0 false 0 0 [] pb.emptySnapshot.

(** A leader of three voters at term 2 that sends a heartbeat every third
    tick. *)
Definition steadyLeader : raft :=
  mkRaft 0 1 1 2 1 oneEntryLog threeVoters ∅ leader ∅ [] 1 NoNode false false
    readIndex.newReadIndex [] false 0 0 0 3 10 10 [0; 0; 0] None 1024 1024
    (fun _ => 0) 0%nat.


(** * Properties *)

(** ** Reasoning about computations *)

Lemma bind_Ok {A B : Type} (c : M A) (k : A -> M B) (r : raft) (b : B)
    (r' : raft) :
  bind c k r = Ok b r' <-> exists a r1, c r = Ok a r1 /\ k a r1 = Ok b r'.
Proof.
  unfold bind. split.
  - destruct (c r) as [a r1| |]; try discriminate. eauto.
  - intros (a & r1 & -> & H). exact H.
Qed.

Section KeepsRules.

Context {X : Type} (f : raft -> X).

Lemma keeps_ret {A : Type} x (a : A) : keepsOf f x (ret a).
Proof. intros r b r' H E. unfold ret in E. congruence. Qed.

Lemma keeps_panic {A : Type} x : keepsOf f x (@panic A).
Proof. intros r b r' H E. discriminate. Qed.

Lemma keeps_diverge {A : Type} x : keepsOf f x (@diverge A).
Proof. intros r b r' H E. discriminate. Qed.

Lemma keeps_bind {A B : Type} x (c : M A) (k : A -> M B) :
  keepsOf f x c -> (forall a, keepsOf f x (k a)) -> keepsOf f x (bind c k).
Proof.
  intros Hc Hk r b r' H E. apply bind_Ok in E as (a & r1 & E1 & E2).
  eapply Hk; [|exact E2]. eapply Hc; eauto.
Qed.

Lemma keeps_get {B : Type} x (k : raft -> M B) :
  (forall r0, f r0 = x -> keepsOf f x (k r0)) -> keepsOf f x (bind get k).
Proof.
  intros Hk r b r' H E. unfold bind, get in E. eapply Hk; eauto.
Qed.

Lemma keeps_modify x (g : raft -> raft) :
  (forall r, f (g r) = f r) -> keepsOf f x (modify g).
Proof.
  intros Hg r b r' H E. unfold modify in E. injection E as _ <-.
  rewrite Hg. exact H.
Qed.

Lemma keeps_forM {K : Type} x (l : list K) (h : K -> M unit) :
  (forall k, keepsOf f x (h k)) -> keepsOf f x (forM_ l h).
Proof.
  intros Hh. induction l as [|k l IH]; simpl.
  - apply keeps_ret.
  - apply keeps_bind; auto.
Qed.

Lemma keeps_foldM {K A : Type} x (h : A -> K -> M A) (l : list K) (a : A) :
  (forall a k, keepsOf f x (h a k)) -> keepsOf f x (foldM h l a).
Proof.
  intros Hh. revert a. induction l as [|k l IH]; intros a; simpl.
  - apply keeps_ret.
  - apply keeps_bind; auto.
Qed.

End KeepsRules.

Lemma tvn_store p v r : tvn (store p v r) = tvn r.
Proof. destruct p; reflexivity. Qed.

Lemma state_store p v r : state (store p v r) = state r.
Proof. destruct p; reflexivity. Qed.

Lemma keeps_load {X : Type} (f : raft -> X) x p : keepsOf f x (load p).
Proof.
  intros r a r' H E. unfold load in E.
  destruct (deref p r); congruence.
Qed.

Create HintDb keeps.
#[local] Hint Resolve keeps_ret keeps_panic keeps_diverge keeps_load : keeps.

(** One step of a proof that a computation keeps the triple: follow the
    structure of the program. *)
Ltac keeps_step :=
  match goal with
  | |- keepsOf _ _ (bind get _) => apply keeps_get; intros ? ?
  | |- keepsOf _ _ (bind _ _) => apply keeps_bind; [|intros ?]
  | |- keepsOf _ _ (modify _) =>
      apply keeps_modify; intros ?;
      first [reflexivity | apply tvn_store | apply state_store]
  | |- keepsOf _ _ (forM_ _ _) => apply keeps_forM; intros ?
  | |- keepsOf _ _ (foldM _ _ _) => apply keeps_foldM; intros ? ?
  | |- keepsOf _ _ (if ?b then _ else _) => destruct b
  | |- keepsOf _ _ (match ?o with _ => _ end) => destruct o
  | |- keepsOf _ _ (let _ := _ in _) => cbv zeta
  | |- keepsOf _ _ _ => solve [eauto with keeps]
  end.

Ltac keeps_auto := repeat keeps_step.

Lemma keeps_update x p f : keeps x (update p f).
Proof. unfold update. keeps_auto. Qed.
#[local] Hint Resolve keeps_update : keeps.

Lemma keeps_setLeaderID x l : keeps x (setLeaderID l).
Proof. unfold setLeaderID. keeps_auto. Qed.
Lemma keeps_resetMatchValueArray x : keeps x resetMatchValueArray.
Proof. unfold resetMatchValueArray. keeps_auto. Qed.
Lemma keeps_abortLeaderTransfer x : keeps x abortLeaderTransfer.
Proof. unfold abortLeaderTransfer. keeps_auto. Qed.
Lemma keeps_leaderHasQuorum x : keeps x leaderHasQuorum.
Proof. unfold leaderHasQuorum. keeps_auto. Qed.
Lemma keeps_restore x ss : keeps x (restore ss).
Proof. unfold restore. keeps_auto. Qed.
Lemma keeps_setRandomizedElectionTimeout x : keeps x setRandomizedElectionTimeout.
Proof. unfold setRandomizedElectionTimeout. keeps_auto. Qed.
Lemma keeps_finalizeMessageTerm x m : keeps x (finalizeMessageTerm m).
Proof. unfold finalizeMessageTerm. keeps_auto. Qed.
#[local] Hint Resolve keeps_setLeaderID keeps_resetMatchValueArray
  keeps_abortLeaderTransfer keeps_leaderHasQuorum keeps_restore
  keeps_setRandomizedElectionTimeout keeps_finalizeMessageTerm : keeps.
Lemma keeps_send x m : keeps x (send m).
Proof. unfold send. keeps_auto. Qed.
#[local] Hint Resolve keeps_send : keeps.
Lemma keeps_makeInstallSnapshotMessage x to m :
  keeps x (makeInstallSnapshotMessage to m).
Proof. unfold makeInstallSnapshotMessage. keeps_auto. Qed.
Lemma keeps_makeReplicateMessage x to n s : keeps x (makeReplicateMessage to n s).
Proof. unfold makeReplicateMessage. keeps_auto. Qed.
#[local] Hint Resolve keeps_makeInstallSnapshotMessage
  keeps_makeReplicateMessage : keeps.
Lemma keeps_sendReplicateMessage x to : keeps x (sendReplicateMessage to).
Proof. unfold sendReplicateMessage. keeps_auto. Qed.
#[local] Hint Resolve keeps_sendReplicateMessage : keeps.
Lemma keeps_broadcastReplicateMessage x : keeps x broadcastReplicateMessage.
Proof. unfold broadcastReplicateMessage. keeps_auto. Qed.
Lemma keeps_sendHeartbeatMessage x to h o : keeps x (sendHeartbeatMessage to h o).
Proof. unfold sendHeartbeatMessage. keeps_auto. Qed.
#[local] Hint Resolve keeps_broadcastReplicateMessage
  keeps_sendHeartbeatMessage : keeps.
Lemma keeps_broadcastHeartbeatMessageWithHint x c :
  keeps x (broadcastHeartbeatMessageWithHint c).
Proof. unfold broadcastHeartbeatMessageWithHint. keeps_auto. Qed.
#[local] Hint Resolve keeps_broadcastHeartbeatMessageWithHint : keeps.
Lemma keeps_broadcastHeartbeatMessage x : keeps x broadcastHeartbeatMessage.
Proof. unfold broadcastHeartbeatMessage. keeps_auto. Qed.
Lemma keeps_sendTimeoutNowMessage x t : keeps x (sendTimeoutNowMessage t).
Proof. unfold sendTimeoutNowMessage. keeps_auto. Qed.
Lemma keeps_sortMatchValues x : keeps x sortMatchValues.
Proof. unfold sortMatchValues. apply keeps_modify. intros r. destruct (_ =? _)%nat; reflexivity. Qed.
#[local] Hint Resolve keeps_broadcastHeartbeatMessage
  keeps_sendTimeoutNowMessage keeps_sortMatchValues : keeps.
Lemma keeps_tryCommit x : keeps x tryCommit.
Proof. unfold tryCommit. keeps_auto. Qed.
#[local] Hint Resolve keeps_tryCommit : keeps.
Lemma keeps_appendEntries x es : keeps x (appendEntries es).
Proof. unfold appendEntries. keeps_auto. Qed.
#[local] Hint Resolve keeps_appendEntries : keeps.

Lemma keeps_setPendingConfigChange x : keeps x setPendingConfigChange.
Proof. unfold setPendingConfigChange. keeps_auto. Qed.
Lemma keeps_clearPendingConfigChange x : keeps x clearPendingConfigChange.
Proof. unfold clearPendingConfigChange. keeps_auto. Qed.
Lemma keeps_resetRemotes x : keeps x resetRemotes.
Proof. unfold resetRemotes. keeps_auto. Qed.
Lemma keeps_resetObservers x : keeps x resetObservers.
Proof. unfold resetObservers. keeps_auto. Qed.
#[local] Hint Resolve keeps_setPendingConfigChange
  keeps_clearPendingConfigChange keeps_resetRemotes keeps_resetObservers
  : keeps.

Lemma keeps_getPendingConfigChangeCountFrom x fuel idx count :
  keeps x (getPendingConfigChangeCountFrom fuel idx count).
Proof.
  revert idx count. induction fuel as [|fuel IH]; intros idx count; simpl.
  - apply keeps_diverge.
  - keeps_auto.
Qed.
#[local] Hint Resolve keeps_getPendingConfigChangeCountFrom : keeps.

Lemma keeps_preLeaderPromotionHandleConfigChange x :
  keeps x preLeaderPromotionHandleConfigChange.
Proof.
  unfold preLeaderPromotionHandleConfigChange, getPendingConfigChangeCount.
  keeps_auto.
Qed.
#[local] Hint Resolve keeps_preLeaderPromotionHandleConfigChange : keeps.

(** [reset] moves the term to its argument and clears the vote exactly when
    the term changes. *)
Lemma reset_tvn tm r r' :
  reset tm r = Ok tt r' ->
  tvn r' = (tm, if term r =? tm then vote r else NoLeader, nodeID r).
Proof.
  unfold reset. intros E. unfold bind at 1, get at 1 in E.
  apply bind_Ok in E as (u & r1 & E1 & E2).
  assert (H1 : tvn r1 = (tm, if term r =? tm then vote r else NoLeader, nodeID r)).
  { destruct (term r =? tm) eqn:Heq; simpl in E1.
    - apply Z.eqb_eq in Heq. unfold ret in E1. injection E1 as _ <-.
      unfold tvn. congruence.
    - unfold bind, modify in E1. injection E1 as _ <-. reflexivity. }
  revert E2. generalize dependent r1. intros r1 _ H1.
  assert (K : keeps (tm, if term r =? tm then vote r else NoLeader, nodeID r)
                (setLeaderID NoLeader ;; modify (set_votes ∅) ;;
                 modify (set_electionTick 0) ;; modify (set_heartbeatTick 0) ;;
                 setRandomizedElectionTimeout ;;
                 modify (set_readIndex readIndex.newReadIndex) ;;
                 clearPendingConfigChange ;; abortLeaderTransfer ;;
                 resetRemotes ;; resetObservers ;; resetMatchValueArray)).
  { keeps_auto. }
  intros E2. eapply K; eauto.
Qed.

Lemma keeps_reset x : keeps x (reset (fst (fst x))).
Proof.
  intros r [] r' H E. apply reset_tvn in E. rewrite E, <- H. simpl.
  rewrite Z.eqb_refl. reflexivity.
Qed.

Lemma keeps_reset_at x tm : fst (fst x) = tm -> keeps x (reset tm).
Proof. intros <-. apply keeps_reset. Qed.

Lemma keeps_becomeFollower x tm l :
  fst (fst x) = tm -> keeps x (becomeFollower tm l).
Proof.
  intros Hx. unfold becomeFollower. keeps_auto. apply keeps_reset_at, Hx.
Qed.

Lemma keeps_becomeObserver x tm l :
  fst (fst x) = tm -> keeps x (becomeObserver tm l).
Proof.
  intros Hx. unfold becomeObserver. keeps_auto. apply keeps_reset_at, Hx.
Qed.

Lemma keeps_becomeLeader x : keeps x becomeLeader.
Proof.
  unfold becomeLeader. keeps_auto. apply keeps_reset_at.
  match goal with H : tvn _ = x |- _ => rewrite <- H end. reflexivity.
Qed.
#[local] Hint Resolve keeps_becomeLeader : keeps.

Lemma keeps_handleVoteResp x from rej : keeps x (handleVoteResp from rej).
Proof. unfold handleVoteResp. keeps_auto. Qed.
#[local] Hint Resolve keeps_handleVoteResp : keeps.

Lemma becomeCandidate_tvn r r' :
  becomeCandidate r = Ok tt r' ->
  tvn r' = (add64 (term r) 1, nodeID r, nodeID r).
Proof.
  unfold becomeCandidate. unfold bind at 1, get at 1.
  destruct (State_eqb (state r) leader); [discriminate|].
  destruct (State_eqb (state r) observer); [discriminate|].
  intros E. apply bind_Ok in E as (u & r1 & E1 & E).
  unfold modify in E1. injection E1 as _ <-.
  apply bind_Ok in E as ([] & r2 & E2 & E).
  apply reset_tvn in E2. unfold modify in E. injection E as <-.
  unfold tvn in *. simpl in *. congruence.
Qed.

Lemma campaign_tvn r r' :
  campaign r = Ok tt r' ->
  tvn r' = (add64 (term r) 1, nodeID r, nodeID r).
Proof.
  unfold campaign. intros E.
  apply bind_Ok in E as ([] & r1 & E1 & E).
  apply becomeCandidate_tvn in E1.
  revert E. generalize dependent r1. intros r1 H1 E.
  assert (K : keeps (add64 (term r) 1, nodeID r, nodeID r)
    (r0 <- get ;;
     let tm := term r0 in
     _ <- handleVoteResp (nodeID r0) false ;;
     r2 <- get ;;
     if isSingleNodeQuorum r2 then becomeLeader
     else
       hint <- (if isLeaderTransferTarget r2
                then modify (set_isLeaderTransferTarget false) ;;
                     ret (nodeID r2)
                else ret 0) ;;
       forM_ (keys (remotes r2))
         (fun k =>
            if k =? nodeID r2 then ret tt
            else
              r3 <- get ;;
              send (pb.with_Hint hint
                      (pb.with_LogTerm (entryLog.lastTerm (log r3))
                         (pb.with_LogIndex (entryLog.lastIndex (log r3))
                            (pb.with_Term tm (pb.msg pb.RequestVote k))))))))
    by keeps_auto.
  eapply K; eauto.
Qed.

Lemma keeps_handleHeartbeatMessage x m : keeps x (handleHeartbeatMessage m).
Proof. unfold handleHeartbeatMessage. keeps_auto. Qed.
Lemma keeps_handleInstallSnapshotMessage x m :
  keeps x (handleInstallSnapshotMessage m).
Proof. unfold handleInstallSnapshotMessage. keeps_auto. Qed.
Lemma keeps_handleReplicateMessage x m : keeps x (handleReplicateMessage m).
Proof. unfold handleReplicateMessage. keeps_auto. Qed.
Lemma keeps_doubleCheckTermMatched x t : keeps x (doubleCheckTermMatched t).
Proof. unfold doubleCheckTermMatched. keeps_auto. Qed.
#[local] Hint Resolve keeps_handleHeartbeatMessage
  keeps_handleInstallSnapshotMessage keeps_handleReplicateMessage
  keeps_doubleCheckTermMatched : keeps.

(** Stepping down or staying at the term the node already has. *)
Ltac keeps_same_term :=
  first [apply keeps_becomeFollower | apply keeps_becomeObserver];
  match goal with H : tvn _ = ?x |- _ => rewrite <- H; reflexivity end.

Lemma keeps_handleLeaderLeaderHeartbeat x m :
  keeps x (handleLeaderLeaderHeartbeat m).
Proof. unfold handleLeaderLeaderHeartbeat. keeps_auto. Qed.
Lemma keeps_handleLeaderCheckQuorum x m : keeps x (handleLeaderCheckQuorum m).
Proof. unfold handleLeaderCheckQuorum. keeps_auto. keeps_same_term. Qed.
Lemma keeps_guardConfigChanges x es : keeps x (guardConfigChanges es).
Proof. induction es as [|e es IH]; simpl; keeps_auto. Qed.
#[local] Hint Resolve keeps_guardConfigChanges : keeps.
Lemma keeps_handleLeaderPropose x m : keeps x (handleLeaderPropose m).
Proof. unfold handleLeaderPropose. keeps_auto. Qed.
Lemma keeps_hasCommittedEntryAtCurrentTerm x :
  keeps x hasCommittedEntryAtCurrentTerm.
Proof. unfold hasCommittedEntryAtCurrentTerm. keeps_auto. Qed.
Lemma keeps_addReadyToRead x i c : keeps x (addReadyToRead i c).
Proof. unfold addReadyToRead. keeps_auto. Qed.
#[local] Hint Resolve keeps_hasCommittedEntryAtCurrentTerm
  keeps_addReadyToRead : keeps.
Lemma keeps_handleLeaderReadIndex x m : keeps x (handleLeaderReadIndex m).
Proof. unfold handleLeaderReadIndex. keeps_auto. Qed.
Lemma keeps_enterRetryState x p : keeps x (enterRetryState p).
Proof. unfold enterRetryState. keeps_auto. Qed.
#[local] Hint Resolve keeps_enterRetryState : keeps.
Lemma keeps_handleLeaderReplicateResp x m p :
  keeps x (handleLeaderReplicateResp m p).
Proof. unfold handleLeaderReplicateResp. keeps_auto. Qed.
Lemma keeps_handleReadIndexLeaderConfirmation x m :
  keeps x (handleReadIndexLeaderConfirmation m).
Proof. unfold handleReadIndexLeaderConfirmation. keeps_auto. Qed.
#[local] Hint Resolve keeps_handleReadIndexLeaderConfirmation : keeps.
Lemma keeps_handleLeaderHeartbeatResp x m p :
  keeps x (handleLeaderHeartbeatResp m p).
Proof. unfold handleLeaderHeartbeatResp. keeps_auto. Qed.
Lemma keeps_handleLeaderLeaderTransfer x m p :
  keeps x (handleLeaderLeaderTransfer m p).
Proof. unfold handleLeaderLeaderTransfer. keeps_auto. Qed.
Lemma keeps_handleLeaderSnapshotStatus x m p :
  keeps x (handleLeaderSnapshotStatus m p).
Proof. unfold handleLeaderSnapshotStatus. keeps_auto. Qed.
Lemma keeps_handleLeaderUnreachable x m p :
  keeps x (handleLeaderUnreachable m p).
Proof. unfold handleLeaderUnreachable. keeps_auto. Qed.
Lemma keeps_lw x f m : (forall p, keeps x (f m p)) -> keeps x (lw f m).
Proof. intros Hf. unfold lw. keeps_auto; apply Hf. Qed.

Lemma keeps_handleFollowerPropose x m : keeps x (handleFollowerPropose m).
Proof. unfold handleFollowerPropose. keeps_auto. Qed.
Lemma keeps_handleFollowerReplicate x m : keeps x (handleFollowerReplicate m).
Proof. unfold handleFollowerReplicate. keeps_auto. Qed.
Lemma keeps_handleFollowerHeartbeat x m : keeps x (handleFollowerHeartbeat m).
Proof. unfold handleFollowerHeartbeat. keeps_auto. Qed.
Lemma keeps_handleFollowerReadIndex x m : keeps x (handleFollowerReadIndex m).
Proof. unfold handleFollowerReadIndex. keeps_auto. Qed.
Lemma keeps_handleFollowerLeaderTransfer x m :
  keeps x (handleFollowerLeaderTransfer m).
Proof. unfold handleFollowerLeaderTransfer. keeps_auto. Qed.
Lemma keeps_handleFollowerReadIndexResp x m :
  keeps x (handleFollowerReadIndexResp m).
Proof. unfold handleFollowerReadIndexResp. keeps_auto. Qed.
Lemma keeps_handleFollowerInstallSnapshot x m :
  keeps x (handleFollowerInstallSnapshot m).
Proof. unfold handleFollowerInstallSnapshot. keeps_auto. Qed.
Lemma keeps_handleCandidatePropose x m : keeps x (handleCandidatePropose m).
Proof. unfold handleCandidatePropose. keeps_auto. Qed.
Lemma keeps_handleCandidateReplicate x m : keeps x (handleCandidateReplicate m).
Proof. unfold handleCandidateReplicate. keeps_auto. keeps_same_term. Qed.
Lemma keeps_handleCandidateInstallSnapshot x m :
  keeps x (handleCandidateInstallSnapshot m).
Proof. unfold handleCandidateInstallSnapshot. keeps_auto. keeps_same_term. Qed.
Lemma keeps_handleCandidateHeartbeat x m : keeps x (handleCandidateHeartbeat m).
Proof. unfold handleCandidateHeartbeat. keeps_auto. keeps_same_term. Qed.
Lemma keeps_handleCandidateRequestVoteResp x m :
  keeps x (handleCandidateRequestVoteResp m).
Proof. unfold handleCandidateRequestVoteResp. keeps_auto. keeps_same_term. Qed.

#[local] Hint Resolve keeps_handleLeaderLeaderHeartbeat
  keeps_handleLeaderCheckQuorum keeps_handleLeaderPropose
  keeps_handleLeaderReadIndex keeps_handleLeaderReplicateResp
  keeps_handleLeaderHeartbeatResp keeps_handleLeaderLeaderTransfer
  keeps_handleLeaderSnapshotStatus keeps_handleLeaderUnreachable
  keeps_handleFollowerPropose keeps_handleFollowerReplicate
  keeps_handleFollowerHeartbeat keeps_handleFollowerReadIndex
  keeps_handleFollowerLeaderTransfer keeps_handleFollowerReadIndexResp
  keeps_handleFollowerInstallSnapshot keeps_handleCandidatePropose
  keeps_handleCandidateReplicate keeps_handleCandidateInstallSnapshot
  keeps_handleCandidateHeartbeat keeps_handleCandidateRequestVoteResp
  : keeps.

Lemma handleNodeElection_tvn m r r' :
  handleNodeElection m r = Ok tt r' -> tvn r' = tvn r \/ campaigned r r'.
Proof.
  unfold handleNodeElection, bind at 1, get at 1.
  destruct (negb _); [destruct (hasConfigChangeToApply r)|]; intros E.
  - left. unfold ret in E. congruence.
  - right. apply campaign_tvn, E.
  - left. unfold ret in E. congruence.
Qed.

Lemma handleNodeRequestVote_tvn m r r' :
  handleNodeRequestVote m r = Ok tt r' ->
  tvn r' = tvn r \/ tvn r' = (term r, pb.mFrom m, nodeID r).
Proof.
  unfold handleNodeRequestVote, bind at 1, get at 1.
  destruct (_ && _); intros E.
  - right. injection E as <-. reflexivity.
  - left. injection E as <-. reflexivity.
Qed.

Lemma becomeFollower_tvn tm l r r' :
  becomeFollower tm l r = Ok tt r' ->
  tvn r' = (tm, if term r =? tm then vote r else NoLeader, nodeID r).
Proof.
  unfold becomeFollower. intros E.
  apply bind_Ok in E as ([] & r1 & E1 & E).
  unfold modify in E1. injection E1 as <-.
  apply bind_Ok in E as ([] & r2 & E2 & E).
  apply reset_tvn in E2. unfold setLeaderID, modify in E.
  injection E as <-. exact E2.
Qed.

Lemma becomeObserver_tvn tm l r r' :
  becomeObserver tm l r = Ok tt r' ->
  tvn r' = (tm, if term r =? tm then vote r else NoLeader, nodeID r).
Proof.
  unfold becomeObserver, bind at 1, get at 1.
  destruct (negb _); [discriminate|]. intros E.
  apply bind_Ok in E as ([] & r2 & E2 & E).
  apply reset_tvn in E2. unfold setLeaderID, modify in E.
  injection E as <-. exact E2.
Qed.

Lemma onMessageTermNotMatched_tvn m r ign r1 :
  onMessageTermNotMatched m r = Ok ign r1 ->
  tvn r1 = tvn r
  \/ (ign = false /\ pb.mTerm m <> 0 /\ term r < pb.mTerm m
      /\ tvn r1 = (pb.mTerm m, NoNode, nodeID r)).
Proof.
  unfold onMessageTermNotMatched, bind at 1, get at 1.
  destruct (_ || _) eqn:E0; [intros E; left; unfold ret in E; congruence|].
  apply orb_false_iff in E0 as [E0 E0'].
  apply Z.eqb_neq in E0, E0'.
  destruct (dropRequestVoteFromHighTermNode r m);
    [intros E; left; unfold ret in E; congruence|].
  destruct (Z.ltb_spec (term r) (pb.mTerm m)) as [Hlt|Hge].
  - intros E. right. apply bind_Ok in E as ([] & r2 & E1 & E2).
    unfold ret in E2. injection E2 as <- <-.
    assert (Ht : tvn r2 = (pb.mTerm m,
                           if term r =? pb.mTerm m then vote r else NoLeader,
                           nodeID r)).
    { destruct (isObserver r);
        [eapply becomeObserver_tvn|eapply becomeFollower_tvn]; exact E1. }
    destruct (Z.eqb_spec (term r) (pb.mTerm m)) as [e|_]; [lia|]. auto.
  - destruct (Z.ltb_spec (pb.mTerm m) (term r)) as [Hlt|Hge'].
    + intros E. left. apply bind_Ok in E as ([] & r2 & E1 & E2).
      unfold ret in E2. injection E2 as _ <-.
      assert (K : keeps (tvn r)
                    (if isLeaderMessage (pb.mType m) && checkQuorum r
                     then send (pb.msg pb.NoOP (pb.mFrom m)) else ret tt))
        by keeps_auto.
      eapply K; eauto.
    + intros E. left. unfold ret in E. congruence.
Qed.

(** ** What one step does to the term and the vote *)

Lemma steps_keeps {A : Type} x (Q : Z * Z * Z -> Prop) (c : M A) :
  Q x -> keeps x c -> steps x Q c.
Proof. intros HQ Hc r a r' H E. erewrite Hc; eauto. Qed.

Lemma steps_bind_l {A B : Type} x Q (c : M A) (k : A -> M B) :
  keeps x c -> (forall a, steps x Q (k a)) -> steps x Q (bind c k).
Proof.
  intros Hc Hk r b r' H E. apply bind_Ok in E as (a & r1 & E1 & E2).
  eapply Hk; [|exact E2]. eapply Hc; eauto.
Qed.

Lemma steps_bind_r {A B : Type} x Q (c : M A) (k : A -> M B) :
  steps x Q c -> (forall a y, Q y -> keeps y (k a)) -> steps x Q (bind c k).
Proof.
  intros Hc Hk r b r' H E. apply bind_Ok in E as (a & r1 & E1 & E2).
  pose proof (Hc _ _ _ H E1) as HQ.
  erewrite (Hk a (tvn r1) HQ r1 b r'); eauto.
Qed.

Lemma steps_get {B : Type} x Q (k : raft -> M B) :
  (forall r0, tvn r0 = x -> steps x Q (k r0)) -> steps x Q (bind get k).
Proof.
  intros Hk r b r' H E. unfold bind, get in E. eapply Hk; eauto.
Qed.

Lemma handleEffect_local m x y :
  pb.mTerm m = 0 -> pb.mType m <> pb.RequestVote ->
  handleEffect m x y -> localEffect x y.
Proof.
  intros Hm Ht (t0 & v0 & [[-> ->]|(Hn & _)] & H); [|congruence].
  destruct x as [[t v] n]. simpl in *.
  destruct H as [->|[[-> _]|[_ ?]]]; [left|right|congruence]; reflexivity.
Qed.

Section DispatchEffect.

Variable HandleRec : pb.Message -> M unit.
Hypothesis HandleRec_effect :
  forall m x, steps x (handleEffect m x) (HandleRec m).

Lemma HandleRec_local x t n :
  t <> pb.RequestVote ->
  steps x (localEffect x) (HandleRec (pb.with_From n (pb.msg t 0))).
Proof.
  intros Ht r a r' H E. eapply handleEffect_local; [| |eapply HandleRec_effect; eauto];
    [reflexivity|exact Ht].
Qed.

Lemma nonLeaderTickWith_steps x :
  steps x (localEffect x) (nonLeaderTickWith HandleRec).
Proof.
  unfold nonLeaderTickWith. apply steps_get; intros r0 H0.
  destruct (State_eqb _ _); [intros ? ? ? ? ?; discriminate|].
  apply steps_bind_l; [keeps_auto|intros _].
  apply steps_get; intros r1 H1.
  destruct (isObserver r1); [apply steps_keeps; [left; reflexivity|keeps_auto]|].
  destruct (_ && _); [|apply steps_keeps; [left; reflexivity|keeps_auto]].
  apply steps_bind_l; [keeps_auto|intros _].
  apply HandleRec_local. discriminate.
Qed.

Lemma HandleRec_quiet x t n :
  t <> pb.RequestVote -> t <> pb.Election -> t <> pb.TimeoutNow ->
  keeps x (HandleRec (pb.with_From n (pb.msg t 0))).
Proof.
  intros H1 H2 H3 r a r' H E.
  destruct (HandleRec_effect _ _ _ _ _ H E)
    as (t0 & v0 & [[-> ->]|(Hn & _)] & Hy); [|simpl in Hn; congruence].
  destruct x as [[tx vx] nx]; simpl in *.
  destruct Hy as [->|[[_ [?|?]]|[_ ?]]]; congruence.
Qed.

Lemma leaderTickWith_keeps x : keeps x (leaderTickWith HandleRec).
Proof.
  unfold leaderTickWith. keeps_auto; apply HandleRec_quiet; discriminate.
Qed.

Lemma tickWith_steps x : steps x (localEffect x) (tickWith HandleRec).
Proof.
  unfold tickWith. apply steps_bind_l; [keeps_auto|intros _].
  apply steps_get; intros r0 H0.
  destruct (State_eqb _ _).
  - apply steps_keeps; [left; reflexivity|apply leaderTickWith_keeps].
  - apply nonLeaderTickWith_steps.
Qed.

Lemma handleFollowerTimeoutNow_steps x m :
  steps x (localEffect x) (handleFollowerTimeoutNow HandleRec m).
Proof.
  unfold handleFollowerTimeoutNow.
  apply steps_bind_l; [keeps_auto|intros _].
  apply steps_bind_l; [keeps_auto|intros _].
  apply steps_bind_r; [apply tickWith_steps|intros _ y _]. keeps_auto.
Qed.

Lemma handleNodeElection_steps x m :
  steps x (localEffect x) (handleNodeElection m).
Proof.
  intros r a r' H E. destruct a.
  destruct (handleNodeElection_tvn _ _ _ E) as [K|K]; rewrite K.
  - left. exact H.
  - right. rewrite <- H. reflexivity.
Qed.

Lemma handleNodeRequestVote_steps x m :
  steps x (fun y => y = x \/ y = (fst (fst x), pb.mFrom m, snd x))
    (handleNodeRequestVote m).
Proof.
  intros r a r' H E. destruct a.
  destruct (handleNodeRequestVote_tvn _ _ _ E) as [K|K]; rewrite K.
  - left. exact H.
  - right. rewrite <- H. reflexivity.
Qed.

Lemma defaultHandle_steps x m :
  steps x (handlerEffect m x) (defaultHandle HandleRec m).
Proof.
  unfold defaultHandle. apply steps_get; intros r0 H0.
  destruct (state r0), (pb.mType m) eqn:Et; simpl;
    first
      [ apply steps_keeps;
        [left; reflexivity
        |first [apply keeps_lw; intros ?|idtac];
         solve [eauto with keeps
               | unfold handleObserverHeartbeat, handleObserverReplicate,
                   handleObserverSnapshot, handleObserverPropose,
                   handleObserverReadIndex, handleObserverReadIndexResp;
                 eauto with keeps]]
      | intros r a r' H E;
        destruct (handleNodeElection_steps _ _ _ _ _ H E) as [->| ->];
        [left; reflexivity|right; left; split; [reflexivity|left; exact Et]]
      | intros r a r' H E;
        destruct (handleNodeRequestVote_steps _ _ _ _ _ H E) as [->| ->];
        [left; reflexivity|right; right; split; [reflexivity|exact Et]]
      | intros r a r' H E;
        destruct (handleFollowerTimeoutNow_steps _ _ _ _ _ H E) as [->| ->];
        [left; reflexivity|right; left; split; [reflexivity|right; exact Et]] ].
Qed.

Lemma HandleWith_steps m x : steps x (handleEffect m x) (HandleWith HandleRec m).
Proof.
  intros r a r' H E. unfold HandleWith in E.
  apply bind_Ok in E as (ign & r1 & E1 & E2).
  apply onMessageTermNotMatched_tvn in E1.
  assert (Hh : forall y, tvn r1 = y -> handlerEffect m y (tvn r') \/ tvn r' = y).
  { intros y Hy. destruct ign; simpl in E2.
    - right. unfold ret in E2. congruence.
    - left. apply bind_Ok in E2 as ([] & r2 & E3 & E4).
      eapply defaultHandle_steps; [|exact E4].
      eapply keeps_doubleCheckTermMatched; eauto. }
  destruct x as [[t v] n]. unfold tvn in H. injection H as Ht Hv Hn.
  destruct E1 as [K|(-> & Hn0 & Hlt & K)].
  - exists t, v. split; [left; auto|].
    destruct (Hh (t, v, n)) as [Hy|Hy].
    { rewrite K. unfold tvn. congruence. }
    + exact Hy.
    + left. exact Hy.
  - exists (pb.mTerm m), NoNode. split.
    { right. simpl. repeat split; congruence || lia. }
    destruct (Hh (pb.mTerm m, NoNode, n)) as [Hy|Hy].
    { rewrite K. congruence. }
    + exact Hy.
    + left. exact Hy.
Qed.

End DispatchEffect.

Lemma HandleN_steps depth m x : steps x (handleEffect m x) (HandleN depth m).
Proof.
  revert m x. induction depth as [|d IH]; intros m x; simpl.
  - intros r a r' _ E. discriminate.
  - apply HandleWith_steps. exact IH.
Qed.

Lemma Handle_steps m x : steps x (handleEffect m x) (Handle m).
Proof. apply HandleN_steps. Qed.

Lemma tick_steps x : steps x (localEffect x) tick.
Proof. apply tickWith_steps. intros m y. apply Handle_steps. Qed.

(** ** Arithmetic of the term counter *)

Lemma add64_succ_gt x : x < MaxUint64 -> x < add64 x 1.
Proof.
  unfold add64, wrap64, MaxUint64, two64. intros H.
  destruct (Z.lt_ge_cases x 0) as [Hn|Hp].
  - pose proof (Z.mod_pos_bound (x + 1) (2 ^ 64)). lia.
  - rewrite Z.mod_small; lia.
Qed.

(** ** C5: the vote handler *)

(** C5.  [handleNodeRequestVote] grants the vote iff (the recorded vote is
    none, or is the sender, or the message term exceeds the current term) and
    the candidate's log is up to date.  Granting sets the vote to the sender
    and the election tick to 0, rejecting leaves both as they are, and in
    both cases exactly one [RequestVoteResp] carrying the current term is
    queued for the sender. *)
Theorem handleNodeRequestVote_grant_iff (m : pb.Message) (r : raft) :
  handleNodeRequestVote m r =
    if ((vote r =? NoNode) || (vote r =? pb.mFrom m) || (term r <? pb.mTerm m))
       && entryLog.upToDate (log r) (pb.mLogIndex m) (pb.mLogTerm m)
    then Ok tt (set_msgs (msgs r ++ [voteResp r m false])
                  (set_vote (pb.mFrom m) (set_electionTick 0 r)))
    else Ok tt (set_msgs (msgs r ++ [voteResp r m true]) r).
Proof.
  unfold handleNodeRequestVote, bind, get, canGrantVote.
  destruct (_ && _); reflexivity.
Qed.

(** ** C10: proposals the leader drops *)

(** C10.  A leader that is no longer a voter, or that is transferring its
    leadership, drops a [Propose]: the handler returns the state as it was,
    and so does [Handle] on a local [Propose]. *)
Theorem handleLeaderPropose_dropped (m : pb.Message) (r : raft) :
  state r = leader ->
  remotes r !! nodeID r = None \/ leaderTransferTarget r <> NoNode ->
  handleLeaderPropose m r = Ok tt r
  /\ (pb.mType m = pb.Propose -> pb.mTerm m = 0 -> Handle m r = Ok tt r).
Proof.
  intros Hs Hc.
  assert (H : handleLeaderPropose m r = Ok tt r).
  { unfold handleLeaderPropose, bind, get, selfRemoved, leaderTransfering.
    rewrite Hs. simpl. destruct Hc as [Hn|Ht].
    - rewrite Hn. rewrite bool_decide_eq_false_2; [reflexivity|].
      intros [? ?]; discriminate.
    - destruct (negb (bool_decide _)); [reflexivity|].
      apply Z.eqb_neq in Ht. rewrite Ht. reflexivity. }
  split; [exact H|]. intros Ht Hz.
  unfold Handle, HandleN, HandleWith, onMessageTermNotMatched,
    doubleCheckTermMatched, defaultHandle, bind, get.
  rewrite Hz. simpl. rewrite Hs, Ht. exact H.
Qed.

(** ** C1: read requests before the first commit of the term *)

Lemma entryLog_term_err l i e : entryLog.term l i = inr e -> e = ErrCompacted.
Proof.
  unfold entryLog.term. destruct (_ <? _); [congruence|].
  destruct (_ =? _); [congruence|]. destruct (_ !! _); congruence.
Qed.

Lemma hasCommittedEntryAtCurrentTerm_eq r :
  term r <> 0 ->
  hasCommittedEntryAtCurrentTerm r = Ok (committedTerm r =? term r) r.
Proof.
  intros Ht.
  unfold hasCommittedEntryAtCurrentTerm, committedTerm, termAt, bind, get.
  apply Z.eqb_neq in Ht. rewrite Ht.
  destruct (entryLog.term _ _) as [t|e] eqn:E; [reflexivity|].
  apply entryLog_term_err in E. subst e. reflexivity.
Qed.


(** ** C6: the term and the vote across a step *)

(** C6 (amended).  While the term counter is below its maximum, a step never
    lowers the term; and when a step raises the term, the vote recorded
    before is gone: after a tick the node has voted for itself, after a
    message the vote is none, or the node's own (it campaigned on [Election]
    or [TimeoutNow]), or the sender of the [RequestVote] granted in this
    step. *)
Theorem step_term_monotone (i : input) (r r' : raft) :
  term r < MaxUint64 -> inputTerm i < MaxUint64 ->
  step i r = Ok tt r' ->
  term r <= term r' /\ (term r < term r' -> voteAfterRaise i r r').
Proof.
  intros Hr Hi E. destruct i as [|m]; simpl in *.
  - destruct (tick_steps (tvn r) r tt r' eq_refl E) as [K|K];
      unfold tvn, campaignFrom in K; simpl in K; injection K as Kt Kv Kn.
    + split; [lia|]. intros; lia.
    + pose proof (add64_succ_gt _ Hr). split; [lia|]. intros _. exact Kv.
  - destruct (Handle_steps m (tvn r) r tt r' eq_refl E)
      as (t0 & v0 & Hpre & Hpost).
    unfold tvn, campaignFrom in *; simpl in *.
    assert (Ht0 : term r <= t0 /\ t0 < MaxUint64
                  /\ (term r < t0 -> v0 = NoNode)).
    { destruct Hpre as [[-> ->]|(_ & Hlt & -> & ->)].
      - split; [lia|split; [exact Hr|lia]].
      - split; [lia|split; [exact Hi|reflexivity]]. }
    destruct Ht0 as (Hle & Hmax & Hv).
    destruct Hpost as [K|[[K Hty]|[K Hty]]]; injection K as Kt Kv Kn.
    + split; [lia|]. intros Hlt. left. rewrite Kv. apply Hv. lia.
    + pose proof (add64_succ_gt _ Hmax). split; [lia|]. intros _.
      right. left. split; [exact Kv|exact Hty].
    + split; [lia|]. intros _. right. right. split; [exact Kv|exact Hty].
Qed.

(** ** C3: leader stickiness *)

Lemma dropRequestVoteFromHighTermNode_iff r m :
  pb.mType m = pb.RequestVote -> term r < pb.mTerm m ->
  dropRequestVoteFromHighTermNode r m = true <-> sticky r m.
Proof.
  intros Ht Hlt. unfold dropRequestVoteFromHighTermNode, sticky.
  rewrite Ht. simpl.
  destruct (checkQuorum r); simpl; [|split; [discriminate|intros [? _]; discriminate]].
  destruct (Z.leb_spec (pb.mTerm m) (term r)); [lia|].
  destruct (Z.eqb_spec (pb.mHint m) (pb.mFrom m)).
  { split; [discriminate|]. intros (_ & _ & _ & ?). contradiction. }
  destruct (Z.eqb_spec (leaderID r) NoLeader); simpl.
  { split; [discriminate|]. intros (_ & ? & _). contradiction. }
  destruct (Z.ltb_spec (electionTick r) (electionTimeout r)).
  - split; auto.
  - split; [discriminate|]. intros (_ & _ & ? & _). lia.
Qed.

Lemma onMessageTermNotMatched_higher m r ign r1 :
  0 <= term r -> term r < pb.mTerm m ->
  dropRequestVoteFromHighTermNode r m = false ->
  onMessageTermNotMatched m r = Ok ign r1 ->
  ign = false /\ tvn r1 = (pb.mTerm m, NoNode, nodeID r).
Proof.
  intros H0 Hlt Hd E.
  assert (E' := E). apply onMessageTermNotMatched_tvn in E'.
  destruct E' as [K|(-> & _ & _ & K)]; [|auto].
  exfalso. revert E.
  unfold onMessageTermNotMatched, bind at 1, get at 1.
  destruct (Z.eqb_spec (pb.mTerm m) 0); [lia|].
  destruct (Z.eqb_spec (pb.mTerm m) (term r)); [lia|]. simpl.
  rewrite Hd. destruct (Z.ltb_spec (term r) (pb.mTerm m)); [|lia].
  intros E. apply bind_Ok in E as ([] & r2 & E1 & E2).
  unfold ret in E2. injection E2 as _ <-.
  assert (Ht : term r2 = pb.mTerm m).
  { destruct (isObserver r);
      [apply becomeObserver_tvn in E1|apply becomeFollower_tvn in E1];
      unfold tvn in E1; congruence. }
  unfold tvn in K. injection K as K _ _. lia.
Qed.

(** C3.  A [RequestVote] with a term above the node's is dropped, the state
    staying exactly as it was, if and only if check-quorum is enabled, a
    leader is known, the election tick is below the election timeout and the
    hint is not the sender. *)
Theorem RequestVote_dropped_iff_sticky (m : pb.Message) (r : raft) :
  0 <= term r -> pb.mType m = pb.RequestVote -> term r < pb.mTerm m ->
  Handle m r = Ok tt r <-> sticky r m.
Proof.
  intros H0 Hty Hlt.
  rewrite <- (dropRequestVoteFromHighTermNode_iff r m Hty Hlt). split.
  - intros E. destruct (dropRequestVoteFromHighTermNode r m) eqn:Hd;
      [reflexivity|exfalso].
    unfold Handle, HandleN in E. unfold HandleWith at 1 in E.
    apply bind_Ok in E as (ign & r1 & E1 & E2).
    destruct (onMessageTermNotMatched_higher _ _ _ _ H0 Hlt Hd E1) as [-> K].
    simpl in E2. apply bind_Ok in E2 as ([] & r2 & E3 & E4).
    assert (K2 : tvn r2 = tvn r1)
      by (eapply keeps_doubleCheckTermMatched; eauto).
    pose proof (defaultHandle_steps _ (HandleN_steps 1) (tvn r2) m r2 tt r
                  eq_refl E4) as Hh.
    rewrite K2, K in Hh. unfold handlerEffect, campaignFrom, tvn in Hh.
    simpl in Hh.
    destruct Hh as [Hh|[Hh|Hh]].
    + injection Hh as Hh _. lia.
    + destruct Hh as [_ [Hh|Hh]]; congruence.
    + destruct Hh as [Hh _]. injection Hh as Hh _. lia.
  - intros Hd.
    unfold Handle, HandleN, HandleWith at 1, onMessageTermNotMatched, bind, get.
    destruct (Z.eqb_spec (pb.mTerm m) 0); [lia|].
    destruct (Z.eqb_spec (pb.mTerm m) (term r)); [lia|]. simpl.
    rewrite Hd. reflexivity.
Qed.

(** ** C7: heartbeats *)

Lemma sendHeartbeatMessage_eq to ctx (toObserver : bool) rp r :
  (if toObserver then observers r else remotes r) !! to = Some rp ->
  sendHeartbeatMessage to ctx toObserver r
  = Ok tt (queued [heartbeatMsg r ctx (to, rp)] r).
Proof.
  intros H. unfold sendHeartbeatMessage, bind, load, deref.
  destruct toObserver; rewrite H; reflexivity.
Qed.

Lemma queued_queued a b r : queued b (queued a r) = queued (a ++ b) r.
Proof. unfold queued. simpl. rewrite <- app_assoc. reflexivity. Qed.

Lemma queued_nil r : queued [] r = r.
Proof. unfold queued. rewrite app_nil_r. destruct r; reflexivity. Qed.

(** A loop whose every round queues messages that do not depend on the
    messages queued so far. *)
Lemma forM_queues {K : Type} (body : K -> M unit) (g : K -> list pb.Message)
    (l : list K) (r : raft) :
  (forall k ms, k ∈ l -> body k (queued ms r) = Ok tt (queued (ms ++ g k) r)) ->
  forall ms, forM_ l body (queued ms r) = Ok tt (queued (ms ++ concat (g <$> l)) r).
Proof.
  induction l as [|k l IH]; intros Hb ms; simpl.
  - rewrite app_nil_r. reflexivity.
  - unfold bind. rewrite Hb by (left). rewrite IH.
    + rewrite <- app_assoc. reflexivity.
    + intros k' ms' Hk'. apply Hb. right. exact Hk'.
Qed.

Lemma forM_ext {K : Type} (f g : K -> M unit) (l : list K) :
  (forall k, f k = g k) -> forM_ l f = forM_ l g.
Proof.
  intros H. induction l as [|k l IH]; simpl; [reflexivity|].
  rewrite H, IH. reflexivity.
Qed.

Lemma heartbeatMsg_queued r ms ctx p :
  heartbeatMsg (queued ms r) ctx p = heartbeatMsg r ctx p.
Proof. reflexivity. Qed.

Lemma filter_true {A : Type} (l : list A) :
  List.filter (fun _ => true) l = l.
Proof. induction l; simpl; congruence. Qed.

Lemma heartbeat_loop (toObserver : bool) (skipSelf : bool) ctx r
    (l : list (Z * remote.t)) ms :
  (forall p, p ∈ l ->
     (if toObserver then observers r else remotes r) !! fst p = Some (snd p)) ->
  forM_ l.*1
    (fun id => if skipSelf && (id =? nodeID r) then ret tt
               else sendHeartbeatMessage id ctx toObserver) (queued ms r)
  = Ok tt (queued (ms ++ (heartbeatMsg r ctx
                            <$> List.filter
                                  (fun p => negb (skipSelf && (fst p =? nodeID r)))
                                  l)) r).
Proof.
  revert ms. induction l as [|[id rp] l IH]; intros ms Hl; simpl.
  - rewrite app_nil_r. reflexivity.
  - unfold bind.
    assert (Hin : forall p, p ∈ l ->
              (if toObserver then observers r else remotes r) !! fst p
              = Some (snd p)) by (intros p Hp; apply Hl; right; exact Hp).
    destruct (skipSelf && (id =? nodeID r)) eqn:Hs; simpl.
    + unfold ret. apply IH, Hin.
    + rewrite (sendHeartbeatMessage_eq id ctx toObserver rp).
      * rewrite queued_queued, heartbeatMsg_queued, IH by exact Hin.
        rewrite <- app_assoc. reflexivity.
      * apply (Hl (id, rp)). left.
Qed.

(** C7.  A [Heartbeat] sent to a peer carries the smaller of the peer's
    [match] and the leader's committed index; a broadcast queues exactly one
    such [Heartbeat] for every voter other than the node itself, and one for
    every observer exactly when the context is zero. *)
Theorem broadcastHeartbeat_messages (ctx : pb.SystemCtx) (r : raft) :
  broadcastHeartbeatMessageWithHint ctx r
  = Ok tt
      (queued
         ((heartbeatMsg r ctx
             <$> List.filter (fun p => negb (fst p =? nodeID r))
                   (map_to_list (remotes r)))
          ++ (if pb.SystemCtx_eqb ctx pb.zeroCtx
              then heartbeatMsg r pb.zeroCtx <$> map_to_list (observers r)
              else []))
         r)
  /\ forall p, pb.mCommit (heartbeatMsg r ctx p)
               = min64 (remote.match_ (snd p)) (entryLog.committed (log r)).
Proof.
  split; [|reflexivity].
  unfold broadcastHeartbeatMessageWithHint, keys. unfold bind at 1, get at 1.
  unfold bind at 1.
  rewrite (forM_ext _ (fun id => if true && (id =? nodeID r) then ret tt
                                 else sendHeartbeatMessage id ctx false))
    by (intros id; simpl; destruct (id =? nodeID r); reflexivity).
  pose proof (heartbeat_loop false true ctx r (map_to_list (remotes r)) []) as H1.
  rewrite queued_nil in H1. rewrite H1; clear H1.
  2:{ intros [id rp] Hp. apply elem_of_map_to_list in Hp. exact Hp. }
  simpl. destruct (pb.SystemCtx_eqb ctx pb.zeroCtx).
  - unfold bind at 1, get at 1.
    rewrite (forM_ext _ (fun id => if false && (id =? nodeID r) then ret tt
                                   else sendHeartbeatMessage id pb.zeroCtx true))
      by reflexivity.
    change (observers (queued ?ms r)) with (observers r).
    change (nodeID (queued ?ms r)) with (nodeID r).
    rewrite (heartbeat_loop true false pb.zeroCtx r (map_to_list (observers r))).
    2:{ intros [id rp] Hp. apply elem_of_map_to_list in Hp. exact Hp. }
    simpl. rewrite filter_true. reflexivity.
  - rewrite app_nil_r. reflexivity.
Qed.

(** ** C8: snapshot installation on a follower *)

Lemma observer_check_passes (l : list Z) (n : Z) (r : raft) :
  n ∉ l ->
  forM_ l (fun nid => if nid =? n then panic else ret tt) r = Ok tt r.
Proof.
  induction l as [|k l IH]; intros Hn; simpl; [reflexivity|].
  unfold bind. destruct (Z.eqb_spec k n) as [->|Hne].
  - exfalso. apply Hn. left.
  - simpl. apply IH. intros Hin. apply Hn. right. exact Hin.
Qed.

Lemma restore_eq (ss : pb.Snapshot) (r : raft) :
  isObserver r = true \/ nodeID r ∉ pb.Observers (pb.ssMembership ss) ->
  restore ss r =
    if pb.ssIndex ss <=? entryLog.committed (log r) then Ok false r
    else if entryLog.matchTerm (log r) (pb.ssIndex ss) (pb.ssTerm ss)
    then Ok false (set_log (entryLog.commitTo (log r) (pb.ssIndex ss)) r)
    else Ok true (set_log (entryLog.restore (log r) ss) r).
Proof.
  intros H. unfold restore. unfold bind at 1, get at 1.
  destruct (_ <=? _); [reflexivity|].
  unfold bind at 1.
  assert (E : (if negb (isObserver r)
               then forM_ (elements (pb.Observers (pb.ssMembership ss)))
                      (fun nid => if nid =? nodeID r then panic else ret tt)
               else ret tt) r = Ok tt r).
  { destruct (isObserver r) eqn:Ho; simpl; [reflexivity|].
    destruct H as [H|H]; [discriminate|].
    apply observer_check_passes. rewrite elem_of_elements. exact H. }
  rewrite E. destruct (entryLog.matchTerm _ _ _); reflexivity.
Qed.

(** C8.  A follower that receives an [InstallSnapshot] notes the leader and
    then: if the snapshot index is at most the committed index it changes
    nothing else; if the log matches the snapshot's index and term it only
    commits up to the snapshot index; in both cases it replies with a
    [ReplicateResp] carrying its committed index.  Otherwise the log is
    replaced from the snapshot and the [ReplicateResp] carries the new last
    index, which is the snapshot index. *)
Theorem handleFollowerInstallSnapshot_reply (m : pb.Message) (r : raft) :
  isObserver r = true
  \/ nodeID r ∉ pb.Observers (pb.ssMembership (pb.mSnapshot m)) ->
  let ss := pb.mSnapshot m in
  let r0 := heardFrom m r in
  handleFollowerInstallSnapshot m r =
    (if pb.ssIndex ss <=? entryLog.committed (log r)
     then Ok tt (queued [replicateResp r m (entryLog.committed (log r))] r0)
     else if entryLog.matchTerm (log r) (pb.ssIndex ss) (pb.ssTerm ss)
     then
       let l' := entryLog.commitTo (log r) (pb.ssIndex ss) in
       Ok tt (queued [replicateResp r m (entryLog.committed l')]
                (set_log l' r0))
     else
       let l' := entryLog.restore (log r) ss in
       Ok tt (queued [replicateResp r m (entryLog.lastIndex l')]
                (set_log l' r0)))
  /\ entryLog.ents (entryLog.commitTo (log r) (pb.ssIndex ss))
     = entryLog.ents (log r)
  /\ (entryLog.committed (log r) < pb.ssIndex ss <= entryLog.lastIndex (log r)
      -> entryLog.committed (entryLog.commitTo (log r) (pb.ssIndex ss))
         = pb.ssIndex ss)
  /\ entryLog.lastIndex (entryLog.restore (log r) ss) = pb.ssIndex ss.
Proof.
  intros H ss r0. split; [|split; [|split]].
  - unfold handleFollowerInstallSnapshot, handleInstallSnapshotMessage,
      setLeaderID.
    unfold bind at 1, modify at 1. unfold bind at 1, modify at 1.
    unfold bind at 1. rewrite restore_eq by exact H.
    change (log (set_leaderID _ _)) with (log r).
    fold ss. destruct (_ <=? _); [reflexivity|].
    destruct (entryLog.matchTerm _ _ _); reflexivity.
  - unfold entryLog.commitTo. destruct (_ <? _); reflexivity.
  - intros [H1 H2]. unfold entryLog.commitTo, min64.
    destruct (Z.ltb_spec (pb.ssIndex ss) (entryLog.lastIndex (log r))).
    + destruct (Z.ltb_spec (entryLog.committed (log r)) (pb.ssIndex ss));
        [reflexivity|lia].
    + destruct (Z.ltb_spec (entryLog.committed (log r))
                  (entryLog.lastIndex (log r))); simpl; lia.
  - unfold entryLog.restore, entryLog.lastIndex. simpl. lia.
Qed.

(** ** C2: the commit rule *)

Lemma insertSorted_perm x l : Permutation (insertSorted x l) (x :: l).
Proof.
  induction l as [|y l IH]; simpl; [reflexivity|].
  destruct (x <=? y); [reflexivity|].
  rewrite IH. apply perm_swap.
Qed.

Lemma sortSlice_perm l : Permutation (sortSlice l) l.
Proof.
  induction l as [|x l IH]; simpl; [reflexivity|].
  rewrite insertSorted_perm, IH. reflexivity.
Qed.

Lemma insertSorted_sorted x l :
  StronglySorted Z.le l -> StronglySorted Z.le (insertSorted x l).
Proof.
  induction 1 as [|y l Hs IH Hy]; simpl.
  - repeat constructor.
  - destruct (Z.leb_spec x y).
    + constructor; [constructor; assumption|].
      constructor; [assumption|].
      eapply Forall_impl; [exact Hy|]. intros z ?. simpl in *. lia.
    + constructor; [exact IH|].
      rewrite insertSorted_perm. constructor; [lia|exact Hy].
Qed.

Lemma sortSlice_sorted l : StronglySorted Z.le (sortSlice l).
Proof.
  induction l as [|x l IH]; simpl; [constructor|].
  apply insertSorted_sorted, IH.
Qed.

(** The unrolled sort of three values sorts them. *)
Lemma sort3_sorted_perm a b c :
  let s := swapIfGreater 0 1 (swapIfGreater 1 2 (swapIfGreater 0 1 [a; b; c])) in
  StronglySorted Z.le s /\ Permutation s [a; b; c].
Proof.
  unfold swapIfGreater. simpl.
  destruct (Z.ltb_spec b a); simpl;
    destruct (Z.ltb_spec c a); simpl;
    destruct (Z.ltb_spec c b); simpl;
    repeat match goal with
      | |- context [?x <? ?y] => destruct (Z.ltb_spec x y); simpl
      end;
    (split; [repeat constructor; lia|solve_Permutation]) || lia.
Qed.

Lemma sortMatchValues_eq r :
  exists sorted,
    sortMatchValues r = Ok tt (set_matched sorted r)
    /\ StronglySorted Z.le sorted /\ Permutation sorted (matched r).
Proof.
  unfold sortMatchValues, modify.
  destruct (length (matched r) =? 3)%nat eqn:E.
  - apply Nat.eqb_eq in E.
    destruct (matched r) as [|a [|b [|c [|]]]] eqn:Em; try discriminate.
    eexists. split; [reflexivity|]. apply sort3_sorted_perm.
  - eexists. split; [reflexivity|].
    split; [apply sortSlice_sorted|apply sortSlice_perm].
Qed.

Lemma fillMatched_eq (vals : list remote.t) (idx : nat) (arr : list Z) :
  length arr = (idx + length vals)%nat ->
  fillMatched vals idx arr = Some (take idx arr ++ (remote.match_ <$> vals)).
Proof.
  revert idx arr. induction vals as [|v vals IH]; intros idx arr Hl; simpl.
  - rewrite app_nil_r, take_ge by (simpl in Hl; lia). reflexivity.
  - simpl in Hl. destruct (Nat.ltb_spec idx (length arr)); [|lia].
    rewrite IH by (rewrite length_insert; lia).
    f_equal. rewrite (take_S_r _ _ (remote.match_ v)).
    + rewrite take_insert_ge by lia. rewrite <- app_assoc. reflexivity.
    + apply list_lookup_insert_eq. lia.
Qed.

(** C2.  [tryCommit] sorts the voters' [match] values and takes the element
    at position [n - quorum], where [n] is the number of voters and
    [quorum = n / 2 + 1]; the committed index moves only if the log holds an
    entry of the current term there, in which case it moves to that index,
    and nothing else in the log changes. *)
Theorem tryCommit_quorum_match (r : raft) :
  (0 < size (remotes r))%nat ->
  exists sorted q,
    StronglySorted Z.le sorted
    /\ Permutation sorted (matchValues r)
    /\ quorum r = Z.of_nat (size (remotes r)) / 2 + 1
    /\ sorted !! Z.to_nat (Z.of_nat (size (remotes r)) - quorum r) = Some q
    /\ tryCommit r
       = Ok (fst (entryLog.tryCommit (log r) q (term r)))
            (set_log (snd (entryLog.tryCommit (log r) q (term r)))
               (set_matched sorted r))
    /\ let l' := snd (entryLog.tryCommit (log r) q (term r)) in
       entryLog.ents l' = entryLog.ents (log r)
       /\ (entryLog.committed l' <> entryLog.committed (log r) ->
           termAt (log r) q = term r)
       /\ (termAt (log r) q = term r ->
           entryLog.committed (log r) < q <= entryLog.lastIndex (log r) ->
           entryLog.committed l' = q).
Proof.
  intros Hn.
  assert (Hlen : length (matchValues r) = size (remotes r)).
  { unfold matchValues. rewrite !length_fmap. apply length_map_to_list. }
  assert (Hfill : exists r1,
             ((if negb (size (remotes r) =? length (matched r))%nat
               then resetMatchValueArray else ret tt) r = Ok tt r1)
             /\ set_matched (matchValues r) r1 = set_matched (matchValues r) r
             /\ fillMatched (map_to_list (remotes r1)).*2 0 (matched r1)
                = Some (matchValues r)).
  { destruct (Nat.eqb_spec (size (remotes r)) (length (matched r))) as [E|E];
      simpl.
    - exists r. split; [reflexivity|]. split; [reflexivity|].
      rewrite fillMatched_eq; [reflexivity|].
      rewrite length_fmap, length_map_to_list. simpl. lia.
    - eexists. split; [reflexivity|]. split; [reflexivity|]. simpl.
      rewrite fillMatched_eq; [reflexivity|].
      rewrite length_replicate, length_fmap, length_map_to_list. simpl. lia. }
  destruct Hfill as (r1 & E1 & Eset & Efill).
  destruct (sortMatchValues_eq (set_matched (matchValues r) r))
    as (sorted & Es & Hs & Hp).
  simpl in Hp.
  assert (Hq : 0 <= Z.of_nat (size (remotes r)) - quorum r
               < Z.of_nat (size (remotes r))).
  { unfold quorum.
    pose proof (Z.div_lt_upper_bound (Z.of_nat (size (remotes r))) 2
                  (Z.of_nat (size (remotes r)))).
    pose proof (Z.div_pos (Z.of_nat (size (remotes r))) 2). lia. }
  destruct (lookup_lt_is_Some_2 sorted
              (Z.to_nat (Z.of_nat (size (remotes r)) - quorum r))) as [q Eq].
  { rewrite (Permutation_length Hp), Hlen. lia. }
  exists sorted, q.
  split; [exact Hs|]. split; [exact Hp|]. split; [reflexivity|].
  split; [exact Eq|]. split.
  - unfold tryCommit. unfold bind at 1, get at 1. unfold bind at 1.
    rewrite E1. unfold bind at 1, get at 1. rewrite Efill.
    unfold bind at 1, modify at 1. rewrite Eset. unfold bind at 1.
    rewrite Es. unfold bind at 1, get at 1.
    change (remotes (set_matched sorted _)) with (remotes r).
    change (quorum (set_matched sorted _)) with (quorum r).
    destruct (Z.ltb_spec (Z.of_nat (size (remotes r)) - quorum r) 0); [lia|].
    change (matched (set_matched sorted _)) with sorted. rewrite Eq.
    reflexivity.
  - unfold entryLog.tryCommit, termAt.
    destruct (Z.leb_spec q (entryLog.committed (log r))); simpl.
    + split; [reflexivity|]. split; [congruence|lia].
    + destruct (Z.eqb_spec
                  match entryLog.term (log r) q with inl x => x | inr _ => 0 end
                  (term r)); simpl.
      * split; [unfold entryLog.commitTo; destruct (_ <? _); reflexivity|].
        split; [auto|]. intros _ [H1 H2].
        unfold entryLog.commitTo, min64.
        destruct (Z.ltb_spec q (entryLog.lastIndex (log r))).
        -- destruct (Z.ltb_spec (entryLog.committed (log r)) q);
             [reflexivity|lia].
        -- destruct (Z.ltb_spec (entryLog.committed (log r))
                       (entryLog.lastIndex (log r))); simpl; lia.
      * split; [reflexivity|]. split; [congruence|]. intros; contradiction.
Qed.

(** ** C9: the single-node scenario *)

Lemma newRaft_single env cid cq :
  newRaft env (singleConfig cid cq) singleLogDB
  = Ok tt (singleFresh env cid cq
             (add64 10 (wrap64 (envRand env 0) mod 10))).
Proof. reflexivity. Qed.

Lemma single_run_cases env cid cq (k : Z) :
  0 <= k < 10 ->
  (forall n, (n < Z.to_nat (10 + k))%nat ->
     stillFollower (ticks n (singleFresh env cid cq (add64 10 k))) = true)
  /\ leaderWithNoop
       (ticks (Z.to_nat (10 + k)) (singleFresh env cid cq (add64 10 k)))
     = true.
Proof.
  intros Hk.
  assert (Hc : k = 0 \/ k = 1 \/ k = 2 \/ k = 3 \/ k = 4 \/ k = 5 \/ k = 6
               \/ k = 7 \/ k = 8 \/ k = 9) by lia.
  destruct Hc as [->|[->|[->|[->|[->|[->|[->|[->|[->| ->]]]]]]]]];
    (split; [|vm_compute; reflexivity]);
    intros n Hn;
    repeat (destruct n as [|n]; [vm_compute; reflexivity|]);
    exfalso; simpl in Hn; lia.
Qed.

Lemma stillFollower_sound o :
  stillFollower o = true ->
  exists r, o = Ok tt r /\ state r = follower /\ term r = 0
            /\ entryLog.ents (log r) = [].
Proof.
  destruct o as [[] r| |]; simpl; try discriminate.
  intros H. apply andb_true_iff in H as [H H3].
  apply andb_true_iff in H as [H1 H2]. exists r.
  split; [reflexivity|]. split; [destruct (state r); done|].
  split; [apply Z.eqb_eq, H2|]. destruct (entryLog.ents (log r)); done.
Qed.

Lemma leaderWithNoop_sound o :
  leaderWithNoop o = true ->
  exists r, o = Ok tt r /\ state r = leader /\ term r = 1
            /\ entryLog.ents (log r) = [pb.mkEntry 1 1 pb.ApplicationEntry []]
            /\ entryLog.committed (log r) = 1.
Proof.
  destruct o as [[] r| |]; simpl; try discriminate.
  intros H. apply andb_true_iff in H as [H H4].
  apply andb_true_iff in H as [H H3].
  apply andb_true_iff in H as [H1 H2]. exists r.
  split; [reflexivity|]. split; [destruct (state r); done|].
  split; [apply Z.eqb_eq, H2|]. split; [|apply Z.eqb_eq, H4].
  destruct (entryLog.ents (log r)) as [|[t i ty c] [|]]; try discriminate.
  unfold isConfigChange in H3. simpl in H3.
  apply andb_true_iff in H3 as [H3 Hc].
  apply andb_true_iff in H3 as [H3 Hty].
  apply andb_true_iff in H3 as [Ht Hi].
  apply Z.eqb_eq in Ht, Hi. subst.
  destruct ty; [|discriminate]. destruct c; [reflexivity|discriminate].
Qed.

(** C9 (amended).  The freshly constructed single-voter node draws one value
    [v] for its randomized election timeout, which is [10 + v mod 10].  It
    stays a follower at term 0 with an empty log for fewer ticks than that,
    and the tick number [10 + v mod 10] makes it the leader at term 1 with the
    single no-op [Application] entry at index 1 and term 1, committed.  Ten
    ticks are enough exactly when [v mod 10 = 0]. *)
Theorem single_node_election (env : Env) (cid : Z) (cq : bool) :
  let k := wrap64 (envRand env 0) mod 10 in
  exists r0,
    newRaft env (singleConfig cid cq) singleLogDB = Ok tt r0
    /\ randomizedElectionTimeout r0 = 10 + k
    /\ (forall n, (n < Z.to_nat (10 + k))%nat ->
          exists r, ticks n r0 = Ok tt r /\ state r = follower /\ term r = 0
                    /\ entryLog.ents (log r) = [])
    /\ exists r, ticks (Z.to_nat (10 + k)) r0 = Ok tt r
         /\ state r = leader /\ term r = 1
         /\ entryLog.ents (log r) = [pb.mkEntry 1 1 pb.ApplicationEntry []]
         /\ entryLog.committed (log r) = 1.
Proof.
  intros k.
  assert (Hk : 0 <= k < 10) by (apply Z.mod_pos_bound; lia).
  eexists. split; [apply newRaft_single|]. fold k.
  destruct (single_run_cases env cid cq k Hk) as [Hw Hl].
  split; [|split].
  - simpl. unfold add64, wrap64, two64. rewrite Z.mod_small; lia.
  - intros n Hn. apply stillFollower_sound, Hw, Hn.
  - apply leaderWithNoop_sound, Hl.
Qed.

(** ** A campaign among several voters returns *)

Lemma size_resetRemotes (g : Z -> remote.t) (m : gmap Z remote.t) :
  size (map_imap (fun id _ => Some (g id)) m) = size m.
Proof.
  rewrite <- !size_dom. f_equal. apply set_eq. intros i.
  rewrite !elem_of_dom, map_lookup_imap.
  destruct (m !! i); simpl; split; intros [? ?]; eauto; discriminate.
Qed.

Lemma reset_returns tm r :
  electionTimeout r <> 0 ->
  exists r', reset tm r = Ok tt r'
    /\ state r' = state r /\ log r' = log r /\ msgs r' = msgs r
    /\ votes r' = ∅ /\ size (remotes r') = size (remotes r)
    /\ dom (remotes r') = dom (remotes r)
    /\ isLeaderTransferTarget r' = isLeaderTransferTarget r.
Proof.
  intros He. apply Z.eqb_neq in He.
  unfold reset, setLeaderID, setRandomizedElectionTimeout,
    clearPendingConfigChange, abortLeaderTransfer, resetRemotes,
    resetObservers, resetMatchValueArray, bind, modify, get.
  destruct (term r =? tm); simpl; rewrite He; simpl;
    (eexists; split; [reflexivity|]; simpl;
     repeat split; try reflexivity;
     [apply size_resetRemotes
     |apply set_eq; intros i; rewrite !elem_of_dom, map_lookup_imap;
      destruct (remotes r !! i); simpl; split; intros [? ?]; eauto;
      discriminate]).
Qed.

Lemma bind_eq {A B : Type} (c : M A) (k : A -> M B) r a r1 :
  c r = Ok a r1 -> bind c k r = k a r1.
Proof. intros E. unfold bind. rewrite E. reflexivity. Qed.

Lemma handleVoteResp_first from rej r :
  votes r !! from = None ->
  exists n, handleVoteResp from rej r
            = Ok n (set_votes (<[from := negb rej]> (votes r)) r).
Proof.
  intros H. unfold handleVoteResp, bind, get, modify. rewrite H.
  eexists. reflexivity.
Qed.

Lemma send_RequestVote r tm hint k :
  tm = term r -> term r <> 0 ->
  send (pb.with_Hint hint
          (pb.with_LogTerm (entryLog.lastTerm (log r))
             (pb.with_LogIndex (entryLog.lastIndex (log r))
                (pb.with_Term tm (pb.msg pb.RequestVote k))))) r
  = Ok tt (queued [requestVoteMsg r hint k] r).
Proof.
  intros -> Ht. unfold send, finalizeMessageTerm, bind, get, modify. simpl.
  apply Z.eqb_neq in Ht. rewrite Ht. simpl. rewrite andb_false_r.
  reflexivity.
Qed.

(** A follower or candidate among at least two voters, with a term that
    can still grow, campaigns to the end: it becomes candidate at the next
    term, votes for itself and queues one [RequestVote] for every other
    voter. *)
Lemma campaign_returns r :
  state r = follower \/ state r = candidate ->
  electionTimeout r <> 0 -> 0 <= term r < MaxUint64 ->
  (1 < size (remotes r))%nat ->
  exists r' hint,
    campaign r = Ok tt r'
    /\ state r' = candidate /\ term r' = term r + 1 /\ vote r' = nodeID r
    /\ msgs r'
       = msgs r
         ++ (requestVoteMsg r' hint
               <$> List.filter (fun k => negb (k =? nodeID r))
                     (keys (remotes r'))).
Proof.
  intros Hs He Ht Hn.
  assert (Hterm : add64 (term r) 1 = term r + 1).
  { unfold add64, wrap64, MaxUint64, two64 in *. rewrite Z.mod_small; lia. }
  unfold campaign.
  assert (Hc : exists r1, becomeCandidate r = Ok tt r1
            /\ state r1 = candidate /\ term r1 = term r + 1
            /\ vote r1 = nodeID r /\ nodeID r1 = nodeID r
            /\ log r1 = log r /\ msgs r1 = msgs r /\ votes r1 = ∅
            /\ size (remotes r1) = size (remotes r)
            /\ isLeaderTransferTarget r1 = isLeaderTransferTarget r).
  { unfold becomeCandidate. unfold bind at 1, get at 1.
    assert (State_eqb (state r) leader = false /\
            State_eqb (state r) observer = false) as [-> ->]
      by (destruct Hs as [-> | ->]; split; reflexivity).
    unfold bind at 1, modify at 1.
    destruct (reset_returns (add64 (term r) 1) (set_state candidate r) He)
      as (r1 & E1 & H1 & H2 & H3 & H4 & H5 & _ & H6).
    pose proof (reset_tvn _ _ _ E1) as K. unfold tvn in K. simpl in K.
    injection K as Kt Kv Kn.
    unfold bind. rewrite E1. unfold modify.
    eexists. split; [reflexivity|]. simpl.
    repeat split; try assumption; congruence. }
  destruct Hc as (r1 & E1 & S1 & T1 & V1 & N1 & L1 & M1 & Vs1 & Sz1 & I1).
  rewrite (bind_eq _ _ _ _ _ E1). unfold bind at 1, get at 1.
  destruct (handleVoteResp_first (nodeID r1) false r1) as [n E2].
  { rewrite Vs1. apply lookup_empty. }
  rewrite (bind_eq _ _ _ _ _ E2). unfold bind at 1, get at 1.
  rewrite Vs1.
  assert (Hq : isSingleNodeQuorum (set_votes (<[nodeID r1:=negb false]> ∅) r1)
               = false).
  { unfold isSingleNodeQuorum, quorum. simpl. rewrite Sz1.
    apply Z.eqb_neq.
    pose proof (Z.div_le_lower_bound (Z.of_nat (size (remotes r))) 2 1).
    lia. }
  rewrite Hq.
  set (r2 := set_votes (<[nodeID r1:=negb false]> ∅) r1).
  set (hint := if isLeaderTransferTarget r2 then nodeID r2 else 0).
  set (r3 := if isLeaderTransferTarget r2
             then set_isLeaderTransferTarget false r2 else r2).
  assert (Hh : forall (k : Z -> M unit),
            bind (if isLeaderTransferTarget r2
                  then modify (set_isLeaderTransferTarget false) ;;
                       ret (nodeID r2)
                  else ret 0) k r2 = k hint r3).
  { intros k. unfold bind, modify, ret, hint, r3.
    destruct (isLeaderTransferTarget r2); reflexivity. }
  rewrite Hh.
  assert (T3 : term r3 <> 0).
  { unfold r3. destruct (isLeaderTransferTarget r2); simpl; lia. }
  assert (Hloop : forall l ms,
            forM_ l
              (fun k => if k =? nodeID r1 then ret tt
                        else r4 <- get ;;
                             send (pb.with_Hint hint
                                     (pb.with_LogTerm (entryLog.lastTerm (log r4))
                                        (pb.with_LogIndex
                                           (entryLog.lastIndex (log r4))
                                           (pb.with_Term (term r1)
                                              (pb.msg pb.RequestVote k))))))
              (queued ms r3)
            = Ok tt (queued (ms ++ (requestVoteMsg r3 hint
                                      <$> List.filter
                                            (fun k => negb (k =? nodeID r1))
                                            l)) r3)).
  { induction l as [|k l IH]; intros ms; simpl.
    - rewrite app_nil_r. reflexivity.
    - unfold bind at 1.
      destruct (k =? nodeID r1) eqn:Ek; simpl.
      + unfold ret at 1. simpl. apply IH.
      + unfold bind at 1, get at 1.
        rewrite send_RequestVote;
          [|unfold r3; destruct (isLeaderTransferTarget r2); reflexivity
           |exact T3].
        rewrite queued_queued, IH, <- app_assoc. reflexivity. }
  specialize (Hloop (keys (remotes r2)) []).
  rewrite queued_nil in Hloop. change (nodeID r2) with (nodeID r1).
  eexists. exists hint. split; [exact Hloop|].
  split; [|split; [|split]].
  - unfold r3, r2. destruct (isLeaderTransferTarget _); exact S1.
  - unfold r3, r2. destruct (isLeaderTransferTarget _); exact T1.
  - unfold r3, r2. destruct (isLeaderTransferTarget _); exact V1.
  - rewrite <- N1, <- M1.
    unfold r3, r2. destruct (isLeaderTransferTarget _); reflexivity.
Qed.

(** ** C4: the election handler *)

Lemma state_update s p g : keepsOf state s (update p g).
Proof. unfold update. keeps_auto. Qed.
Lemma state_setLeaderID s l : keepsOf state s (setLeaderID l).
Proof. unfold setLeaderID. keeps_auto. Qed.
Lemma state_resetMatchValueArray s : keepsOf state s resetMatchValueArray.
Proof. unfold resetMatchValueArray. keeps_auto. Qed.
Lemma state_abortLeaderTransfer s : keepsOf state s abortLeaderTransfer.
Proof. unfold abortLeaderTransfer. keeps_auto. Qed.
Lemma state_setRandomizedElectionTimeout s :
  keepsOf state s setRandomizedElectionTimeout.
Proof. unfold setRandomizedElectionTimeout. keeps_auto. Qed.
Lemma state_setPendingConfigChange s : keepsOf state s setPendingConfigChange.
Proof. unfold setPendingConfigChange. keeps_auto. Qed.
Lemma state_clearPendingConfigChange s :
  keepsOf state s clearPendingConfigChange.
Proof. unfold clearPendingConfigChange. keeps_auto. Qed.
Lemma state_resetRemotes s : keepsOf state s resetRemotes.
Proof. unfold resetRemotes. keeps_auto. Qed.
Lemma state_resetObservers s : keepsOf state s resetObservers.
Proof. unfold resetObservers. keeps_auto. Qed.
Lemma state_finalizeMessageTerm s m : keepsOf state s (finalizeMessageTerm m).
Proof. unfold finalizeMessageTerm. keeps_auto. Qed.
Lemma state_sortMatchValues s : keepsOf state s sortMatchValues.
Proof.
  unfold sortMatchValues. apply keeps_modify. intros r.
  destruct (_ =? _)%nat; reflexivity.
Qed.
#[local] Hint Resolve state_update state_setLeaderID
  state_resetMatchValueArray state_abortLeaderTransfer
  state_setRandomizedElectionTimeout state_setPendingConfigChange
  state_clearPendingConfigChange state_resetRemotes state_resetObservers
  state_finalizeMessageTerm state_sortMatchValues : keeps.
Lemma state_reset s tm : keepsOf state s (reset tm).
Proof. unfold reset. keeps_auto. Qed.
Lemma state_send s m : keepsOf state s (send m).
Proof. unfold send. keeps_auto. Qed.
Lemma state_handleVoteResp s from rej : keepsOf state s (handleVoteResp from rej).
Proof. unfold handleVoteResp. keeps_auto. Qed.
Lemma state_tryCommit s : keepsOf state s tryCommit.
Proof. unfold tryCommit. keeps_auto. Qed.
Lemma state_getPendingConfigChangeCountFrom s fuel idx count :
  keepsOf state s (getPendingConfigChangeCountFrom fuel idx count).
Proof.
  revert idx count. induction fuel as [|fuel IH]; intros idx count; simpl.
  - apply keeps_diverge.
  - keeps_auto.
Qed.
#[local] Hint Resolve state_reset state_send state_handleVoteResp
  state_tryCommit state_getPendingConfigChangeCountFrom : keeps.
Lemma state_appendEntries s es : keepsOf state s (appendEntries es).
Proof. unfold appendEntries. keeps_auto. Qed.
Lemma state_preLeaderPromotionHandleConfigChange s :
  keepsOf state s preLeaderPromotionHandleConfigChange.
Proof.
  unfold preLeaderPromotionHandleConfigChange, getPendingConfigChangeCount.
  keeps_auto.
Qed.
#[local] Hint Resolve state_appendEntries
  state_preLeaderPromotionHandleConfigChange : keeps.

Lemma becomeCandidate_state r r' :
  becomeCandidate r = Ok tt r' -> state r' = candidate.
Proof.
  unfold becomeCandidate, bind at 1, get at 1.
  destruct (State_eqb (state r) leader); [discriminate|].
  destruct (State_eqb (state r) observer); [discriminate|].
  intros E. apply bind_Ok in E as ([] & r1 & E1 & E).
  unfold modify in E1. injection E1 as <-.
  assert (K : keepsOf state candidate
                (reset (add64 (term r) 1) ;; modify (set_vote (nodeID r))))
    by keeps_auto.
  eapply K; [|exact E]. reflexivity.
Qed.

Lemma becomeLeader_state r r' : becomeLeader r = Ok tt r' -> state r' = leader.
Proof.
  unfold becomeLeader, bind at 1, get at 1.
  destruct (State_eqb (state r) follower); [discriminate|].
  destruct (State_eqb (state r) observer); [discriminate|].
  intros E. apply bind_Ok in E as ([] & r1 & E1 & E).
  unfold modify in E1. injection E1 as <-.
  assert (K : keepsOf state leader
                (reset (term r) ;; setLeaderID (nodeID r) ;;
                 preLeaderPromotionHandleConfigChange ;;
                 appendEntries [pb.mkEntry 0 0 pb.ApplicationEntry []]))
    by keeps_auto.
  eapply K; [|exact E]. reflexivity.
Qed.

(** A campaign ends as candidate, or as leader when the node is a quorum by
    itself. *)
Lemma campaign_state r r' :
  campaign r = Ok tt r' -> state r' = candidate \/ state r' = leader.
Proof.
  unfold campaign. intros E.
  apply bind_Ok in E as ([] & r1 & E1 & E).
  apply becomeCandidate_state in E1.
  unfold bind at 1, get at 1 in E.
  apply bind_Ok in E as (n & r2 & E2 & E).
  assert (H2 : state r2 = candidate)
    by (eapply state_handleVoteResp; eauto).
  unfold bind at 1, get at 1 in E.
  destruct (isSingleNodeQuorum r2).
  - right. eapply becomeLeader_state; eauto.
  - left. revert E. generalize dependent r2. intros r2 _ H2.
    match goal with |- ?c r2 = _ -> _ =>
      assert (K : keepsOf state candidate c) by keeps_auto end.
    intros E. eapply K; eauto.
Qed.

Lemma add64_succ_neq x : add64 x 1 <> x.
Proof.
  unfold add64, wrap64, two64. intros H.
  pose proof (Z.mod_pos_bound (x + 1) (2 ^ 64)) as Hb.
  destruct (Z.lt_ge_cases x (2 ^ 64 - 1)).
  - destruct (Z.lt_ge_cases x 0); [lia|]. rewrite Z.mod_small in H; lia.
  - destruct (Z.eq_dec x (2 ^ 64 - 1)) as [->|]; [|lia].
    replace (2 ^ 64 - 1 + 1) with (2 ^ 64) in H by lia.
    rewrite Z.mod_same in H; lia.
Qed.


(** ** The nesting depth of [Handle] *)

Lemma handlers_ext (H1 H2 : pb.Message -> M unit) st t :
  t <> pb.TimeoutNow -> handlers H1 st t = handlers H2 st t.
Proof. intros Ht. destruct st, t; try reflexivity; congruence. Qed.

Lemma HandleWith_local_ext (H1 H2 : pb.Message -> M unit) m r :
  pb.mType m <> pb.TimeoutNow -> HandleWith H1 m r = HandleWith H2 m r.
Proof.
  intros Ht. unfold HandleWith, bind.
  destruct (onMessageTermNotMatched m r) as [ign r1| |]; try reflexivity.
  destruct ign; simpl; [reflexivity|].
  destruct (doubleCheckTermMatched (pb.mTerm m) r1) as [[] r2| |];
    try reflexivity.
  unfold defaultHandle, bind, get.
  rewrite (handlers_ext H1 H2) by exact Ht. reflexivity.
Qed.

(** The re-entrant calls only carry local messages that are not
    [TimeoutNow]. *)
Lemma tickWith_ext (H1 H2 : pb.Message -> M unit) r :
  (forall m r, pb.mType m <> pb.TimeoutNow -> H1 m r = H2 m r) ->
  tickWith H1 r = tickWith H2 r.
Proof.
  intros HH. unfold tickWith, bind, modify, get.
  destruct (State_eqb _ _).
  - unfold leaderTickWith, bind, modify, get.
    destruct (negb _); [reflexivity|].
    destruct (timeForCheckQuorum _); simpl.
    + destruct (checkQuorum _); simpl.
      * rewrite (HH _ _) by discriminate.
        destruct (H2 _ _) as [[] r1| |]; try reflexivity.
        destruct (timeToAbortLeaderTransfer _); simpl;
          (destruct (timeForHearbeat _); [apply HH; discriminate|reflexivity]).
      * destruct (timeToAbortLeaderTransfer _); simpl;
          (destruct (timeForHearbeat _); [apply HH; discriminate|reflexivity]).
    + destruct (timeToAbortLeaderTransfer _); simpl;
        (destruct (timeForHearbeat _); [apply HH; discriminate|reflexivity]).
  - unfold nonLeaderTickWith, bind, modify, get.
    destruct (State_eqb _ _); [reflexivity|].
    destruct (isObserver _); [reflexivity|].
    destruct (_ && _); [apply HH; discriminate|reflexivity].
Qed.

Lemma HandleWith_ext (H1 H2 : pb.Message -> M unit) m r :
  (forall m r, pb.mType m <> pb.TimeoutNow -> H1 m r = H2 m r) ->
  HandleWith H1 m r = HandleWith H2 m r.
Proof.
  intros HH.
  destruct (pb.MessageType_eqb (pb.mType m) pb.TimeoutNow) eqn:Et.
  - unfold HandleWith, bind.
    destruct (onMessageTermNotMatched m r) as [ign r1| |]; try reflexivity.
    destruct ign; simpl; [reflexivity|].
    destruct (doubleCheckTermMatched (pb.mTerm m) r1) as [[] r2| |];
      try reflexivity.
    unfold defaultHandle, bind, get.
    destruct (state r2), (pb.mType m); try discriminate; simpl;
      try reflexivity.
    unfold handleFollowerTimeoutNow, bind, modify.
    rewrite (tickWith_ext H1 H2) by exact HH. reflexivity.
  - apply HandleWith_local_ext. intros E. rewrite E in Et. discriminate.
Qed.

(** Two levels of nesting are all that a call of [Handle] uses: deeper
    bounds give the same result. *)
Lemma Handle_depth_irrelevant (d : nat) (m : pb.Message) (r : raft) :
  HandleN (2 + d) m r = Handle m r.
Proof.
  unfold Handle. simpl. apply HandleWith_ext.
  intros m' r' Ht. apply HandleWith_local_ext, Ht.
Qed.

Lemma tick_depth_irrelevant (d : nat) (r : raft) :
  tickWith (HandleN (1 + d)) r = tick r.
Proof.
  unfold tick, Handle. apply tickWith_ext. intros m' r' Ht. simpl.
  apply HandleWith_local_ext, Ht.
Qed.

(** The table leaves empty what [checkHandlerMap] requires to be empty. *)
Lemma checkHandlerMap_holds (H : pb.Message -> M unit) st t :
  In (st, t)
     [(leader, pb.Heartbeat); (leader, pb.Replicate);
      (leader, pb.InstallSnapshot); (leader, pb.ReadIndexResp);
      (follower, pb.ReplicateResp); (follower, pb.HeartbeatResp);
      (follower, pb.SnapshotStatus); (follower, pb.Unreachable);
      (candidate, pb.ReplicateResp); (candidate, pb.HeartbeatResp);
      (candidate, pb.SnapshotStatus); (candidate, pb.Unreachable);
      (observer, pb.Election); (observer, pb.RequestVote);
      (observer, pb.RequestVoteResp); (observer, pb.ReplicateResp);
      (observer, pb.HeartbeatResp)] ->
  handlers H st t = None.
Proof.
  simpl. intros Hin.
  repeat (destruct Hin as [Hin|Hin]; [injection Hin as <- <-; reflexivity|]).
  contradiction.
Qed.

(** ** The loop that counts pending config changes terminates *)

Lemma limitSizeFrom_take acc maxSize es :
  exists p, (p <= length es)%nat
            /\ entryLog.limitSizeFrom acc maxSize es = take p es.
Proof.
  revert acc. induction es as [|e es IH]; intros acc; simpl.
  - exists O. split; [lia|reflexivity].
  - destruct (_ <=? _).
    + destruct (IH (acc + entryLog.entrySize e)) as (p & Hp & ->).
      exists (S p). split; [lia|reflexivity].
    + exists O. split; [lia|reflexivity].
Qed.

Lemma limitSize_take maxSize e es :
  exists p, (p <= length es)%nat
            /\ entryLog.limitSize maxSize (e :: es) = take (S p) (e :: es).
Proof.
  simpl. destruct (limitSizeFrom_take (entryLog.entrySize e) maxSize es)
    as (p & Hp & ->).
  exists p. split; [exact Hp|reflexivity].
Qed.

Lemma countConfigChange_app a b :
  countConfigChange (a ++ b) = countConfigChange a + countConfigChange b.
Proof.
  unfold countConfigChange. rewrite List.filter_app, length_app. lia.
Qed.

Lemma getPendingConfigChangeCountFrom_returns r (fuel j : nat) (count : Z) :
  indexed (log r) ->
  entryLog.lastIndex (log r) + 1 < two64 -> 0 <= entryLog.markerIndex (log r) ->
  (j <= length (entryLog.ents (log r)))%nat ->
  (length (entryLog.ents (log r)) - j < fuel)%nat ->
  getPendingConfigChangeCountFrom fuel
    (entryLog.firstIndex (log r) + Z.of_nat j) count r
  = Ok (count + countConfigChange (drop j (entryLog.ents (log r)))) r.
Proof.
  intros Hix Hmax Hm. revert j count.
  induction fuel as [|fuel IH]; intros j count Hj Hf; [lia|].
  simpl. unfold bind at 1, get at 1. unfold entryLog.entries.
  destruct (Z.ltb_spec (entryLog.firstIndex (log r) + Z.of_nat j)
              (entryLog.firstIndex (log r))); [lia|].
  replace (Z.to_nat (entryLog.firstIndex (log r) + Z.of_nat j
                     - entryLog.firstIndex (log r))) with j by lia.
  destruct (drop j (entryLog.ents (log r))) as [|e es] eqn:Ed.
  - simpl. unfold ret. f_equal. unfold countConfigChange. simpl. lia.
  - destruct (limitSize_take (maxEntriesToApplySize r) e es) as (p & Hp & ->).
    assert (Hlen : length (e :: es) = (length (entryLog.ents (log r)) - j)%nat)
      by (rewrite <- Ed, length_drop; reflexivity).
    simpl in Hlen.
    assert (Hlast : exists e', last (take (S p) (e :: es)) = Some e'
                               /\ entryLog.ents (log r) !! (j + p)%nat = Some e').
    { destruct (lookup_lt_is_Some_2 (e :: es) p) as [e' He']; [simpl; lia|].
      exists e'. split.
      - rewrite last_lookup, length_take. simpl length.
        replace (Nat.pred (S p `min` S (length es))) with p by lia.
        rewrite lookup_take_lt by lia. exact He'.
      - rewrite <- Ed, lookup_drop in He'. exact He'. }
    destruct Hlast as (e' & -> & He').
    rewrite (Hix _ _ He').
    assert (Hnext : add64 (entryLog.firstIndex (log r) + Z.of_nat (j + p)) 1
                    = entryLog.firstIndex (log r) + Z.of_nat (j + S p)).
    { unfold add64, wrap64. unfold entryLog.lastIndex, entryLog.firstIndex in *.
      rewrite Z.mod_small; lia. }
    rewrite Hnext, IH by lia.
    f_equal. rewrite <- (take_drop (S p) (e :: es)) at 2.
    rewrite countConfigChange_app, <- Ed, drop_drop.
    replace (j + S p)%nat with (j + S p)%nat by reflexivity. lia.
Qed.

(** On a log whose entries carry their positions the count is that of the
    config changes above the committed index: the bound on the rounds is
    never reached. *)
Lemma getPendingConfigChangeCount_returns r :
  indexed (log r) ->
  entryLog.lastIndex (log r) + 1 < two64 ->
  0 <= entryLog.markerIndex (log r) <= entryLog.committed (log r) ->
  entryLog.committed (log r) <= entryLog.lastIndex (log r) ->
  getPendingConfigChangeCount r
  = Ok (countConfigChange
          (drop (Z.to_nat (entryLog.committed (log r)
                           - entryLog.markerIndex (log r)))
             (entryLog.ents (log r)))) r.
Proof.
  intros Hix Hmax [Hm Hc] Hl. unfold getPendingConfigChangeCount.
  unfold bind, get.
  assert (Hidx : add64 (entryLog.committed (log r)) 1
                 = entryLog.firstIndex (log r)
                   + Z.of_nat (Z.to_nat (entryLog.committed (log r)
                                         - entryLog.markerIndex (log r)))).
  { unfold add64, wrap64, entryLog.firstIndex, entryLog.lastIndex in *.
    rewrite Z.mod_small; lia. }
  rewrite Hidx.
  rewrite getPendingConfigChangeCountFrom_returns;
    unfold entryLog.lastIndex in *; try assumption; try lia.
  reflexivity.
Qed.

(** ** The theorems at concrete nodes *)



Lemma tryCommit_quorum_match_witness :
  (0 < size (remotes trioLeader))%nat
  /\ exists sorted q,
       StronglySorted Z.le sorted
       /\ Permutation sorted (matchValues trioLeader)
       /\ quorum trioLeader = Z.of_nat (size (remotes trioLeader)) / 2 + 1
       /\ sorted !! Z.to_nat (Z.of_nat (size (remotes trioLeader))
                              - quorum trioLeader) = Some q
       /\ tryCommit trioLeader
          = Ok (fst (entryLog.tryCommit (log trioLeader) q (term trioLeader)))
               (set_log (snd (entryLog.tryCommit (log trioLeader) q
                                (term trioLeader)))
                  (set_matched sorted trioLeader))
       /\ let l' := snd (entryLog.tryCommit (log trioLeader) q
                           (term trioLeader)) in
          entryLog.ents l' = entryLog.ents (log trioLeader)
          /\ (entryLog.committed l' <> entryLog.committed (log trioLeader) ->
              termAt (log trioLeader) q = term trioLeader)
          /\ (termAt (log trioLeader) q = term trioLeader ->
              entryLog.committed (log trioLeader) < q
                <= entryLog.lastIndex (log trioLeader) ->
              entryLog.committed l' = q).
Proof.
  assert (H : (0 < size (remotes trioLeader))%nat) by (vm_compute; lia).
  split; [exact H|]. exact (tryCommit_quorum_match trioLeader H).
Defined.

Lemma RequestVote_dropped_iff_sticky_witness :
  (0 <= term calmFollower /\ pb.mType voteRequest = pb.RequestVote
   /\ term calmFollower < pb.mTerm voteRequest)
  /\ (Handle voteRequest calmFollower = Ok tt calmFollower
      <-> sticky calmFollower voteRequest).
Proof.
  assert (H1 : 0 <= term calmFollower) by (vm_compute; discriminate).
  assert (H2 : pb.mType voteRequest = pb.RequestVote) by reflexivity.
  assert (H3 : term calmFollower < pb.mTerm voteRequest) by reflexivity.
  split; [split; [|split]; assumption|].
  exact (RequestVote_dropped_iff_sticky voteRequest calmFollower H1 H2 H3).
Defined.


(** Once the committed entry is applied, the same follower campaigns and
    asks the two other voters for their vote at term 6 (in the order in
    which the map of voters is visited). *)
Example calmFollower_campaigns :
  let r := set_applied 1 calmFollower in
  exists r', handleNodeElection (pb.msg pb.Election 0) r = Ok tt r'
    /\ state r' = candidate /\ term r' = 6 /\ vote r' = 2
    /\ msgs r' = [requestVoteMsg r' 0 3; requestVoteMsg r' 0 1].
Proof.
  eexists. split; [vm_compute; reflexivity|]. repeat split.
Qed.


Lemma step_term_monotone_witness :
  let r := singleFresh (exampleEnv 0) 1 false 1 in
  let r' := stateAfter tick r in
  (term r < MaxUint64 /\ inputTerm Tick < MaxUint64 /\ step Tick r = Ok tt r')
  /\ term r <= term r' /\ (term r < term r' -> voteAfterRaise Tick r r').
Proof.
  intros r r'.
  assert (H1 : term r < MaxUint64) by reflexivity.
  assert (H2 : inputTerm Tick < MaxUint64) by reflexivity.
  assert (H3 : step Tick r = Ok tt r') by (vm_compute; reflexivity).
  split; [split; [|split]; assumption|].
  exact (step_term_monotone Tick r r' H1 H2 H3).
Defined.

(** C6, as stated, fails twice.  The tick that starts the election of the
    single-voter node raises the term from 0 to 1 and leaves the vote on the
    node itself, not on none; and a node whose term counter is at its
    maximum wraps around to term 0 when it campaigns. *)
Lemma election_tick_votes_and_wraps :
  (exists r r',
     ticks 9 (singleFresh (exampleEnv 0) 1 false 10) = Ok tt r
     /\ tick r = Ok tt r'
     /\ term r = 0 /\ term r' = 1 /\ vote r' = 1 /\ vote r' <> NoNode)
  /\ (exists r0 r',
        newRaft (exampleEnv 0) (singleConfig 1 false) lastTermLogDB = Ok tt r0
        /\ term r0 = MaxUint64
        /\ ticks 10 r0 = Ok tt r'
        /\ term r' = 0 /\ term r' < term r0).
Proof.
  split.
  - eexists. eexists. split; [vm_compute; reflexivity|].
    split; [vm_compute; reflexivity|].
    repeat split; discriminate.
  - eexists. eexists. split; [vm_compute; reflexivity|].
    split; [reflexivity|]. split; [vm_compute; reflexivity|].
    split; reflexivity.
Qed.

Lemma handleFollowerInstallSnapshot_reply_witness :
  (isObserver calmFollower = true
   \/ nodeID calmFollower
      ∉ pb.Observers (pb.ssMembership (pb.mSnapshot snapshotMsg)))
  /\ handleFollowerInstallSnapshot snapshotMsg calmFollower
     = Ok tt (queued [replicateResp calmFollower snapshotMsg 4]
                (set_log (entryLog.restore (log calmFollower)
                            (pb.mSnapshot snapshotMsg))
                   (heardFrom snapshotMsg calmFollower))).
Proof.
  assert (H : isObserver calmFollower = true
              \/ nodeID calmFollower
                 ∉ pb.Observers (pb.ssMembership (pb.mSnapshot snapshotMsg)))
    by (right; simpl; set_solver).
  split; [exact H|].
  exact (proj1 (handleFollowerInstallSnapshot_reply snapshotMsg calmFollower H)).
Defined.

Lemma handleLeaderPropose_dropped_witness :
  (state transferringLeader = leader
   /\ (remotes transferringLeader !! nodeID transferringLeader = None
       \/ leaderTransferTarget transferringLeader <> NoNode))
  /\ handleLeaderPropose proposal transferringLeader = Ok tt transferringLeader
  /\ (pb.mType proposal = pb.Propose -> pb.mTerm proposal = 0 ->
      Handle proposal transferringLeader = Ok tt transferringLeader).
Proof.
  assert (H1 : state transferringLeader = leader) by reflexivity.
  assert (H2 : remotes transferringLeader !! nodeID transferringLeader = None
               \/ leaderTransferTarget transferringLeader <> NoNode)
    by (right; discriminate).
  split; [split; assumption|].
  exact (handleLeaderPropose_dropped proposal transferringLeader H1 H2).
Defined.

(** C9, as stated, fails for a draw that is not a multiple of 10: with the
    value 1 the timeout is 11 and after ten ticks the node is still a
    follower at term 0 with an empty log. *)
Lemma ten_ticks_not_enough :
  exists r0 r,
    newRaft (exampleEnv 1) (singleConfig 1 false) singleLogDB = Ok tt r0
    /\ randomizedElectionTimeout r0 = 11
    /\ ticks 10 r0 = Ok tt r
    /\ state r = follower /\ term r = 0 /\ entryLog.ents (log r) = [].
Proof.
  eexists. eexists. split; [vm_compute; reflexivity|].
  split; [reflexivity|]. split; [vm_compute; reflexivity|].
  repeat split; reflexivity.
Qed.

Lemma single_node_election_witness :
  exists r0,
    newRaft (exampleEnv 7) (singleConfig 1 false) singleLogDB = Ok tt r0
    /\ randomizedElectionTimeout r0 = 17
    /\ (forall n, (n < 17)%nat ->
          exists r, ticks n r0 = Ok tt r /\ state r = follower /\ term r = 0
                    /\ entryLog.ents (log r) = [])
    /\ exists r, ticks 17 r0 = Ok tt r
         /\ state r = leader /\ term r = 1
         /\ entryLog.ents (log r) = [pb.mkEntry 1 1 pb.ApplicationEntry []]
         /\ entryLog.committed (log r) = 1.
Proof. exact (single_node_election (exampleEnv 7) 1 false). Defined.

(** * Further properties of the code *)

(** ** Invariants of a step *)

Section PreservesRules.

Context (P : raft -> Prop).

Lemma pres_ret {A : Type} (a : A) : preserves P (ret a).
Proof. intros r b r' H E. unfold ret in E. congruence. Qed.

Lemma pres_panic {A : Type} : preserves P (@panic A).
Proof. intros r b r' H E. discriminate. Qed.

Lemma pres_diverge {A : Type} : preserves P (@diverge A).
Proof. intros r b r' H E. discriminate. Qed.

Lemma pres_bind {A B : Type} (c : M A) (k : A -> M B) :
  preserves P c -> (forall a, preserves P (k a)) -> preserves P (bind c k).
Proof.
  intros Hc Hk r b r' H E. apply bind_Ok in E as (a & r1 & E1 & E2).
  eapply Hk; [|exact E2]. eapply Hc; eauto.
Qed.

Lemma pres_get {B : Type} (k : raft -> M B) :
  (forall r0, P r0 -> preserves P (k r0)) -> preserves P (bind get k).
Proof.
  intros Hk r b r' H E. unfold bind, get in E. eapply Hk; eauto.
Qed.

Lemma pres_modify (g : raft -> raft) :
  (forall r, P r -> P (g r)) -> preserves P (modify g).
Proof.
  intros Hg r b r' H E. unfold modify in E. injection E as _ <-.
  apply Hg, H.
Qed.

Lemma pres_load p : preserves P (load p).
Proof.
  intros r a r' H E. unfold load in E.
  destruct (deref p r); congruence.
Qed.

Lemma pres_forM {K : Type} (l : list K) (h : K -> M unit) :
  (forall k, preserves P (h k)) -> preserves P (forM_ l h).
Proof.
  intros Hh. induction l as [|k l IH]; simpl.
  - apply pres_ret.
  - apply pres_bind; auto.
Qed.

Lemma pres_foldM {K A : Type} (h : A -> K -> M A) (l : list K) (a : A) :
  (forall a k, preserves P (h a k)) -> preserves P (foldM h l a).
Proof.
  intros Hh. revert a. induction l as [|k l IH]; intros a; simpl.
  - apply pres_ret.
  - apply pres_bind; auto.
Qed.

(** The two loops of the code that are recursive functions of their own. *)
Lemma pres_guardConfigChanges es :
  preserves P setPendingConfigChange ->
  preserves P (guardConfigChanges es).
Proof.
  intros HP. induction es as [|e es IH]; simpl.
  - apply pres_ret.
  - apply pres_bind; [|intros e'; apply pres_bind; [exact IH|]].
    + destruct (isConfigChange e); [|apply pres_ret].
      apply pres_get; intros r0 _. apply pres_bind; [|intros; apply pres_ret].
      exact HP.
    + intros rest. apply pres_ret.
Qed.

Lemma pres_getPendingConfigChangeCountFrom fuel idx count :
  preserves P (getPendingConfigChangeCountFrom fuel idx count).
Proof.
  revert idx count. induction fuel as [|fuel IH]; intros idx count; simpl.
  - apply pres_diverge.
  - apply pres_get; intros r0 _.
    destruct (entryLog.entries _ _ _) as [ents|]; [|apply pres_panic].
    destruct (last ents); [apply IH|apply pres_ret].
Qed.

End PreservesRules.

Create HintDb pres.
#[local] Hint Resolve pres_ret pres_panic pres_diverge pres_load
  pres_getPendingConfigChangeCountFrom : pres.


Create HintDb pres.
#[local] Hint Resolve pres_ret pres_panic pres_diverge pres_load
  pres_getPendingConfigChangeCountFrom : pres.

(** One step of a proof that a computation preserves a property, following
    the structure of the program; the functions it calls are looked up among
    the lemmas already proved. *)
Ltac pres_modify_side :=
  repeat match goal with
    | |- context [store ?p _ _] => destruct p; cbn [store]
    | |- context [if ?b then _ else _] => destruct b
    end;
  auto.

Ltac pres_step :=
  match goal with
  | |- preserves _ (bind get _) => apply pres_get; intros ? ?
  | |- preserves _ (bind _ _) => apply pres_bind; [|intros ?]
  | |- preserves _ (modify _) =>
      apply pres_modify; intros ? ?; cbv beta; solve [pres_modify_side]
  | |- preserves _ (forM_ _ _) => apply pres_forM; intros ?
  | |- preserves _ (foldM _ _ _) => apply pres_foldM; intros ? ?
  | |- preserves _ (if ?b then _ else _) => destruct b
  | |- preserves _ (match ?o with _ => _ end) => destruct o
  | |- preserves _ (let _ := _ in _) => cbv zeta
  | |- preserves _ _ => solve [eauto with pres]
  end.

Ltac pres_auto := repeat pres_step.

Lemma pres_HandleN (P : raft -> Prop) :
  (forall H : pb.Message -> M unit,
     (forall m, preserves P (H m)) -> forall m, preserves P (HandleWith H m)) ->
  forall depth m, preserves P (HandleN depth m).
Proof.
  intros HW. induction depth as [|d IH]; intros m; simpl.
  - apply pres_diverge.
  - apply HW, IH.
Qed.

(** Every entry of the dispatch table, with the message type it is
    registered for. *)
Lemma handlers_cases (H : pb.Message -> M unit)
    (Q : pb.MessageType -> (pb.Message -> M unit) -> Prop) st t :
  Q pb.Heartbeat handleCandidateHeartbeat ->
  Q pb.Propose handleCandidatePropose ->
  Q pb.Replicate handleCandidateReplicate ->
  Q pb.InstallSnapshot handleCandidateInstallSnapshot ->
  Q pb.RequestVoteResp handleCandidateRequestVoteResp ->
  Q pb.Election handleNodeElection ->
  Q pb.RequestVote handleNodeRequestVote ->
  Q pb.Propose handleFollowerPropose ->
  Q pb.Replicate handleFollowerReplicate ->
  Q pb.Heartbeat handleFollowerHeartbeat ->
  Q pb.ReadIndex handleFollowerReadIndex ->
  Q pb.LeaderTransfer handleFollowerLeaderTransfer ->
  Q pb.ReadIndexResp handleFollowerReadIndexResp ->
  Q pb.InstallSnapshot handleFollowerInstallSnapshot ->
  Q pb.TimeoutNow (handleFollowerTimeoutNow H) ->
  Q pb.LeaderHeartbeat handleLeaderLeaderHeartbeat ->
  Q pb.CheckQuorum handleLeaderCheckQuorum ->
  Q pb.Propose handleLeaderPropose ->
  Q pb.ReadIndex handleLeaderReadIndex ->
  Q pb.ReplicateResp (lw handleLeaderReplicateResp) ->
  Q pb.HeartbeatResp (lw handleLeaderHeartbeatResp) ->
  Q pb.SnapshotStatus (lw handleLeaderSnapshotStatus) ->
  Q pb.Unreachable (lw handleLeaderUnreachable) ->
  Q pb.LeaderTransfer (lw handleLeaderLeaderTransfer) ->
  forall f, handlers H st t = Some f -> Q t f.
Proof.
  intros. destruct st, t; simpl in *; try discriminate;
    match goal with E : Some _ = Some _ |- _ => injection E as <- end;
    assumption.
Qed.

(** The two outputs, for a property that does not look at them. *)
Lemma pres_send (P : raft -> Prop) m :
  (forall v r, P r -> P (set_msgs v r)) -> preserves P (send m).
Proof.
  intros HP. unfold send.
  apply pres_get; intros r0 _. apply pres_bind; [|intros m'].
  - unfold finalizeMessageTerm. apply pres_get; intros r1 _.
    repeat match goal with
      | |- preserves _ (if ?b then _ else _) => destruct b
      end; auto using pres_panic, pres_ret.
  - apply pres_modify. intros r H. apply HP, H.
Qed.

Lemma pres_addReadyToRead (P : raft -> Prop) i c :
  (forall v r, P r -> P (set_readyToRead v r)) ->
  preserves P (addReadyToRead i c).
Proof. intros HP. apply pres_modify. intros r H. apply HP, H. Qed.

(** *** What the functions of the node leave alone

    A property of the state that every assignment of the code preserves is
    preserved by every function; each lemma below depends on the assignments
    its function can reach and on no other. *)

Section Frame.

Variable P : raft -> Prop.

Hypothesis P_applied : forall v r, P r -> P (set_applied v r).
Hypothesis P_term : forall v r, P r -> P (set_term v r).
Hypothesis P_vote : forall v r, P r -> P (set_vote v r).
Hypothesis P_log : forall v r, P r -> P (set_log v r).
Hypothesis P_remotes : forall v r, P r -> P (set_remotes v r).
Hypothesis P_observers : forall v r, P r -> P (set_observers v r).
Hypothesis P_state : forall v r, P r -> P (set_state v r).
Hypothesis P_votes : forall v r, P r -> P (set_votes v r).
Hypothesis P_leaderID : forall v r, P r -> P (set_leaderID v r).
(** A transfer of leadership is recorded by [handleLeaderLeaderTransfer] and
    given up everywhere else; the flag of the target is raised by
    [handleFollowerTimeoutNow] and lowered everywhere else. *)
Hypothesis P_leaderTransferTarget :
  forall v r, P r -> P (set_leaderTransferTarget v r).
Hypothesis P_abortLeaderTransfer :
  forall r, P r -> P (set_leaderTransferTarget NoNode r).
Hypothesis P_isLeaderTransferTarget :
  forall v r, P r -> P (set_isLeaderTransferTarget v r).
Hypothesis P_notLeaderTransferTarget :
  forall r, P r -> P (set_isLeaderTransferTarget false r).
Hypothesis P_setPendingConfigChange :
  forall r, P r -> P (set_pendingConfigChange true r).
Hypothesis P_clearPendingConfigChange :
  forall r, P r -> P (set_pendingConfigChange false r).
Hypothesis P_readIndex : forall v r, P r -> P (set_readIndex v r).
Hypothesis P_tickCount : forall v r, P r -> P (set_tickCount v r).
Hypothesis P_electionTick : forall v r, P r -> P (set_electionTick v r).
Hypothesis P_heartbeatTick : forall v r, P r -> P (set_heartbeatTick v r).
Hypothesis P_randomizedElectionTimeout :
  forall v r, P r -> P (set_randomizedElectionTimeout v r).
Hypothesis P_matched : forall v r, P r -> P (set_matched v r).
Hypothesis P_randPos : forall v r, P r -> P (set_randPos v r).
(** [reset] gives every member a fresh progress record. *)
Hypothesis P_resetRemotes :
  forall r, P r ->
    P (set_remotes (map_imap (fun id _ => Some (freshRemote r id)) (remotes r))
         r).
Hypothesis P_resetObservers :
  forall r, P r ->
    P (set_observers
         (map_imap (fun id _ => Some (freshRemote r id)) (observers r)) r).
(** The two outputs are only added to. *)
Hypothesis P_send : forall m, preserves P (send m).
Hypothesis P_addReadyToRead :
  forall i c, preserves P (addReadyToRead i c).

#[local] Hint Resolve P_send P_addReadyToRead : pres.

Lemma frame_update p f : preserves P (update p f).
Proof. unfold update. pres_auto. Qed.
#[local] Hint Resolve frame_update : pres.

Lemma frame_setApplied a : preserves P (setApplied a).
Proof. unfold setApplied. pres_auto. Qed.

Lemma frame_resetMatchValueArray : preserves P resetMatchValueArray.
Proof. unfold resetMatchValueArray. pres_auto. Qed.

Lemma frame_setLeaderID l : preserves P (setLeaderID l).
Proof. unfold setLeaderID. pres_auto. Qed.

Lemma frame_abortLeaderTransfer : preserves P abortLeaderTransfer.
Proof. apply pres_modify. exact P_abortLeaderTransfer. Qed.
#[local] Hint Resolve frame_resetMatchValueArray frame_setLeaderID
  frame_abortLeaderTransfer : pres.

Lemma frame_leaderHasQuorum : preserves P leaderHasQuorum.
Proof. unfold leaderHasQuorum. pres_auto. Qed.

Lemma frame_loadState st : preserves P (loadState st).
Proof. unfold loadState. pres_auto. Qed.

Lemma frame_restore ss : preserves P (restore ss).
Proof. unfold restore. pres_auto. Qed.

Lemma frame_quiescedTick : preserves P quiescedTick.
Proof. unfold quiescedTick. pres_auto. Qed.

Lemma frame_setRandomizedElectionTimeout :
  preserves P setRandomizedElectionTimeout.
Proof. unfold setRandomizedElectionTimeout. pres_auto. Qed.

Lemma frame_finalizeMessageTerm m : preserves P (finalizeMessageTerm m).
Proof. unfold finalizeMessageTerm. pres_auto. Qed.

Lemma frame_makeInstallSnapshotMessage to m :
  preserves P (makeInstallSnapshotMessage to m).
Proof. unfold makeInstallSnapshotMessage. pres_auto. Qed.

Lemma frame_makeReplicateMessage to n s :
  preserves P (makeReplicateMessage to n s).
Proof. unfold makeReplicateMessage. pres_auto. Qed.
#[local] Hint Resolve frame_leaderHasQuorum frame_restore
  frame_setRandomizedElectionTimeout frame_makeInstallSnapshotMessage
  frame_makeReplicateMessage : pres.

Lemma frame_sendReplicateMessage to : preserves P (sendReplicateMessage to).
Proof. unfold sendReplicateMessage. pres_auto. Qed.
#[local] Hint Resolve frame_sendReplicateMessage : pres.

Lemma frame_broadcastReplicateMessage : preserves P broadcastReplicateMessage.
Proof. unfold broadcastReplicateMessage. pres_auto. Qed.

Lemma frame_sendHeartbeatMessage to h o :
  preserves P (sendHeartbeatMessage to h o).
Proof. unfold sendHeartbeatMessage. pres_auto. Qed.
#[local] Hint Resolve frame_broadcastReplicateMessage
  frame_sendHeartbeatMessage : pres.

Lemma frame_broadcastHeartbeatMessageWithHint c :
  preserves P (broadcastHeartbeatMessageWithHint c).
Proof. unfold broadcastHeartbeatMessageWithHint. pres_auto. Qed.
#[local] Hint Resolve frame_broadcastHeartbeatMessageWithHint : pres.

Lemma frame_broadcastHeartbeatMessage : preserves P broadcastHeartbeatMessage.
Proof. unfold broadcastHeartbeatMessage. pres_auto. Qed.

Lemma frame_sendTimeoutNowMessage t : preserves P (sendTimeoutNowMessage t).
Proof. unfold sendTimeoutNowMessage. pres_auto. Qed.

Lemma frame_sortMatchValues : preserves P sortMatchValues.
Proof. unfold sortMatchValues. pres_auto. Qed.
#[local] Hint Resolve frame_broadcastHeartbeatMessage
  frame_sendTimeoutNowMessage frame_sortMatchValues : pres.

Lemma frame_tryCommit : preserves P tryCommit.
Proof. unfold tryCommit. pres_auto. Qed.
#[local] Hint Resolve frame_tryCommit : pres.

Lemma frame_appendEntries es : preserves P (appendEntries es).
Proof. unfold appendEntries. pres_auto. Qed.

Lemma frame_setPendingConfigChange : preserves P setPendingConfigChange.
Proof. apply pres_modify. exact P_setPendingConfigChange. Qed.

Lemma frame_clearPendingConfigChange : preserves P clearPendingConfigChange.
Proof. apply pres_modify. exact P_clearPendingConfigChange. Qed.

Lemma frame_resetRemotes : preserves P resetRemotes.
Proof. apply pres_modify. exact P_resetRemotes. Qed.

Lemma frame_resetObservers : preserves P resetObservers.
Proof. apply pres_modify. exact P_resetObservers. Qed.
#[local] Hint Resolve frame_appendEntries frame_setPendingConfigChange
  frame_clearPendingConfigChange frame_resetRemotes frame_resetObservers
  : pres.

Lemma frame_reset tm : preserves P (reset tm).
Proof. unfold reset. pres_auto. Qed.

Lemma frame_getPendingConfigChangeCount :
  preserves P getPendingConfigChangeCount.
Proof. unfold getPendingConfigChangeCount. pres_auto. Qed.
#[local] Hint Resolve frame_reset frame_getPendingConfigChangeCount : pres.

Lemma frame_preLeaderPromotionHandleConfigChange :
  preserves P preLeaderPromotionHandleConfigChange.
Proof. unfold preLeaderPromotionHandleConfigChange. pres_auto. Qed.
#[local] Hint Resolve frame_preLeaderPromotionHandleConfigChange : pres.

Lemma frame_becomeObserver tm l : preserves P (becomeObserver tm l).
Proof. unfold becomeObserver. pres_auto. Qed.

Lemma frame_becomeFollower tm l : preserves P (becomeFollower tm l).
Proof. unfold becomeFollower. pres_auto. Qed.

Lemma frame_becomeCandidate : preserves P becomeCandidate.
Proof. unfold becomeCandidate. pres_auto. Qed.

Lemma frame_becomeLeader : preserves P becomeLeader.
Proof. unfold becomeLeader. pres_auto. Qed.

Lemma frame_handleVoteResp from rej : preserves P (handleVoteResp from rej).
Proof. unfold handleVoteResp. pres_auto. Qed.
#[local] Hint Resolve frame_becomeObserver frame_becomeFollower
  frame_becomeCandidate frame_becomeLeader frame_handleVoteResp : pres.

Lemma frame_campaign : preserves P campaign.
Proof.
  unfold campaign.
  repeat first
    [ apply pres_modify; exact P_notLeaderTransferTarget | pres_step ].
Qed.
#[local] Hint Resolve frame_campaign : pres.

Lemma frame_deleteRemote n : preserves P (deleteRemote n).
Proof. unfold deleteRemote. pres_auto. Qed.

Lemma frame_deleteObserver n : preserves P (deleteObserver n).
Proof. unfold deleteObserver. pres_auto. Qed.

Lemma frame_setRemote n m x : preserves P (setRemote n m x).
Proof. unfold setRemote. pres_auto. Qed.

Lemma frame_setObserver n m x : preserves P (setObserver n m x).
Proof. unfold setObserver. pres_auto. Qed.
#[local] Hint Resolve frame_deleteRemote frame_deleteObserver frame_setRemote
  frame_setObserver : pres.

Lemma frame_addNode n : preserves P (addNode n).
Proof. unfold addNode. pres_auto. Qed.

Lemma frame_addObserver n : preserves P (addObserver n).
Proof. unfold addObserver. pres_auto. Qed.

Lemma frame_removeNode n : preserves P (removeNode n).
Proof. unfold removeNode. pres_auto. Qed.

Lemma frame_restoredProgress n : preserves P (restoredProgress n).
Proof. unfold restoredProgress. pres_auto. Qed.
#[local] Hint Resolve frame_restoredProgress : pres.

Lemma frame_restoreRemotes ss : preserves P (restoreRemotes ss).
Proof. unfold restoreRemotes. pres_auto. Qed.

Lemma frame_handleHeartbeatMessage m : preserves P (handleHeartbeatMessage m).
Proof. unfold handleHeartbeatMessage. pres_auto. Qed.

Lemma frame_handleInstallSnapshotMessage m :
  preserves P (handleInstallSnapshotMessage m).
Proof. unfold handleInstallSnapshotMessage. pres_auto. Qed.

Lemma frame_handleReplicateMessage m : preserves P (handleReplicateMessage m).
Proof. unfold handleReplicateMessage. pres_auto. Qed.

Lemma frame_doubleCheckTermMatched t : preserves P (doubleCheckTermMatched t).
Proof. unfold doubleCheckTermMatched. pres_auto. Qed.
#[local] Hint Resolve frame_handleHeartbeatMessage
  frame_handleInstallSnapshotMessage frame_handleReplicateMessage
  frame_doubleCheckTermMatched : pres.

Lemma frame_onMessageTermNotMatched m :
  preserves P (onMessageTermNotMatched m).
Proof. unfold onMessageTermNotMatched. pres_auto. Qed.

Lemma frame_handleNodeElection m : preserves P (handleNodeElection m).
Proof. unfold handleNodeElection. pres_auto. Qed.

Lemma frame_handleNodeRequestVote m : preserves P (handleNodeRequestVote m).
Proof. unfold handleNodeRequestVote. pres_auto. Qed.

Lemma frame_handleLeaderLeaderHeartbeat m :
  preserves P (handleLeaderLeaderHeartbeat m).
Proof. unfold handleLeaderLeaderHeartbeat. pres_auto. Qed.

Lemma frame_handleLeaderCheckQuorum m :
  preserves P (handleLeaderCheckQuorum m).
Proof. unfold handleLeaderCheckQuorum. pres_auto. Qed.

Lemma frame_guardConfigChanges es : preserves P (guardConfigChanges es).
Proof. apply pres_guardConfigChanges. apply frame_setPendingConfigChange. Qed.
#[local] Hint Resolve frame_guardConfigChanges : pres.

Lemma frame_handleLeaderPropose m : preserves P (handleLeaderPropose m).
Proof. unfold handleLeaderPropose. pres_auto. Qed.

Lemma frame_hasCommittedEntryAtCurrentTerm :
  preserves P hasCommittedEntryAtCurrentTerm.
Proof. unfold hasCommittedEntryAtCurrentTerm. pres_auto. Qed.
#[local] Hint Resolve frame_hasCommittedEntryAtCurrentTerm : pres.

Lemma frame_handleLeaderReadIndex m : preserves P (handleLeaderReadIndex m).
Proof. unfold handleLeaderReadIndex. pres_auto. Qed.

Lemma frame_enterRetryState p : preserves P (enterRetryState p).
Proof. unfold enterRetryState. pres_auto. Qed.
#[local] Hint Resolve frame_enterRetryState : pres.

Lemma frame_handleLeaderReplicateResp m p :
  preserves P (handleLeaderReplicateResp m p).
Proof. unfold handleLeaderReplicateResp. pres_auto. Qed.

Lemma frame_handleReadIndexLeaderConfirmation m :
  preserves P (handleReadIndexLeaderConfirmation m).
Proof. unfold handleReadIndexLeaderConfirmation. pres_auto. Qed.
#[local] Hint Resolve frame_handleReadIndexLeaderConfirmation : pres.

Lemma frame_handleLeaderHeartbeatResp m p :
  preserves P (handleLeaderHeartbeatResp m p).
Proof. unfold handleLeaderHeartbeatResp. pres_auto. Qed.

Lemma frame_handleLeaderLeaderTransfer m p :
  preserves P (handleLeaderLeaderTransfer m p).
Proof. unfold handleLeaderLeaderTransfer. pres_auto. Qed.

Lemma frame_handleLeaderSnapshotStatus m p :
  preserves P (handleLeaderSnapshotStatus m p).
Proof. unfold handleLeaderSnapshotStatus. pres_auto. Qed.

Lemma frame_handleLeaderUnreachable m p :
  preserves P (handleLeaderUnreachable m p).
Proof. unfold handleLeaderUnreachable. pres_auto. Qed.

Lemma frame_lw f m : (forall p, preserves P (f m p)) -> preserves P (lw f m).
Proof. intros Hf. unfold lw. pres_auto. Qed.

Lemma frame_handleFollowerPropose m : preserves P (handleFollowerPropose m).
Proof. unfold handleFollowerPropose. pres_auto. Qed.

Lemma frame_handleFollowerReplicate m :
  preserves P (handleFollowerReplicate m).
Proof. unfold handleFollowerReplicate. pres_auto. Qed.

Lemma frame_handleFollowerHeartbeat m :
  preserves P (handleFollowerHeartbeat m).
Proof. unfold handleFollowerHeartbeat. pres_auto. Qed.

Lemma frame_handleFollowerReadIndex m :
  preserves P (handleFollowerReadIndex m).
Proof. unfold handleFollowerReadIndex. pres_auto. Qed.

Lemma frame_handleFollowerLeaderTransfer m :
  preserves P (handleFollowerLeaderTransfer m).
Proof. unfold handleFollowerLeaderTransfer. pres_auto. Qed.

Lemma frame_handleFollowerReadIndexResp m :
  preserves P (handleFollowerReadIndexResp m).
Proof. unfold handleFollowerReadIndexResp. pres_auto. Qed.

Lemma frame_handleFollowerInstallSnapshot m :
  preserves P (handleFollowerInstallSnapshot m).
Proof. unfold handleFollowerInstallSnapshot. pres_auto. Qed.

Lemma frame_handleCandidatePropose m :
  preserves P (handleCandidatePropose m).
Proof. unfold handleCandidatePropose. pres_auto. Qed.

Lemma frame_handleCandidateReplicate m :
  preserves P (handleCandidateReplicate m).
Proof. unfold handleCandidateReplicate. pres_auto. Qed.

Lemma frame_handleCandidateInstallSnapshot m :
  preserves P (handleCandidateInstallSnapshot m).
Proof. unfold handleCandidateInstallSnapshot. pres_auto. Qed.

Lemma frame_handleCandidateHeartbeat m :
  preserves P (handleCandidateHeartbeat m).
Proof. unfold handleCandidateHeartbeat. pres_auto. Qed.

Lemma frame_handleCandidateRequestVoteResp m :
  preserves P (handleCandidateRequestVoteResp m).
Proof. unfold handleCandidateRequestVoteResp. pres_auto. Qed.

Section FrameDispatch.

Variable H : pb.Message -> M unit.

(** The messages a tick hands to [Handle]. *)
Hypothesis P_H :
  forall n t, t = pb.Election \/ t = pb.CheckQuorum \/ t = pb.LeaderHeartbeat ->
              preserves P (H (pb.with_From n (pb.msg t 0))).

Lemma frame_nonLeaderTickWith : preserves P (nonLeaderTickWith H).
Proof.
  unfold nonLeaderTickWith.
  repeat first [ apply P_H; auto | pres_step ].
Qed.

Lemma frame_leaderTickWith : preserves P (leaderTickWith H).
Proof.
  unfold leaderTickWith.
  repeat first [ apply P_H; auto | pres_step ].
Qed.
#[local] Hint Resolve frame_nonLeaderTickWith frame_leaderTickWith : pres.

Lemma frame_tickWith : preserves P (tickWith H).
Proof. unfold tickWith. pres_auto. Qed.
#[local] Hint Resolve frame_tickWith : pres.

Lemma frame_handleFollowerTimeoutNow m :
  preserves P (handleFollowerTimeoutNow H m).
Proof. unfold handleFollowerTimeoutNow. pres_auto. Qed.

Lemma frame_defaultHandle m : preserves P (defaultHandle H m).
Proof.
  unfold defaultHandle. apply pres_get; intros r0 _.
  destruct (handlers H (state r0) (pb.mType m)) as [f|] eqn:Ef;
    [|apply pres_ret].
  revert f Ef.
  apply (handlers_cases H (fun _ f => preserves P (f m)));
    first [ apply frame_lw; intros p | idtac ];
    auto using frame_handleCandidateHeartbeat, frame_handleCandidatePropose,
      frame_handleCandidateReplicate, frame_handleCandidateInstallSnapshot,
      frame_handleCandidateRequestVoteResp, frame_handleNodeElection,
      frame_handleNodeRequestVote, frame_handleFollowerPropose,
      frame_handleFollowerReplicate, frame_handleFollowerHeartbeat,
      frame_handleFollowerReadIndex, frame_handleFollowerLeaderTransfer,
      frame_handleFollowerReadIndexResp, frame_handleFollowerInstallSnapshot,
      frame_handleFollowerTimeoutNow, frame_handleLeaderLeaderHeartbeat,
      frame_handleLeaderCheckQuorum, frame_handleLeaderPropose,
      frame_handleLeaderReadIndex, frame_handleLeaderReplicateResp,
      frame_handleLeaderHeartbeatResp, frame_handleLeaderSnapshotStatus,
      frame_handleLeaderUnreachable, frame_handleLeaderLeaderTransfer.
Qed.

Lemma frame_HandleWith m : preserves P (HandleWith H m).
Proof.
  unfold HandleWith.
  apply pres_bind; [apply frame_onMessageTermNotMatched|intros ign].
  destruct ign; simpl; [apply pres_ret|].
  apply pres_bind; [apply frame_doubleCheckTermMatched|intros _].
  apply frame_defaultHandle.
Qed.

End FrameDispatch.

Lemma frame_Handle m : preserves P (Handle m).
Proof.
  apply pres_HandleN. intros H HH. apply frame_HandleWith.
  intros n t _. apply HH.
Qed.

Lemma frame_tick : preserves P tick.
Proof. apply frame_tickWith. intros n t _. apply frame_Handle. Qed.

End Frame.

(** One assignment that leaves the property where it was. *)
Ltac frame_same := intros; first [assumption | reflexivity].

(** *** The configuration is fixed *)

Lemma config_Handle x m : preserves (fun r => configOf r = x) (Handle m).
Proof.
  apply frame_Handle; try frame_same.
  - intros m0. apply pres_send. frame_same.
  - intros i c. apply pres_addReadyToRead. frame_same.
Qed.

Lemma config_tick x : preserves (fun r => configOf r = x) tick.
Proof.
  apply frame_tick; try frame_same.
  - intros m0. apply pres_send. frame_same.
  - intros i c. apply pres_addReadyToRead. frame_same.
Qed.

(** X1.  Neither a tick nor a message changes what construction has fixed:
    the ids of the node and of its cluster, check-quorum, the election and
    heartbeat timeouts and the size limits. *)
Theorem step_keeps_config (i : input) (r r' : raft) :
  step i r = Ok tt r' -> configOf r' = configOf r.
Proof.
  intros E. destruct i as [|m]; simpl in E.
  - exact (config_tick (configOf r) r tt r' eq_refl E).
  - exact (config_Handle (configOf r) m r tt r' eq_refl E).
Qed.

(** *** An observer stays an observer *)

Lemma observer_onMessageTermNotMatched m :
  preserves (fun r => state r = observer) (onMessageTermNotMatched m).
Proof.
  unfold onMessageTermNotMatched. apply pres_get; intros r0 H0.
  assert (isObserver r0 = true) as ->
    by (unfold isObserver; rewrite H0; reflexivity).
  repeat match goal with
    | |- preserves _ (if ?b then _ else _) => destruct b
    | |- preserves _ (bind _ _) => apply pres_bind; [|intros ?]
    | |- preserves _ (ret _) => apply pres_ret
    | |- preserves _ (send _) => apply pres_send; frame_same
    | |- preserves _ (becomeObserver _ _) =>
        apply frame_becomeObserver; frame_same
    end.
Qed.

Lemma observer_HandleWith (H : pb.Message -> M unit) m :
  preserves (fun r => state r = observer) (HandleWith H m).
Proof.
  unfold HandleWith.
  apply pres_bind; [apply observer_onMessageTermNotMatched|intros ign].
  destruct ign; simpl; [apply pres_ret|].
  apply pres_bind; [apply frame_doubleCheckTermMatched|intros _].
  unfold defaultHandle. apply pres_get; intros r0 H0. rewrite H0.
  destruct (pb.mType m); simpl; try apply pres_ret;
    unfold handleObserverPropose, handleObserverReplicate,
      handleObserverHeartbeat, handleObserverReadIndex,
      handleObserverReadIndexResp, handleObserverSnapshot;
    first [ apply frame_handleFollowerPropose
          | apply frame_handleFollowerReplicate
          | apply frame_handleFollowerHeartbeat
          | apply frame_handleFollowerReadIndex
          | apply frame_handleFollowerReadIndexResp
          | apply frame_handleFollowerInstallSnapshot ];
    first [ intros m0; apply pres_send; frame_same
          | intros i c; apply pres_addReadyToRead; frame_same
          | frame_same ].
Qed.

Lemma observer_tickWith (H : pb.Message -> M unit) :
  preserves (fun r => state r = observer) (tickWith H).
Proof.
  unfold tickWith. apply pres_bind; [apply pres_modify; frame_same|intros _].
  apply pres_get; intros r0 H0. rewrite H0. simpl.
  unfold nonLeaderTickWith. apply pres_get; intros r1 H1. rewrite H1. simpl.
  apply pres_bind; [apply pres_modify; frame_same|intros _].
  apply pres_get; intros r2 H2.
  assert (isObserver r2 = true) as ->
    by (unfold isObserver; rewrite H2; reflexivity).
  apply pres_ret.
Qed.

(** X2.  A node in the observer state is still an observer after any tick
    and any message, whatever the term of the message. *)
Theorem observer_stays_observer (i : input) (r r' : raft) :
  state r = observer -> step i r = Ok tt r' -> state r' = observer.
Proof.
  intros Hs E. destruct i as [|m]; simpl in E.
  - exact (observer_tickWith Handle r tt r' Hs E).
  - exact (observer_HandleWith (HandleN 1) m r tt r' Hs E).
Qed.

(** *** The output buffers only grow *)

Lemma outputGrows_refl r : outputGrows r r.
Proof.
  split; [reflexivity|]. split; [|reflexivity].
  exists []. rewrite app_nil_r. split; [reflexivity|constructor].
Qed.

Lemma outputGrows_send r0 m : preserves (outputGrows r0) (send m).
Proof.
  intros r [] r' (N & (new & Hm & F) & R) E.
  unfold send, finalizeMessageTerm, bind, get in E.
  destruct (_ && _); [discriminate|]. destruct (_ && _); [discriminate|].
  destruct (negb _); simpl in E; unfold modify in E; injection E as <-;
    (split; [exact N|]; split; [|exact R]; simpl;
     eexists; split; [rewrite Hm, <- app_assoc; reflexivity|];
     apply Forall_app; split; [exact F|]; repeat constructor; exact N).
Qed.

Lemma outputGrows_addReadyToRead r0 i c :
  preserves (outputGrows r0) (addReadyToRead i c).
Proof.
  intros r [] r' (N & Hm & R) E. unfold addReadyToRead, modify in E.
  injection E as <-.
  split; [exact N|]. split; [exact Hm|]. simpl.
  etrans; [exact R|]. apply prefix_app_r. reflexivity.
Qed.

Lemma outputGrows_Handle r0 m : preserves (outputGrows r0) (Handle m).
Proof.
  apply frame_Handle; try frame_same.
  - apply outputGrows_send.
  - apply outputGrows_addReadyToRead.
Qed.

Lemma outputGrows_tick r0 : preserves (outputGrows r0) tick.
Proof.
  apply frame_tick; try frame_same.
  - apply outputGrows_send.
  - apply outputGrows_addReadyToRead.
Qed.

(** X3.  A step only adds to the output of the node: the messages queued
    before are still there, in order, the new ones come after them and
    carry the id of the node as their sender, and the ready-to-read records
    queued before are a prefix of those queued after. *)
Theorem step_output_grows (i : input) (r r' : raft) :
  step i r = Ok tt r' ->
  (exists new, msgs r' = msgs r ++ new
               /\ Forall (fun m => pb.mFrom m = nodeID r) new)
  /\ readyToRead r `prefix_of` readyToRead r'.
Proof.
  intros E.
  assert (H : outputGrows r r').
  { destruct i as [|m]; simpl in E.
    - exact (outputGrows_tick r r tt r' (outputGrows_refl r) E).
    - exact (outputGrows_Handle r m r tt r' (outputGrows_refl r) E). }
  exact (proj2 H).
Qed.
(** ** Messages that are dropped or passed on *)

(** X4.  A message from a lower term never reaches a handler: the state
    stays as it is, except that a leader message (Replicate, Heartbeat,
    InstallSnapshot, TimeoutNow, ReadIndexResp) is answered with one [NoOP]
    carrying the node's term when check-quorum is enabled. *)
Theorem stale_message_ignored (m : pb.Message) (r : raft) :
  pb.mTerm m <> 0 -> pb.mTerm m < term r ->
  Handle m r
  = Ok tt (if isLeaderMessage (pb.mType m) && checkQuorum r
           then queued [noopReply r m] r else r).
Proof.
  intros H0 Hlt.
  unfold Handle, HandleN, HandleWith, onMessageTermNotMatched,
    dropRequestVoteFromHighTermNode.
  unfold bind at 1. unfold bind at 1, get at 1.
  destruct (Z.eqb_spec (pb.mTerm m) 0); [contradiction|].
  destruct (Z.eqb_spec (pb.mTerm m) (term r)); [lia|]. simpl.
  destruct (Z.leb_spec (pb.mTerm m) (term r)); [|lia].
  rewrite orb_true_r.
  destruct (Z.ltb_spec (term r) (pb.mTerm m)); [lia|].
  destruct (Z.ltb_spec (pb.mTerm m) (term r)); [|lia].
  destruct (isLeaderMessage (pb.mType m) && checkQuorum r); reflexivity.
Qed.

Lemma hasHandler_None (H : pb.Message -> M unit) st t :
  hasHandler st t = false -> handlers H st t = None.
Proof. unfold hasHandler. destruct st, t; simpl; congruence. Qed.

(** X5.  A message for which the role of the node has no handler in the
    dispatch table, and whose term is zero or the node's own, leaves the
    state exactly as it is; so a leader ignores a Replicate, Heartbeat,
    InstallSnapshot or ReadIndexResp of its own term. *)
Theorem unhandled_message_dropped (m : pb.Message) (r : raft) :
  hasHandler (state r) (pb.mType m) = false ->
  pb.mTerm m = 0 \/ pb.mTerm m = term r ->
  Handle m r = Ok tt r.
Proof.
  intros Hh Ht.
  change (Handle m r) with (HandleWith (HandleN 1) m r).
  unfold HandleWith, onMessageTermNotMatched, doubleCheckTermMatched,
    defaultHandle, bind, get.
  assert (E : (pb.mTerm m =? 0) || (pb.mTerm m =? term r) = true).
  { destruct Ht as [-> | ->]; [reflexivity|].
    rewrite Z.eqb_refl. apply orb_true_r. }
  rewrite E. simpl.
  assert (E2 : negb (pb.mTerm m =? 0) && negb (term r =? pb.mTerm m) = false).
  { destruct Ht as [-> | ->]; [reflexivity|].
    rewrite Z.eqb_refl. simpl. apply andb_false_r. }
  rewrite E2. simpl. rewrite (hasHandler_None _ _ _ Hh). reflexivity.
Qed.

(** X6.  A follower or an observer passes a local Propose or ReadIndex on
    to the leader it knows, with itself as the sender and the term left at
    zero, and drops the message when it knows no leader. *)
Theorem request_forwarded_to_leader (m : pb.Message) (r : raft) :
  state r = follower \/ state r = observer ->
  pb.mType m = pb.Propose \/ pb.mType m = pb.ReadIndex ->
  pb.mTerm m = 0 ->
  Handle m r
  = Ok tt (if leaderID r =? NoLeader then r
           else queued [pb.with_From (nodeID r) (pb.with_To (leaderID r) m)] r).
Proof.
  intros Hs Ht Hz.
  change (Handle m r) with (HandleWith (HandleN 1) m r).
  unfold HandleWith, onMessageTermNotMatched, doubleCheckTermMatched,
    defaultHandle, bind, get.
  rewrite Hz. simpl.
  destruct Hs as [-> | ->]; destruct Ht as [Ht|Ht]; rewrite Ht; simpl;
    unfold handleObserverPropose, handleObserverReadIndex,
      handleFollowerPropose, handleFollowerReadIndex, bind, get;
    (destruct (leaderID r =? NoLeader); [reflexivity|]);
    unfold send, finalizeMessageTerm, bind, get, modify; simpl;
    rewrite Hz, Ht; reflexivity.
Qed.

(** X7.  The clock of an observer, of a node that is no longer a member,
    and of a node whose election timeout has not run out yet only moves:
    the tick counts up and nothing else happens, no election starts. *)
Theorem tick_without_election (r : raft) :
  state r <> leader ->
  isObserver r = true \/ selfRemoved r = true
  \/ add64 (electionTick r) 1 < randomizedElectionTimeout r ->
  tick r = Ok tt (clockAdvanced r).
Proof.
  intros Hs Hc.
  assert (Hl : State_eqb (state r) leader = false)
    by (destruct (state r); [reflexivity..|congruence|reflexivity]).
  set (r1 := set_tickCount (add64 (tickCount r) 1) r).
  set (r2 := set_electionTick (add64 (electionTick r1) 1) r1).
  change (clockAdvanced r) with r2.
  unfold tick, tickWith, nonLeaderTickWith, bind, get, modify.
  cbv beta. fold r1. change (state r1) with (state r). rewrite Hl.
  cbv beta iota. change (state r1) with (state r). rewrite Hl.
  cbv beta iota. fold r2.
  change (isObserver r2) with (isObserver r).
  change (selfRemoved r2) with (selfRemoved r).
  destruct (isObserver r) eqn:Ho; [reflexivity|].
  destruct (selfRemoved r) eqn:Hr; [reflexivity|].
  destruct Hc as [?|[?|Hc]]; try discriminate.
  unfold timeForElection.
  change (randomizedElectionTimeout r2) with (randomizedElectionTimeout r).
  change (electionTick r2) with (add64 (electionTick r) 1).
  destruct (Z.leb_spec (randomizedElectionTimeout r)
              (add64 (electionTick r) 1)); [lia|reflexivity].
Qed.

(** ** Quorums and votes *)

(** X8.  The quorum is a strict majority of the voters: two quorums always
    share a voter, one voter less is no majority any more, and the node is
    a quorum by itself exactly when there is at most one voter. *)
Theorem quorum_is_majority (r : raft) :
  let n := Z.of_nat (size (remotes r)) in
  n < 2 * quorum r
  /\ 2 * (quorum r - 1) <= n
  /\ (isSingleNodeQuorum r = true <-> n <= 1).
Proof.
  intros n. unfold isSingleNodeQuorum, quorum. fold n.
  assert (Hn : 0 <= n) by (unfold n; lia).
  pose proof (Z.div_mod n 2 ltac:(lia)) as Hd.
  pose proof (Z.mod_pos_bound n 2 ltac:(lia)) as Hm.
  split; [lia|]. split; [lia|].
  rewrite Z.eqb_eq. lia.
Qed.

Lemma handleVoteResp_eq from rej r :
  exists r', handleVoteResp from rej r
             = Ok (grantedVotes (recordVote from rej (votes r))) r'
    /\ votes r' = recordVote from rej (votes r)
    /\ set_votes (votes r) r' = r.
Proof.
  unfold handleVoteResp, recordVote, grantedVotes, bind, get, modify, ret.
  destruct (votes r !! from); eexists; (split; [reflexivity|]);
    (split; [reflexivity|]); destruct r; reflexivity.
Qed.

Lemma recordVote_twice from rej rej' v :
  recordVote from rej' (recordVote from rej v) = recordVote from rej v.
Proof.
  unfold recordVote. destruct (v !! from) eqn:E.
  - rewrite E. reflexivity.
  - rewrite lookup_insert_eq. reflexivity.
Qed.

(** X9.  A vote is counted once: after a response of a node has been
    recorded, another response of the same node, granting or rejecting,
    changes neither the tally nor the number of granted votes, which is
    never above the number of recorded votes. *)
Theorem vote_counted_once (from : Z) (rej rej' : bool) (r r' : raft) (n : Z) :
  handleVoteResp from rej r = Ok n r' ->
  handleVoteResp from rej' r' = Ok n r'
  /\ 0 <= n <= Z.of_nat (size (votes r')).
Proof.
  intros E.
  destruct (handleVoteResp_eq from rej r) as (r1 & E1 & V1 & _).
  rewrite E in E1. injection E1 as -> ->.
  split.
  - unfold handleVoteResp, bind, get, modify, ret.
    assert (Hl : is_Some (votes r1 !! from)).
    { rewrite V1. unfold recordVote. destruct (votes r !! from) eqn:El.
      - rewrite El. eauto.
      - rewrite lookup_insert_eq. eauto. }
    destruct Hl as [b ->]. rewrite V1. reflexivity.
  - rewrite <- V1. unfold grantedVotes.
    rewrite <- length_map_to_list, <- (length_fmap snd (map_to_list (votes r1))).
    pose proof (List.filter_length_le (fun b : bool => b)
                  (map_to_list (votes r1)).*2). lia.
Qed.

(** ** Role changes *)

Lemma becomeFollower_result tm l r r' :
  becomeFollower tm l r = Ok tt r' ->
  state r' = follower /\ leaderID r' = l
  /\ tvn r' = (tm, if term r =? tm then vote r else NoLeader, nodeID r).
Proof.
  intros E. split; [|split; [|exact (becomeFollower_tvn _ _ _ _ E)]].
  - unfold becomeFollower in E. apply bind_Ok in E as ([] & r1 & E1 & E).
    unfold modify in E1. injection E1 as <-.
    apply bind_Ok in E as ([] & r2 & E2 & E3).
    apply (state_reset follower) in E2; [|reflexivity].
    exact (state_setLeaderID follower l _ _ _ E2 E3).
  - unfold becomeFollower in E. apply bind_Ok in E as ([] & r1 & E1 & E).
    apply bind_Ok in E as ([] & r2 & E2 & E).
    unfold setLeaderID, modify in E. injection E as <-. reflexivity.
Qed.

Lemma leader_broadcastReplicateMessage :
  preserves (fun r => state r = leader) broadcastReplicateMessage.
Proof.
  apply frame_broadcastReplicateMessage; try frame_same.
  intros m. apply pres_send. frame_same.
Qed.

(** X10.  The role of a candidate after a vote response, when the handler
    returns: it is the leader exactly when the sender is no observer and
    the granted votes, this one included, are a quorum; it is a follower
    exactly when they are not and the rejections are a quorum; and it is
    still a candidate in every other case. *)
Theorem role_after_vote_response (m : pb.Message) (r r' : raft) :
  state r = candidate ->
  handleCandidateRequestVoteResp m r = Ok tt r' ->
  let tally := recordVote (pb.mFrom m) (pb.mReject m) (votes r) in
  let counts := observers r !! pb.mFrom m = None in
  let won := grantedVotes tally = quorum r in
  let lost := Z.of_nat (size tally) - grantedVotes tally = quorum r in
  (state r' = leader <-> counts /\ won)
  /\ (state r' = follower <-> counts /\ ~ won /\ lost)
  /\ (state r' = candidate <-> ~ counts \/ (~ won /\ ~ lost)).
Proof.
  intros Hs E tally counts won lost. unfold counts, won, lost.
  unfold handleCandidateRequestVoteResp in E.
  unfold bind at 1, get at 1 in E.
  destruct (observers r !! pb.mFrom m) as [rp|] eqn:Eo.
  - rewrite bool_decide_eq_true_2 in E by eauto.
    unfold ret in E. injection E as <-. rewrite Hs.
    repeat split; try discriminate; try (intros [? _]; discriminate);
      try (intros _; left; discriminate).
  - rewrite bool_decide_eq_false_2 in E by (intros [? ?]; discriminate).
    destruct (handleVoteResp_eq (pb.mFrom m) (pb.mReject m) r)
      as (r1 & E1 & V1 & S1).
    rewrite (bind_eq _ _ _ _ _ E1) in E. unfold bind at 1, get at 1 in E.
    assert (Hq : quorum r1 = quorum r) by (rewrite <- S1; reflexivity).
    assert (Hs1 : state r1 = candidate) by (rewrite <- S1 in Hs; exact Hs).
    rewrite Hq, V1 in E. fold tally in E. fold tally.
    destruct (Z.eqb_spec (grantedVotes tally) (quorum r)) as [Hw|Hw].
    + apply bind_Ok in E as ([] & r2 & E2 & E3).
      apply becomeLeader_state in E2.
      pose proof (leader_broadcastReplicateMessage _ _ _ E2 E3) as ->.
      repeat split; auto; try discriminate; try tauto;
        intros [?|[? _]]; congruence.
    + destruct (Z.eqb_spec (Z.of_nat (size tally) - grantedVotes tally)
                  (quorum r)) as [Hl|Hl].
      * apply becomeFollower_result in E as (-> & _).
        repeat split; auto; try discriminate; try tauto;
          intros [?|[_ ?]]; congruence.
      * unfold ret in E. injection E as <-. rewrite Hs1.
        repeat split; auto; try discriminate; try tauto.
Qed.

(** X11.  A candidate that receives a Replicate, a Heartbeat or an
    InstallSnapshot of its own term gives up: it becomes a follower of the
    sender and keeps both the term and the vote it cast for itself. *)
Theorem candidate_yields_to_leader (m : pb.Message) (r r' : raft) :
  state r = candidate ->
  pb.mType m = pb.Replicate \/ pb.mType m = pb.Heartbeat
  \/ pb.mType m = pb.InstallSnapshot ->
  pb.mTerm m = term r ->
  Handle m r = Ok tt r' ->
  state r' = follower /\ leaderID r' = pb.mFrom m
  /\ term r' = term r /\ vote r' = vote r.
Proof.
  intros Hs Ht Hz E.
  change (Handle m r) with (HandleWith (HandleN 1) m r) in E.
  unfold HandleWith, onMessageTermNotMatched, doubleCheckTermMatched,
    defaultHandle, bind, get in E.
  rewrite Hz, Z.eqb_refl, orb_true_r in E. simpl in E.
  rewrite Z.eqb_refl, andb_false_r in E. simpl in E. rewrite Hs in E.
  set (P := fun r0 : raft =>
              state r0 = follower /\ leaderID r0 = pb.mFrom m
              /\ tvn r0 = (term r, vote r, nodeID r)).
  assert (Hstart : forall r1, becomeFollower (term r) (pb.mFrom m) r = Ok tt r1
                              -> P r1).
  { intros r1 E1. apply becomeFollower_result in E1 as (H1 & H2 & H3).
    rewrite Z.eqb_refl in H3. split; [|split]; assumption. }
  assert (Hsend : forall m0, preserves P (send m0))
    by (intros m0; apply pres_send; frame_same).
  assert (Hlog : forall v r0, P r0 -> P (set_log v r0)) by frame_same.
  assert (HP : P r').
  { destruct Ht as [Ht|[Ht|Ht]]; rewrite Ht in E; simpl in E;
      unfold handleCandidateReplicate, handleCandidateHeartbeat,
        handleCandidateInstallSnapshot in E;
      unfold bind at 1, get at 1 in E;
      apply bind_Ok in E as ([] & r1 & E1 & E2);
      apply Hstart in E1.
    - exact (frame_handleReplicateMessage P Hlog Hsend m _ _ _ E1 E2).
    - exact (frame_handleHeartbeatMessage P Hlog Hsend m _ _ _ E1 E2).
    - exact (frame_handleInstallSnapshotMessage P Hlog Hsend m _ _ _ E1 E2). }
  destruct HP as (H1 & H2 & H3). unfold tvn in H3. injection H3 as H3 H4.
  auto.
Qed.

(** ** One vote in a term *)

Lemma doubleCheckTermMatched_eq t r r' :
  doubleCheckTermMatched t r = Ok tt r' -> r' = r /\ (t = 0 \/ term r = t).
Proof.
  unfold doubleCheckTermMatched, bind, get.
  destruct (Z.eqb_spec t 0) as [->|Ht]; simpl.
  - intros E. injection E as <-. auto.
  - destruct (Z.eqb_spec (term r) t) as [e|n]; simpl; [|discriminate].
    intros E. injection E as <-. auto.
Qed.

Lemma handleNodeRequestVote_vote m r r' :
  handleNodeRequestVote m r = Ok tt r' ->
  tvn r' = tvn r
  \/ (canGrantVote r m = true /\ tvn r' = (term r, pb.mFrom m, nodeID r)).
Proof.
  unfold handleNodeRequestVote, bind at 1, get at 1.
  destruct (canGrantVote r m); simpl.
  - destruct (entryLog.upToDate _ _ _); intros E.
    + right. split; [reflexivity|]. injection E as <-. reflexivity.
    + left. apply (keeps_send (tvn r) _ r tt r' eq_refl E).
  - intros E. left. apply (keeps_send (tvn r) _ r tt r' eq_refl E).
Qed.

Lemma requestVote_keeps_vote (m : pb.Message) (r r' : raft) :
  pb.mType m = pb.RequestVote ->
  0 <= term r -> vote r <> NoNode ->
  Handle m r = Ok tt r' -> term r' = term r -> vote r' = vote r.
Proof.
  intros Hty H0 Hv E Ht.
  change (Handle m r) with (HandleWith (HandleN 1) m r) in E.
  unfold HandleWith in E. apply bind_Ok in E as (ign & r1 & E1 & E).
  apply onMessageTermNotMatched_tvn in E1.
  destruct ign; simpl in E.
  - unfold ret in E. injection E as <-.
    destruct E1 as [K|(? & _)]; [|discriminate].
    unfold tvn in K. congruence.
  - apply bind_Ok in E as ([] & r2 & E2 & E).
    apply doubleCheckTermMatched_eq in E2 as (-> & Hm).
    unfold defaultHandle, bind at 1, get at 1 in E. rewrite Hty in E.
    assert (K : tvn r' = tvn r1
                \/ (canGrantVote r1 m = true
                    /\ tvn r' = (term r1, pb.mFrom m, nodeID r1))).
    { destruct (state r1); simpl in E;
        try (apply handleNodeRequestVote_vote; exact E).
      left. unfold ret in E. congruence. }
    unfold tvn in *.
    destruct E1 as [K1|(_ & _ & Hlt & K1)]; injection K1 as K1t K1v K1n.
    + destruct K as [K|(Hg & K)]; injection K as Kt Kv Kn; [congruence|].
      unfold canGrantVote in Hg.
      rewrite K1t, K1v in Hg.
      destruct (Z.eqb_spec (vote r) NoNode); [contradiction|].
      destruct (Z.eqb_spec (vote r) (pb.mFrom m)) as [e|_]; [congruence|].
      simpl in Hg. apply Z.ltb_lt in Hg.
      destruct Hm as [Hm|Hm]; lia.
    + destruct K as [K|(_ & K)]; injection K as Kt Kv Kn; lia.
Qed.

(** X12.  A node does not change its vote within a term: when a step ends
    in the term it started in and the node had voted, the vote is the same
    afterwards.  The term counters are unsigned and below their maximum. *)
Theorem vote_kept_within_term (i : input) (r r' : raft) :
  0 <= term r -> inputTerm i < MaxUint64 -> vote r <> NoNode ->
  step i r = Ok tt r' -> term r' = term r -> vote r' = vote r.
Proof.
  intros H0 Hi Hv E Ht. destruct i as [|m]; simpl in *.
  - destruct (tick_steps (tvn r) r tt r' eq_refl E) as [K|K];
      unfold tvn, campaignFrom in K; simpl in K; injection K as Kt Kv Kn.
    + exact Kv.
    + pose proof (add64_succ_neq (term r)). congruence.
  - assert (Hdec : pb.mType m = pb.RequestVote \/ pb.mType m <> pb.RequestVote)
      by (destruct (pb.mType m); (left; reflexivity) || (right; discriminate)).
    destruct Hdec as [Hty|Hty].
    + exact (requestVote_keeps_vote m r r' Hty H0 Hv E Ht).
    + destruct (Handle_steps m (tvn r) r tt r' eq_refl E)
        as (t0 & v0 & Hpre & Hpost).
      unfold tvn, campaignFrom in *; simpl in *.
      destruct Hpost as [K|[[K _]|[_ ?]]]; [| |contradiction];
        injection K as Kt Kv Kn.
      * destruct Hpre as [[-> ->]|(_ & Hlt & -> & ->)]; [exact Kv|lia].
      * destruct Hpre as [[-> ->]|(_ & Hlt & -> & ->)].
        -- pose proof (add64_succ_neq (term r)). congruence.
        -- assert (pb.mTerm m < add64 (pb.mTerm m) 1)
             by (apply add64_succ_gt; exact Hi).
           lia.
Qed.

(** ** Hearing from the leader *)

Lemma becomeObserver_result tm l r r' :
  becomeObserver tm l r = Ok tt r' ->
  state r' = observer /\ leaderID r' = l
  /\ tvn r' = (tm, if term r =? tm then vote r else NoLeader, nodeID r).
Proof.
  intros E. split; [|split; [|exact (becomeObserver_tvn _ _ _ _ E)]];
    unfold becomeObserver, bind at 1, get at 1 in E;
    destruct (State_eqb (state r) observer) eqn:Es; try discriminate;
    simpl in E; apply bind_Ok in E as ([] & r2 & E2 & E3).
  - apply (state_reset observer) in E2;
      [|destruct (state r); try discriminate; reflexivity].
    exact (state_setLeaderID observer l _ _ _ E2 E3).
  - unfold setLeaderID, modify in E3. injection E3 as <-. reflexivity.
Qed.

Lemma heardFrom_handler (f g : pb.Message -> M unit) (m : pb.Message)
    (r r' : raft) :
  (forall P : raft -> Prop,
     (forall v r, P r -> P (set_log v r)) ->
     (forall m, preserves P (send m)) ->
     (forall i c, preserves P (addReadyToRead i c)) ->
     preserves P (g m)) ->
  f = (fun m => modify (set_electionTick 0) ;; setLeaderID (pb.mFrom m) ;; g m)
  ->
  f m r = Ok tt r' ->
  state r' = state r /\ leaderID r' = pb.mFrom m /\ electionTick r' = 0
  /\ term r' = term r.
Proof.
  intros Hg -> E.
  unfold bind at 1, modify at 1, bind at 1, setLeaderID, modify at 1 in E.
  refine (Hg (fun r0 => state r0 = state r /\ leaderID r0 = pb.mFrom m
                        /\ electionTick r0 = 0 /\ term r0 = term r)
            _ _ _ _ _ _ _ E).
  - frame_same.
  - intros m0. apply pres_send. frame_same.
  - intros i c. apply pres_addReadyToRead. frame_same.
  - repeat split.
Qed.

(** X13.  A follower or an observer that handles a Replicate, a Heartbeat,
    an InstallSnapshot or a ReadIndexResp of its own or of a higher term
    keeps its role, takes the sender as the leader, adopts the term of the
    message and restarts its election clock. *)
Theorem leader_message_heard (m : pb.Message) (r r' : raft) :
  state r = follower \/ state r = observer ->
  pb.mType m = pb.Replicate \/ pb.mType m = pb.Heartbeat
  \/ pb.mType m = pb.InstallSnapshot \/ pb.mType m = pb.ReadIndexResp ->
  pb.mTerm m <> 0 -> term r <= pb.mTerm m ->
  Handle m r = Ok tt r' ->
  state r' = state r /\ leaderID r' = pb.mFrom m /\ electionTick r' = 0
  /\ term r' = pb.mTerm m.
Proof.
  intros Hs Hty H0 Hle E.
  change (Handle m r) with (HandleWith (HandleN 1) m r) in E.
  unfold HandleWith in E. apply bind_Ok in E as (ign & r1 & E1 & E).
  assert (Hlm : isLeaderMessage (pb.mType m) = true)
    by (destruct Hty as [-> | [-> | [-> | ->]]]; reflexivity).
  assert (Hrv : pb.MessageType_eqb (pb.mType m) pb.RequestVote = false)
    by (destruct Hty as [-> | [-> | [-> | ->]]]; reflexivity).
  assert (H1 : ign = false /\ state r1 = state r /\ term r1 = pb.mTerm m).
  { unfold onMessageTermNotMatched, bind at 1, get at 1 in E1.
    destruct (Z.eqb_spec (pb.mTerm m) 0); [contradiction|].
    destruct (Z.eqb_spec (pb.mTerm m) (term r)) as [e|ne]; simpl in E1.
    - unfold ret in E1. injection E1 as <- <-. auto.
    - unfold dropRequestVoteFromHighTermNode in E1. rewrite Hrv in E1.
      simpl in E1.
      destruct (Z.ltb_spec (term r) (pb.mTerm m)); [|lia].
      rewrite Hlm in E1.
      apply bind_Ok in E1 as ([] & r2 & E2 & E3).
      unfold ret in E3. injection E3 as <- <-.
      split; [reflexivity|].
      unfold isObserver in E2.
      destruct Hs as [Hs|Hs]; rewrite Hs in E2 |- *; simpl in E2.
      + apply becomeFollower_result in E2 as (? & _ & K).
        injection K as K _. auto.
      + apply becomeObserver_result in E2 as (? & _ & K).
        injection K as K _. auto. }
  destruct H1 as (-> & Hs1 & Ht1). simpl in E.
  apply bind_Ok in E as ([] & r2 & E2 & E).
  apply doubleCheckTermMatched_eq in E2 as (-> & _).
  unfold defaultHandle, bind at 1, get at 1 in E.
  rewrite <- Hs1, <- Ht1.
  assert (Hs' : state r1 = follower \/ state r1 = observer) by congruence.
  destruct Hty as [Hty|[Hty|[Hty|Hty]]]; rewrite Hty in E;
    (destruct Hs' as [Hs'|Hs']; rewrite Hs' in E |- *; rewrite <- Hs';
     cbn [handlers] in E;
     unfold handleObserverReplicate, handleObserverHeartbeat,
       handleObserverSnapshot, handleObserverReadIndexResp in E;
     revert E).
  1,2: apply (heardFrom_handler handleFollowerReplicate
                handleReplicateMessage);
    [intros P ? ? ?; apply frame_handleReplicateMessage; assumption
    |reflexivity].
  1,2: apply (heardFrom_handler handleFollowerHeartbeat
                handleHeartbeatMessage);
    [intros P ? ? ?; apply frame_handleHeartbeatMessage; assumption
    |reflexivity].
  1,2: apply (heardFrom_handler handleFollowerInstallSnapshot
                handleInstallSnapshotMessage);
    [intros P ? ? ?; apply frame_handleInstallSnapshotMessage; assumption
    |reflexivity].
  1,2: apply (heardFrom_handler handleFollowerReadIndexResp
                (fun m => addReadyToRead (pb.mLogIndex m)
                            (pb.mkSystemCtx (pb.mHint m) (pb.mHintHigh m))));
    [intros P ? ? HR; apply HR|reflexivity].
Qed.

(** ** Transfer of leadership *)

(** The lemma of section [Frame] for a handler, and what is left of its
    hypotheses for a property the assignments in question leave alone. *)
Ltac frame_pick :=
  lazymatch goal with
  | |- preserves _ (handleCandidateHeartbeat _) =>
      apply frame_handleCandidateHeartbeat
  | |- preserves _ (handleCandidatePropose _) =>
      apply frame_handleCandidatePropose
  | |- preserves _ (handleCandidateReplicate _) =>
      apply frame_handleCandidateReplicate
  | |- preserves _ (handleCandidateInstallSnapshot _) =>
      apply frame_handleCandidateInstallSnapshot
  | |- preserves _ (handleCandidateRequestVoteResp _) =>
      apply frame_handleCandidateRequestVoteResp
  | |- preserves _ (handleNodeElection _) => apply frame_handleNodeElection
  | |- preserves _ (handleNodeRequestVote _) =>
      apply frame_handleNodeRequestVote
  | |- preserves _ (handleFollowerPropose _) =>
      apply frame_handleFollowerPropose
  | |- preserves _ (handleFollowerReplicate _) =>
      apply frame_handleFollowerReplicate
  | |- preserves _ (handleFollowerHeartbeat _) =>
      apply frame_handleFollowerHeartbeat
  | |- preserves _ (handleFollowerReadIndex _) =>
      apply frame_handleFollowerReadIndex
  | |- preserves _ (handleFollowerLeaderTransfer _) =>
      apply frame_handleFollowerLeaderTransfer
  | |- preserves _ (handleFollowerReadIndexResp _) =>
      apply frame_handleFollowerReadIndexResp
  | |- preserves _ (handleFollowerInstallSnapshot _) =>
      apply frame_handleFollowerInstallSnapshot
  | |- preserves _ (handleFollowerTimeoutNow _ _) =>
      apply frame_handleFollowerTimeoutNow
  | |- preserves _ (handleLeaderLeaderHeartbeat _) =>
      apply frame_handleLeaderLeaderHeartbeat
  | |- preserves _ (handleLeaderCheckQuorum _) =>
      apply frame_handleLeaderCheckQuorum
  | |- preserves _ (handleLeaderPropose _) => apply frame_handleLeaderPropose
  | |- preserves _ (handleLeaderReadIndex _) =>
      apply frame_handleLeaderReadIndex
  | |- preserves _ (lw handleLeaderReplicateResp _) =>
      apply frame_lw; intros ?; apply frame_handleLeaderReplicateResp
  | |- preserves _ (lw handleLeaderHeartbeatResp _) =>
      apply frame_lw; intros ?; apply frame_handleLeaderHeartbeatResp
  | |- preserves _ (lw handleLeaderSnapshotStatus _) =>
      apply frame_lw; intros ?; apply frame_handleLeaderSnapshotStatus
  | |- preserves _ (lw handleLeaderUnreachable _) =>
      apply frame_lw; intros ?; apply frame_handleLeaderUnreachable
  | |- preserves _ (lw handleLeaderLeaderTransfer _) =>
      apply frame_lw; intros ?; apply frame_handleLeaderLeaderTransfer
  | |- preserves _ (onMessageTermNotMatched _) =>
      apply frame_onMessageTermNotMatched
  | |- preserves _ (doubleCheckTermMatched _) =>
      apply frame_doubleCheckTermMatched
  end.

Ltac frame_side :=
  first [ frame_same
        | intros ?; apply pres_send; frame_same
        | intros ? ?; apply pres_addReadyToRead; frame_same
        | solve [auto] ].

(** A message of term zero goes straight to the handler of its type. *)
Lemma Handle_local (m : pb.Message) (r : raft) :
  pb.mTerm m = 0 ->
  Handle m r = match handlers (HandleN 1) (state r) (pb.mType m) with
               | Some f => f m r
               | None => Ok tt r
               end.
Proof.
  intros Hz. change (Handle m r) with (HandleWith (HandleN 1) m r).
  unfold HandleWith, onMessageTermNotMatched, doubleCheckTermMatched,
    defaultHandle, bind, get.
  rewrite Hz. simpl.
  destruct (handlers _ _ _); reflexivity.
Qed.

Lemma noTransfer_HandleWith (H : pb.Message -> M unit) :
  (forall n t,
     t = pb.Election \/ t = pb.CheckQuorum \/ t = pb.LeaderHeartbeat ->
     preserves (fun r => leaderTransferTarget r = NoNode)
       (H (pb.with_From n (pb.msg t 0)))) ->
  forall m, pb.mType m <> pb.LeaderTransfer ->
            preserves (fun r => leaderTransferTarget r = NoNode)
              (HandleWith H m).
Proof.
  intros HH m Hty. unfold HandleWith.
  apply pres_bind; [frame_pick; frame_side|intros ign].
  destruct ign; simpl; [apply pres_ret|].
  apply pres_bind; [frame_pick|intros _].
  unfold defaultHandle. apply pres_get; intros r0 _.
  destruct (handlers H (state r0) (pb.mType m)) as [f|] eqn:Ef;
    [|apply pres_ret].
  revert Hty.
  apply (handlers_cases H
           (fun t f => t <> pb.LeaderTransfer ->
                       preserves (fun r => leaderTransferTarget r = NoNode)
                         (f m)) _ _) with (f := f) (25 := Ef);
    intros Hty; try congruence; frame_pick; frame_side.
Qed.

Lemma noTransfer_HandleN depth m :
  pb.mType m <> pb.LeaderTransfer ->
  preserves (fun r => leaderTransferTarget r = NoNode) (HandleN depth m).
Proof.
  revert m. induction depth as [|d IH]; intros m Hty; simpl.
  - apply pres_diverge.
  - apply noTransfer_HandleWith; [|exact Hty].
    intros n t Ht. apply IH. destruct Ht as [-> | [-> | ->]]; discriminate.
Qed.

Lemma noTransfer_tick :
  preserves (fun r => leaderTransferTarget r = NoNode) tick.
Proof.
  apply frame_tickWith; try frame_side.
  intros n t Ht. apply noTransfer_HandleN.
  destruct Ht as [-> | [-> | ->]]; discriminate.
Qed.

(** X14.  Only a LeaderTransfer message starts a transfer of leadership:
    after a tick or any other message a node that had no transfer target
    has none. *)
Theorem transfer_starts_on_request (i : input) (r r' : raft) :
  leaderTransferTarget r = NoNode ->
  (forall m, i = Msg m -> pb.mType m <> pb.LeaderTransfer) ->
  step i r = Ok tt r' ->
  leaderTransferTarget r' = NoNode.
Proof.
  intros H0 Hty E. destruct i as [|m]; simpl in E.
  - exact (noTransfer_tick r tt r' H0 E).
  - exact (noTransfer_HandleN 2 m (Hty m eq_refl) r tt r' H0 E).
Qed.

(** X15.  A tick of the leader gives up a transfer of leadership that has
    lasted an election timeout, and leaves the transfer target alone
    before that. *)
Theorem leader_tick_ends_transfer (r r' : raft) :
  state r = leader ->
  tick r = Ok tt r' ->
  leaderTransferTarget r'
  = if electionTimeout r <=? add64 (electionTick r) 1 then NoNode
    else leaderTransferTarget r.
Proof.
  intros Hs E.
  unfold tick, tickWith, bind at 1, modify at 1, bind at 1, get at 1 in E.
  set (r1 := set_tickCount (add64 (tickCount r) 1) r) in E.
  change (state r1) with (state r) in E. rewrite Hs in E. simpl in E.
  unfold leaderTickWith, bind at 1, get at 1 in E.
  change (state r1) with (state r) in E. rewrite Hs in E. simpl in E.
  unfold bind at 1, modify at 1, bind at 1, get at 1 in E.
  set (r2 := set_electionTick (add64 (electionTick r1) 1) r1) in E.
  cbv zeta in E.
  apply bind_Ok in E as ([] & r3 & E3 & E).
  apply bind_Ok in E as ([] & r4 & E4 & E).
  unfold timeForCheckQuorum in E3.
  unfold timeToAbortLeaderTransfer, leaderTransfering in E4.
  change (electionTimeout r2) with (electionTimeout r) in E3, E4.
  change (electionTick r2) with (add64 (electionTick r) 1) in E3, E4.
  change (state r2) with (state r) in E4. rewrite Hs in E4.
  change (leaderTransferTarget r2) with (leaderTransferTarget r) in E4.
  simpl in E4. rewrite andb_true_r in E4.
  assert (Hhb : forall c r5, state r5 = leader ->
                  leaderTransferTarget r5 = c ->
                  Handle (pb.with_From (nodeID r5)
                            (pb.msg pb.LeaderHeartbeat 0)) r5 = Ok tt r' ->
                  leaderTransferTarget r' = c).
  { intros c r5 Hs5 Hc E5. rewrite Handle_local in E5 by reflexivity.
    rewrite Hs5 in E5. simpl in E5. revert E5.
    apply (frame_handleLeaderLeaderHeartbeat
             (fun r => leaderTransferTarget r = c)); [|exact Hc].
    intros m. apply pres_send. frame_same. }
  destruct (electionTimeout r <=? add64 (electionTick r) 1).
  - assert (H4 : leaderTransferTarget r4 = NoNode).
    { destruct (Z.eqb_spec (leaderTransferTarget r) NoNode) as [e|ne];
        simpl in E4.
      - unfold ret in E4. injection E4 as <-.
        apply bind_Ok in E3 as ([] & r2' & E2' & E3).
        unfold modify in E2'. injection E2' as <-.
        destruct (checkQuorum r2).
        + revert E3. apply noTransfer_HandleN; [discriminate|exact e].
        + unfold ret in E3. injection E3 as <-. exact e.
      - unfold abortLeaderTransfer, modify in E4. cbv beta in E4.
        injection E4 as <-.
        reflexivity. }
    revert E.
    apply (pres_bind (fun r => leaderTransferTarget r = NoNode));
      [apply pres_modify; frame_same| |exact H4].
    intros _. apply pres_get. intros r5 _.
    destruct (timeForHearbeat r5); [|apply pres_ret].
    apply pres_bind; [apply pres_modify; frame_same|intros _].
    apply noTransfer_HandleN. discriminate.
  - rewrite andb_false_r in E4.
    unfold ret in E3, E4. injection E3 as <-. injection E4 as <-.
    unfold bind at 1, modify at 1, bind at 1, get at 1 in E.
    destruct (timeForHearbeat _); [|unfold ret in E; injection E as <-;
                                    reflexivity].
    unfold bind at 1, modify at 1 in E.
    exact (Hhb _ (set_heartbeatTick 0
                    (set_heartbeatTick (add64 (heartbeatTick r2) 1) r2))
             Hs eq_refl E).
Qed.

Lemma flag_handleFollowerTimeoutNow (H : pb.Message -> M unit) m :
  preserves (fun r => isLeaderTransferTarget r = false)
    (handleFollowerTimeoutNow H m).
Proof.
  intros r [] r' _ E. unfold handleFollowerTimeoutNow in E.
  apply bind_Ok in E as ([] & r1 & _ & E).
  apply bind_Ok in E as ([] & r2 & _ & E).
  apply bind_Ok in E as ([] & r3 & _ & E).
  unfold bind, get in E.
  destruct (isLeaderTransferTarget r3) eqn:E3.
  - unfold modify in E. injection E as <-. reflexivity.
  - unfold ret in E. injection E as <-. exact E3.
Qed.

Lemma flag_HandleWith (H : pb.Message -> M unit) :
  (forall n t,
     t = pb.Election \/ t = pb.CheckQuorum \/ t = pb.LeaderHeartbeat ->
     preserves (fun r => isLeaderTransferTarget r = false)
       (H (pb.with_From n (pb.msg t 0)))) ->
  forall m, preserves (fun r => isLeaderTransferTarget r = false)
              (HandleWith H m).
Proof.
  intros HH m. unfold HandleWith.
  apply pres_bind; [frame_pick; frame_side|intros ign].
  destruct ign; simpl; [apply pres_ret|].
  apply pres_bind; [frame_pick|intros _].
  unfold defaultHandle. apply pres_get; intros r0 _.
  destruct (handlers H (state r0) (pb.mType m)) as [f|] eqn:Ef;
    [|apply pres_ret].
  apply (handlers_cases H
           (fun _ f => preserves (fun r => isLeaderTransferTarget r = false)
                         (f m)) _ _) with (f := f) (25 := Ef);
    first [ apply flag_handleFollowerTimeoutNow | frame_pick; frame_side ].
Qed.

Lemma flag_Handle m :
  preserves (fun r => isLeaderTransferTarget r = false) (Handle m).
Proof.
  apply pres_HandleN. intros H HH. apply flag_HandleWith.
  intros n t _. apply HH.
Qed.

Lemma flag_tick :
  preserves (fun r => isLeaderTransferTarget r = false) tick.
Proof.
  apply frame_tickWith; try frame_side.
  intros n t _. apply flag_Handle.
Qed.

(** X16.  The flag that marks the node as the target of a transfer of
    leadership is never left raised: when it is down before a tick or a
    message it is down afterwards, also when a TimeoutNow has raised it in
    between. *)
Theorem transfer_flag_lowered (i : input) (r r' : raft) :
  isLeaderTransferTarget r = false ->
  step i r = Ok tt r' ->
  isLeaderTransferTarget r' = false.
Proof.
  intros H0 E. destruct i as [|m]; simpl in E.
  - exact (flag_tick r tt r' H0 E).
  - exact (flag_Handle m r tt r' H0 E).
Qed.

(** ** The election timeout *)

(** X17.  With an election timeout [E] above zero, the randomized election
    timeout drawn by [setRandomizedElectionTimeout] lies in [E, 2E), and one
    number of the random stream is used. *)
Theorem randomized_timeout_range (r : raft) :
  0 < electionTimeout r -> 2 * electionTimeout r <= MaxUint64 ->
  exists r',
    setRandomizedElectionTimeout r = Ok tt r'
    /\ electionTimeout r <= randomizedElectionTimeout r'
       < 2 * electionTimeout r
    /\ electionTimeout r' = electionTimeout r
    /\ randPos r' = S (randPos r).
Proof.
  intros Hpos Hmax.
  unfold setRandomizedElectionTimeout, bind, get, modify. simpl.
  destruct (Z.eqb_spec (electionTimeout r) 0) as [e|_]; [lia|].
  eexists. split; [reflexivity|]. simpl.
  pose proof (Z.mod_pos_bound (wrap64 (rand r (randPos r)))
                (electionTimeout r) Hpos) as Hb.
  unfold add64, wrap64 at 1 3. unfold MaxUint64 in Hmax.
  rewrite Z.mod_small by lia.
  repeat split; lia.
Qed.

(** ** Messages on their way out *)

(** X18.  [send] queues exactly one message, stamped with the id of the
    node; it carries the term of the node, except for a forwarded Propose or
    ReadIndex, whose term stays zero.  A message that comes with a term of
    its own is refused, and so is a RequestVote without one. *)
Theorem send_stamps_message (m : pb.Message) (r : raft) :
  0 <= pb.mTerm m ->
  let refused :=
    if pb.MessageType_eqb (pb.mType m) pb.RequestVote
    then pb.mTerm m =? 0 else 0 <? pb.mTerm m in
  if refused then send m r = Panic
  else exists m',
      send m r = Ok tt (queued [m'] r)
      /\ pb.mType m' = pb.mType m /\ pb.mTo m' = pb.mTo m
      /\ pb.mFrom m' = nodeID r
      /\ pb.mTerm m' = (if isRequestMessage (pb.mType m) then 0 else term r).
Proof.
  intros H0 refused. unfold refused.
  unfold send, finalizeMessageTerm, bind, get, modify, queued. simpl.
  destruct (pb.MessageType_eqb (pb.mType m) pb.RequestVote) eqn:Ety.
  - assert (Hrq : isRequestMessage (pb.mType m) = false)
      by (destruct (pb.mType m); try discriminate; reflexivity).
    destruct (Z.eqb_spec (pb.mTerm m) 0); simpl; [reflexivity|].
    rewrite andb_false_r, Hrq. simpl.
    eexists. split; [reflexivity|]. repeat split.
  - rewrite andb_false_r. simpl. rewrite andb_true_r.
    destruct (Z.ltb_spec 0 (pb.mTerm m)); [reflexivity|].
    destruct (isRequestMessage (pb.mType m)); simpl;
      (eexists; split; [reflexivity|]; repeat split). simpl. lia.
Qed.

(** ** The persistent state *)

(** X19.  [loadState] accepts a state whose commit index lies between the
    commit index and the last index of the log, and [raftState] gives that
    state back afterwards. *)
Theorem loadState_raftState (st : pb.State) (r r' : raft) :
  loadState st r = Ok tt r' ->
  raftState r' = st
  /\ entryLog.committed (log r) <= pb.stCommit st
     <= entryLog.lastIndex (log r).
Proof.
  unfold loadState, bind, get, modify. intros E.
  destruct (Z.ltb_spec (pb.stCommit st) (entryLog.committed (log r)));
    [discriminate|].
  destruct (Z.ltb_spec (entryLog.lastIndex (log r)) (pb.stCommit st));
    [discriminate|].
  simpl in E. injection E as <-. split; [|lia].
  destruct st. reflexivity.
Qed.

(** X20.  Loading the state the node reports itself changes nothing, as
    long as the commit index is within the log. *)
Theorem loadState_own_state (r : raft) :
  entryLog.committed (log r) <= entryLog.lastIndex (log r) ->
  loadState (raftState r) r = Ok tt r.
Proof.
  intros H. unfold loadState, raftState, bind, get, modify. simpl.
  rewrite Z.ltb_irrefl. simpl.
  destruct (Z.ltb_spec (entryLog.lastIndex (log r))
              (entryLog.committed (log r))); [lia|].
  destruct r as [? ? ? ? ? l]. destruct l. reflexivity.
Qed.

(** ** Voters and observers *)

(** X21.  Without a voter there is nothing to commit: [tryCommit] stops
    with the index out of range. *)
Theorem tryCommit_needs_voter (r : raft) :
  remotes r = ∅ -> tryCommit r = Panic.
Proof.
  intros He. unfold tryCommit, bind at 1, get at 1. rewrite He.
  rewrite map_size_empty.
  unfold resetMatchValueArray, sortMatchValues, bind, get, modify, ret.
  destruct (matched r) as [|x l] eqn:Em; simpl; rewrite He;
    rewrite ?map_size_empty, ?map_to_list_empty; simpl;
    rewrite ?Em; simpl; unfold quorum; simpl; rewrite ?He;
    rewrite ?map_size_empty; reflexivity.
Qed.

Lemma elem_of_keys {V : Type} (m : gmap Z V) (k : Z) :
  k ∈ keys m <-> is_Some (m !! k).
Proof.
  unfold keys. rewrite list_elem_of_fmap. split.
  - intros ([k' v] & -> & Hin). apply elem_of_map_to_list in Hin. eauto.
  - intros [v Hv]. exists (k, v). split; [reflexivity|].
    apply elem_of_map_to_list, Hv.
Qed.

(** X22.  [nodes] lists the ids of the voters and of the observers, and no
    others, in increasing order. *)
Theorem nodes_sorted_members (r : raft) :
  StronglySorted Z.le (nodes r)
  /\ forall k, k ∈ nodes r
               <-> is_Some (remotes r !! k) \/ is_Some (observers r !! k).
Proof.
  unfold nodes. split; [apply sortSlice_sorted|]. intros k.
  rewrite (sortSlice_perm _), elem_of_app, !elem_of_keys. reflexivity.
Qed.

(** ** The quorum check of the leader *)

Lemma activeAmong_ext r r' l :
  nodeID r' = nodeID r ->
  (forall k, k ∈ l -> remotes r' !! k = remotes r !! k) ->
  activeAmong r' l = activeAmong r l.
Proof.
  intros Hn Hl. unfold activeAmong. do 2 f_equal.
  induction l as [|k l IH]; [reflexivity|]. simpl.
  assert (countsAsActive r' k = countsAsActive r k) as ->.
  { unfold countsAsActive. rewrite Hn, Hl by left. reflexivity. }
  rewrite IH; [reflexivity|]. intros k' Hk'. apply Hl. right. exact Hk'.
Qed.

Lemma leaderHasQuorum_loop (l : list Z) :
  NoDup l ->
  forall (c : Z) (r : raft),
    (forall k, k ∈ l -> is_Some (remotes r !! k)) ->
    exists m',
      foldM (fun c nid =>
               r <- get ;;
               rp <- load (inRemotes nid) ;;
               if (nid =? nodeID r) || remote.isActive rp
               then update (inRemotes nid) remote.setNotActive ;; ret (c + 1)
               else ret c) l c r
      = Ok (c + activeAmong r l) (set_remotes m' r)
      /\ dom m' = dom (remotes r)
      /\ (forall k, k ∉ l -> m' !! k = remotes r !! k).
Proof.
  induction 1 as [|k l Hk Hnd IH]; intros c r Hin.
  - exists (remotes r). simpl. unfold ret, activeAmong. simpl.
    rewrite Z.add_0_r. destruct r; auto.
  - destruct (Hin k) as [rp Hrp]; [left|].
    set (r1 := if (k =? nodeID r) || remote.isActive rp
               then set_remotes (<[k := remote.setNotActive rp]> (remotes r)) r
               else r).
    set (c1 := if (k =? nodeID r) || remote.isActive rp then c + 1 else c).
    assert (Hn1 : nodeID r1 = nodeID r) by (unfold r1; destruct (_ || _); reflexivity).
    assert (Hk1 : forall k', k' <> k -> remotes r1 !! k' = remotes r !! k').
    { intros k' Hne. unfold r1. destruct (_ || _); [|reflexivity].
      simpl. apply lookup_insert_ne. congruence. }
    assert (Hd1 : dom (remotes r1) = dom (remotes r)).
    { unfold r1. destruct (_ || _); [|reflexivity]. simpl.
      apply set_eq. intros i. rewrite dom_insert, elem_of_union,
        elem_of_singleton, !elem_of_dom. split; [|auto].
      intros [->|?]; eauto. }
    destruct (IH c1 r1) as (m' & E & Hd & Hrest).
    { intros k' Hk'. rewrite Hk1; [apply Hin; right; exact Hk'|].
      intros ->. contradiction. }
    exists m'. split; [|split].
    + simpl. unfold bind at 1. unfold bind at 1, get at 1.
      unfold bind at 1, load at 1. simpl. rewrite Hrp.
      assert (Hstep :
        (if (k =? nodeID r) || remote.isActive rp
         then update (inRemotes k) remote.setNotActive ;; ret (c + 1)
         else ret c) r = Ok c1 r1).
      { unfold c1, r1. destruct (_ || _); [|reflexivity].
        unfold update, bind, load, modify, ret. simpl. rewrite Hrp.
        reflexivity. }
      rewrite Hstep, E.
      assert (set_remotes m' r1 = set_remotes m' r) as ->
        by (unfold r1; destruct (_ || _); reflexivity).
      f_equal.
      rewrite (activeAmong_ext r r1 l Hn1).
      * unfold c1, activeAmong. simpl. unfold countsAsActive at 2.
        rewrite Hrp. destruct (_ || _); simpl; lia.
      * intros k' Hk'. apply Hk1. intros ->. contradiction.
    + rewrite Hd. exact Hd1.
    + intros k' Hk'. apply not_elem_of_cons in Hk' as [Hne Hk'].
      rewrite Hrest by exact Hk'. apply Hk1, Hne.
Qed.

Lemma leaderHasQuorum_eq (r : raft) :
  exists m',
    leaderHasQuorum r = Ok (quorum r <=? activeVoters r) (set_remotes m' r)
    /\ dom m' = dom (remotes r).
Proof.
  destruct (leaderHasQuorum_loop (keys (remotes r))
              (NoDup_fst_map_to_list _) 0 r) as (m' & E & Hd & _).
  { intros k Hk. apply elem_of_keys, Hk. }
  exists m'. split; [|exact Hd].
  unfold leaderHasQuorum, bind at 1, get at 1.
  unfold bind at 1. rewrite E. unfold bind, get, ret. simpl.
  unfold quorum, activeVoters. simpl.
  rewrite <- (size_dom m'), Hd, size_dom. reflexivity.
Qed.

(** X23.  The quorum check of the leader counts the leader itself and the
    voters marked active since the last check.  When they are a quorum the
    leader stays leader; otherwise it steps down to follower in the same
    term, with no leader known. *)
Theorem check_quorum_outcome (m : pb.Message) (r r' : raft) :
  state r = leader ->
  handleLeaderCheckQuorum m r = Ok tt r' ->
  term r' = term r
  /\ if quorum r <=? activeVoters r
     then state r' = leader /\ leaderID r' = leaderID r
     else state r' = follower /\ leaderID r' = NoLeader.
Proof.
  intros Hs E. unfold handleLeaderCheckQuorum in E.
  destruct (leaderHasQuorum_eq r) as (m' & E1 & _).
  rewrite (bind_eq _ _ _ _ _ E1) in E.
  destruct (quorum r <=? activeVoters r); simpl in E.
  - unfold ret in E. injection E as <-. auto.
  - unfold bind, get in E.
    apply becomeFollower_result in E as (H1 & H2 & H3).
    simpl in H3. rewrite Z.eqb_refl in H3. injection H3 as H3 _. auto.
Qed.

(** ** Membership changes *)

Lemma makeReplicateMessage_state to n s r res r1 :
  makeReplicateMessage to n s r = Ok res r1 -> r1 = r.
Proof.
  unfold makeReplicateMessage, bind, get, ret.
  destruct (entryLog.term _ _); [|congruence].
  destruct (entryLog.entries _ _ _) as [es|]; [|congruence].
  destruct (last es); [destruct (negb _); [discriminate|]|]; congruence.
Qed.

Lemma makeInstallSnapshotMessage_state to m r res r1 :
  makeInstallSnapshotMessage to m r = Ok res r1 -> r1 = r.
Proof.
  unfold makeInstallSnapshotMessage, bind, get, ret.
  destruct (pb.IsEmptySnapshot _); [discriminate|congruence].
Qed.

(** Replication writes only to progress records that exist. *)
Section StoreFrame.

Variable P : raft -> Prop.
Hypothesis P_store :
  forall p v r, is_Some (deref p r) -> P r -> P (store p v r).
Hypothesis P_msgs : forall v r, P r -> P (set_msgs v r).

Lemma store_sendReplicateMessage to : preserves P (sendReplicateMessage to).
Proof.
  intros r [] r' HP E.
  unfold sendReplicateMessage, bind at 1, get at 1 in E.
  apply bind_Ok in E as (rp & r1 & E1 & E).
  assert (r1 = r) as ->.
  { destruct (remotes r !! to); [unfold ret in E1; congruence|].
    destruct (observers r !! to); [unfold ret in E1; congruence|].
    discriminate. }
  clear E1. apply bind_Ok in E as (v & r1 & E1 & E).
  unfold load in E1. destruct (deref rp r) as [v0|] eqn:Ed; [|discriminate].
  injection E1 as -> <-.
  destruct (remote.isPaused v); [unfold ret in E; congruence|].
  apply bind_Ok in E as (res & r1 & E2 & E).
  apply makeReplicateMessage_state in E2 as ->.
  destruct res as [m|err].
  - apply bind_Ok in E as ([] & r2 & E3 & E4).
    refine (pres_send P m P_msgs r2 tt r' _ E4).
    destruct (last (pb.mEntries m)).
    + destruct (remote.progress _ _); [|discriminate].
      unfold modify in E3. injection E3 as <-. apply P_store; eauto.
    + unfold ret in E3. congruence.
  - destruct (negb (remote.isActive v)); [unfold ret in E; congruence|].
    apply bind_Ok in E as (im & r2 & E3 & E).
    apply makeInstallSnapshotMessage_state in E3 as ->.
    apply bind_Ok in E as ([] & r3 & E4 & E5).
    refine (pres_send P _ P_msgs r3 tt r' _ E5).
    unfold update, bind, load in E4. rewrite Ed in E4.
    unfold modify in E4. injection E4 as <-. apply P_store; eauto.
Qed.

Lemma store_broadcastReplicateMessage :
  preserves P broadcastReplicateMessage.
Proof.
  unfold broadcastReplicateMessage.
  apply pres_get; intros r0 _. apply pres_bind; [|intros _].
  - apply pres_forM. intros k.
    destruct (negb _); [apply store_sendReplicateMessage|apply pres_ret].
  - apply pres_get; intros r1 _. apply pres_forM. intros k.
    destruct (k =? nodeID r1); [apply pres_panic|].
    apply store_sendReplicateMessage.
Qed.

End StoreFrame.

Lemma dom_store_remotes p v r :
  is_Some (deref p r) -> dom (remotes (store p v r)) = dom (remotes r).
Proof.
  destruct p as [id|id]; simpl; [|reflexivity]. intros Hs.
  apply set_eq. intros i.
  rewrite dom_insert, elem_of_union, elem_of_singleton, !elem_of_dom.
  split; [|auto]. intros [->|?]; assumption.
Qed.

Lemma dom_store_observers p v r :
  is_Some (deref p r) -> dom (observers (store p v r)) = dom (observers r).
Proof.
  destruct p as [id|id]; simpl; [reflexivity|]. intros Hs.
  apply set_eq. intros i.
  rewrite dom_insert, elem_of_union, elem_of_singleton, !elem_of_dom.
  split; [|auto]. intros [->|?]; assumption.
Qed.

Lemma dom_fresh {V W : Type} (g : Z -> W) (m : gmap Z V) :
  dom (map_imap (fun id _ => Some (g id)) m) = dom m.
Proof.
  apply set_eq. intros i. rewrite !elem_of_dom, map_lookup_imap.
  destruct (m !! i); simpl; split; intros [? ?]; eauto; discriminate.
Qed.

(** The members as [becomeFollower] leaves them. *)
Lemma members_becomeFollower (D D' : gset Z) tm l :
  preserves (fun r => dom (remotes r) = D /\ dom (observers r) = D'
                      /\ pendingConfigChange r = false)
    (becomeFollower tm l).
Proof.
  assert (K1 : preserves (fun r => dom (remotes r) = D) (becomeFollower tm l)).
  { apply frame_becomeFollower; try frame_same.
    intros r Hr. simpl. rewrite dom_fresh. exact Hr. }
  assert (K2 : preserves (fun r => dom (observers r) = D')
                 (becomeFollower tm l)).
  { apply frame_becomeFollower; try frame_same.
    intros r Hr. simpl. rewrite dom_fresh. exact Hr. }
  assert (K3 : preserves (fun r => pendingConfigChange r = false)
                 (becomeFollower tm l))
    by (apply frame_becomeFollower; frame_same).
  intros r a r' (H1 & H2 & H3) E. split; [|split].
  - exact (K1 r a r' H1 E).
  - exact (K2 r a r' H2 E).
  - exact (K3 r a r' H3 E).
Qed.

(** X24.  [removeNode] takes the node out of the voters and out of the
    observers, leaves every other member in place and closes the pending
    configuration change. *)
Theorem removeNode_membership (n : Z) (r r' : raft) :
  removeNode n r = Ok tt r' ->
  dom (remotes r') = dom (remotes r) ∖ {[n]}
  /\ dom (observers r') = dom (observers r) ∖ {[n]}
  /\ pendingConfigChange r' = false.
Proof.
  intros E. unfold removeNode in E.
  apply bind_Ok in E as ([] & r1 & E1 & E).
  apply bind_Ok in E as ([] & r2 & E2 & E).
  apply bind_Ok in E as ([] & r3 & E3 & E).
  unfold deleteRemote, resetMatchValueArray, bind, modify in E1.
  injection E1 as <-.
  unfold deleteObserver, modify in E2. injection E2 as <-.
  unfold clearPendingConfigChange, modify in E3. injection E3 as <-.
  set (P := fun r0 : raft =>
              dom (remotes r0) = dom (remotes r) ∖ {[n]}
              /\ dom (observers r0) = dom (observers r) ∖ {[n]}
              /\ pendingConfigChange r0 = false).
  assert (Hstore : forall p v r0, is_Some (deref p r0) -> P r0
                                  -> P (store p v r0)).
  { intros p v r0 Hs (H1 & H2 & H3). split; [|split].
    - rewrite dom_store_remotes; assumption.
    - rewrite dom_store_observers; assumption.
    - destruct p; exact H3. }
  match type of E with
  | ?c ?r3 = _ =>
      assert (H3 : P r3) by (unfold P; simpl; rewrite !dom_delete_L; auto);
      assert (K : preserves P c); [|exact (K _ _ _ H3 E)]
  end.
  apply pres_get. intros r0 _. apply pres_bind; [|intros _].
  - destruct (_ && _); [apply pres_modify; frame_same|apply pres_ret].
  - destruct (0 <? size (remotes r0))%nat; [|apply pres_ret].
    apply pres_bind; [apply frame_tryCommit; frame_same|intros committed].
    destruct committed; [|apply pres_ret].
    apply store_broadcastReplicateMessage; [exact Hstore|frame_same].
Qed.

(** X25.  [addNode] makes the node a voter and no observer, leaves every
    other member in place and closes the pending configuration change; an
    observer other than the node itself is promoted with the progress
    record it had. *)
Theorem addNode_membership (n : Z) (r r' : raft) :
  remotes r !! n = None \/ observers r !! n = None ->
  addNode n r = Ok tt r' ->
  dom (remotes r') = {[n]} ∪ dom (remotes r)
  /\ dom (observers r') = dom (observers r) ∖ {[n]}
  /\ pendingConfigChange r' = false
  /\ (n <> nodeID r -> remotes r !! n = None ->
      forall rp, observers r !! n = Some rp -> remotes r' !! n = Some rp).
Proof.
  intros Hdis E.
  unfold addNode, bind at 1, clearPendingConfigChange, modify at 1,
    bind at 1, get at 1 in E.
  simpl in E.
  destruct (remotes r !! n) as [rp0|] eqn:Er.
  - unfold ret in E. injection E as <-. simpl.
    destruct Hdis as [?|Ho]; [discriminate|].
    split; [|split; [|split; [reflexivity|discriminate]]].
    + apply set_eq. intros i. rewrite elem_of_union, elem_of_singleton,
        elem_of_dom. split; [auto|]. intros [->|?]; [eauto|assumption].
    + apply set_eq. intros i. rewrite elem_of_difference, elem_of_singleton,
        elem_of_dom. split; [|tauto]. intros Hi. split; [exact Hi|].
      intros ->. rewrite Ho in Hi. destruct Hi; discriminate.
  - destruct (observers r !! n) as [rp|] eqn:Eo.
    + unfold deleteObserver, bind at 1, modify at 1, bind at 1,
        modify at 1 in E. simpl in E.
      match type of E with _ ?r2 = _ => set (r2' := r2) in E end.
      assert (H2 : dom (remotes r2') = {[n]} ∪ dom (remotes r)
                   /\ dom (observers r2') = dom (observers r) ∖ {[n]}
                   /\ pendingConfigChange r2' = false).
      { unfold r2'. simpl. rewrite dom_insert_L, dom_delete_L. auto. }
      destruct (Z.eqb_spec n (nodeID r)) as [e|ne].
      * unfold bind, get in E.
        destruct (members_becomeFollower _ _ _ _ _ _ _ H2 E) as (?&?&?).
        repeat split; try assumption. contradiction.
      * unfold ret in E. injection E as <-.
        destruct H2 as (?&?&?). repeat split; try assumption.
        intros _ _ rp' [= <-]. unfold r2'. simpl. apply lookup_insert_eq.
    + unfold setRemote, resetMatchValueArray, bind, modify in E.
      injection E as <-. simpl. rewrite dom_insert_L.
      split; [reflexivity|]. split; [|split; [reflexivity|discriminate]].
      apply set_eq. intros i. rewrite elem_of_difference, elem_of_singleton,
        elem_of_dom. split; [|tauto]. intros Hi. split; [exact Hi|].
      intros ->. rewrite Eo in Hi. destruct Hi; discriminate.
Qed.

Lemma voters_becomeFollower (S : gset Z) tm l :
  preserves (fun r => dom (remotes r) = S) (becomeFollower tm l).
Proof.
  apply frame_becomeFollower; try frame_same.
  intros r Hr. simpl. rewrite dom_fresh. exact Hr.
Qed.

Lemma restoreRemotes_voters (l : list Z) :
  forall (S : gset Z) (r r' : raft),
    dom (remotes r) = S ->
    forM_ l (fun id =>
               r <- get ;;
               (match observers r !! id with
                | Some _ => becomeFollower (term r) (leaderID r)
                | None => ret tt
                end) ;;
               mn <- restoredProgress id ;;
               setRemote id (fst mn) (snd mn)) r = Ok tt r' ->
    dom (remotes r') = list_to_set l ∪ S.
Proof.
  induction l as [|id l IH]; intros S r r' HS E; simpl in E.
  - unfold ret in E. injection E as <-. rewrite HS. simpl.
    symmetry. apply (left_id_L ∅ (∪)).
  - apply bind_Ok in E as ([] & r1 & E1 & E).
    apply (IH ({[id]} ∪ S)) in E;
      [rewrite E; simpl;
       rewrite (assoc_L (∪)), (comm_L (∪) (list_to_set l)); reflexivity|].
    unfold bind at 1, get at 1 in E1.
    apply bind_Ok in E1 as ([] & r2 & E2 & E1).
    assert (H2 : dom (remotes r2) = S).
    { destruct (observers r !! id).
      - exact (voters_becomeFollower S _ _ _ _ _ HS E2).
      - unfold ret in E2. congruence. }
    unfold restoredProgress, setRemote, resetMatchValueArray, bind, get,
      modify, ret in E1.
    injection E1 as <-. simpl. rewrite dom_insert_L, H2. reflexivity.
Qed.

Lemma restoreRemotes_observers (l : list Z) :
  forall (S : gset Z) (r r' : raft),
    dom (observers r) = S ->
    forM_ l (fun id =>
               mn <- restoredProgress id ;;
               setObserver id (fst mn) (snd mn)) r = Ok tt r' ->
    dom (observers r') = list_to_set l ∪ S /\ remotes r' = remotes r.
Proof.
  induction l as [|id l IH]; intros S r r' HS E; simpl in E.
  - unfold ret in E. injection E as <-. rewrite HS. simpl.
    split; [symmetry; apply (left_id_L ∅ (∪))|reflexivity].
  - apply bind_Ok in E as ([] & r1 & E1 & E).
    unfold restoredProgress, setObserver, bind, get, modify, ret in E1.
    injection E1 as <-.
    apply (IH ({[id]} ∪ S)) in E as [E ->];
      [rewrite E; simpl;
       rewrite (assoc_L (∪)), (comm_L (∪) (list_to_set l));
       split; reflexivity|].
    simpl. rewrite dom_insert_L, HS. reflexivity.
Qed.

(** X26.  After [restoreRemotes] the voters are the addresses of the
    snapshot's membership and the observers are its observers, whoever the
    members were before. *)
Theorem restoreRemotes_membership (ss : pb.Snapshot) (r r' : raft) :
  restoreRemotes ss r = Ok tt r' ->
  dom (remotes r') = pb.Addresses (pb.ssMembership ss)
  /\ dom (observers r') = pb.Observers (pb.ssMembership ss).
Proof.
  intros E. unfold restoreRemotes in E.
  apply bind_Ok in E as ([] & r1 & E1 & E).
  unfold modify in E1. injection E1 as <-.
  apply bind_Ok in E as ([] & r2 & E2 & E).
  apply (restoreRemotes_voters _ ∅) in E2; [|simpl; apply dom_empty_L].
  apply bind_Ok in E as ([] & r3 & E3 & E).
  unfold modify in E3. injection E3 as <-.
  apply bind_Ok in E as ([] & r4 & E4 & E).
  apply (restoreRemotes_observers _ ∅) in E4 as [E4 E4'];
    [|simpl; apply dom_empty_L].
  unfold resetMatchValueArray, modify in E. injection E as <-. simpl.
  rewrite E4, E4'. simpl. rewrite E2.
  rewrite !list_to_set_elements_L, !(right_id_L ∅ (∪)). split; reflexivity.
Qed.

(** ** The dispatcher and the clock of the leader *)

(** X27.  A leader drops what a node that is neither a voter nor an
    observer sends about replication, heartbeats, snapshots, reachability
    or a transfer of leadership: the state stays as it is. *)
Theorem leader_ignores_stranger (m : pb.Message) (r : raft) :
  state r = leader ->
  pb.mType m = pb.ReplicateResp \/ pb.mType m = pb.HeartbeatResp
  \/ pb.mType m = pb.SnapshotStatus \/ pb.mType m = pb.Unreachable
  \/ pb.mType m = pb.LeaderTransfer ->
  pb.mTerm m = 0 \/ pb.mTerm m = term r ->
  remotes r !! pb.mFrom m = None -> observers r !! pb.mFrom m = None ->
  Handle m r = Ok tt r.
Proof.
  intros Hs Hty Ht Hr Ho.
  change (Handle m r) with (HandleWith (HandleN 1) m r).
  unfold HandleWith, onMessageTermNotMatched, doubleCheckTermMatched,
    defaultHandle, bind, get.
  assert (E : (pb.mTerm m =? 0) || (pb.mTerm m =? term r) = true).
  { destruct Ht as [-> | ->]; [reflexivity|].
    rewrite Z.eqb_refl. apply orb_true_r. }
  rewrite E. simpl.
  assert (E2 : negb (pb.mTerm m =? 0) && negb (term r =? pb.mTerm m) = false).
  { destruct Ht as [-> | ->]; [reflexivity|].
    rewrite Z.eqb_refl. simpl. apply andb_false_r. }
  rewrite E2. simpl. rewrite Hs.
  destruct Hty as [Hty|[Hty|[Hty|[Hty|Hty]]]]; rewrite Hty; simpl;
    unfold lw, bind, get; rewrite Hr, Ho; reflexivity.
Qed.

(** X28.  The tick of a leader whose election and heartbeat timeouts have
    not run out only moves the three clocks: no quorum check, no heartbeat,
    no message. *)
Theorem tick_of_quiet_leader (r : raft) :
  state r = leader ->
  add64 (electionTick r) 1 < electionTimeout r ->
  add64 (heartbeatTick r) 1 < heartbeatTimeout r ->
  tick r = Ok tt (leaderClockAdvanced r).
Proof.
  intros Hs He Hh.
  set (r1 := set_tickCount (add64 (tickCount r) 1) r).
  set (r2 := set_electionTick (add64 (electionTick r1) 1) r1).
  set (r3 := set_heartbeatTick (add64 (heartbeatTick r2) 1) r2).
  change (leaderClockAdvanced r) with r3.
  assert (Hl : State_eqb (state r) leader = true)
    by (rewrite Hs; reflexivity).
  unfold tick, tickWith, leaderTickWith, bind, get, modify.
  cbv beta. fold r1. change (state r1) with (state r). rewrite Hl.
  cbv beta iota. change (state r1) with (state r). rewrite Hl.
  cbn [negb]. cbv beta iota zeta. fold r2.
  unfold timeForCheckQuorum, timeToAbortLeaderTransfer.
  change (electionTimeout r2) with (electionTimeout r).
  change (electionTick r2) with (add64 (electionTick r) 1).
  destruct (Z.leb_spec (electionTimeout r) (add64 (electionTick r) 1));
    [lia|].
  rewrite andb_false_r. unfold ret. cbv beta iota. fold r3.
  unfold timeForHearbeat.
  change (heartbeatTimeout r3) with (heartbeatTimeout r).
  change (heartbeatTick r3) with (add64 (heartbeatTick r) 1).
  destruct (Z.leb_spec (heartbeatTimeout r) (add64 (heartbeatTick r) 1));
    [lia|reflexivity].
Qed.

(** X29.  The second look at the term in [Handle] never fires: a message
    that the term reconciliation lets through finds the node at the term of
    the message, or carries no term. *)
Theorem term_check_never_fires (m : pb.Message) (r r1 : raft) :
  onMessageTermNotMatched m r = Ok false r1 ->
  doubleCheckTermMatched (pb.mTerm m) r1 = Ok tt r1.
Proof.
  intros E.
  assert (H : pb.mTerm m = 0 \/ term r1 = pb.mTerm m).
  { unfold onMessageTermNotMatched, bind at 1, get at 1 in E.
    destruct (Z.eqb_spec (pb.mTerm m) 0) as [e|n0]; [auto|].
    destruct (Z.eqb_spec (pb.mTerm m) (term r)) as [e|ne]; simpl in E.
    { unfold ret in E. injection E as <-. auto. }
    destruct (dropRequestVoteFromHighTermNode r m); [discriminate|].
    destruct (Z.ltb_spec (term r) (pb.mTerm m)).
    - apply bind_Ok in E as ([] & r2 & E2 & E3).
      unfold ret in E3. injection E3 as <-. right.
      destruct (isObserver r).
      + apply becomeObserver_tvn in E2. injection E2 as E2 _. exact E2.
      + apply becomeFollower_tvn in E2. injection E2 as E2 _. exact E2.
    - destruct (Z.ltb_spec (pb.mTerm m) (term r)); [|lia].
      apply bind_Ok in E as ([] & r2 & _ & E3). discriminate. }
  unfold doubleCheckTermMatched, bind, get.
  destruct H as [-> | ->]; [reflexivity|].
  rewrite Z.eqb_refl, andb_false_r. reflexivity.
Qed.

(** ** Construction *)

Lemma loadState_eq st r r' :
  loadState st r = Ok tt r' ->
  r' = set_vote (pb.stVote st)
         (set_term (pb.stTerm st)
            (set_log (entryLog.set_committed (pb.stCommit st) (log r)) r)).
Proof.
  unfold loadState, bind, get, modify.
  destruct (_ || _); [discriminate|]. intros E. injection E as <-.
  reflexivity.
Qed.

Lemma boot_becomeFollower (D D' : gset Z) ms x tm l :
  preserves (fun r => dom (remotes r) = D /\ dom (observers r) = D'
                      /\ msgs r = ms /\ clusterID r = x)
    (becomeFollower tm l).
Proof.
  intros r a r' (H1 & H2 & H3 & H4) E. repeat split.
  - exact (voters_becomeFollower D tm l r a r' H1 E).
  - revert H2 E. apply (frame_becomeFollower
                          (fun r => dom (observers r) = D'));
      try frame_same.
    intros r0 Hr. simpl. rewrite dom_fresh. exact Hr.
  - revert H3 E. apply (frame_becomeFollower (fun r => msgs r = ms));
      frame_same.
  - revert H4 E. apply (frame_becomeFollower (fun r => clusterID r = x));
      frame_same.
Qed.

Lemma boot_becomeObserver (D D' : gset Z) ms x tm l :
  preserves (fun r => dom (remotes r) = D /\ dom (observers r) = D'
                      /\ msgs r = ms /\ clusterID r = x)
    (becomeObserver tm l).
Proof.
  intros r a r' (H1 & H2 & H3 & H4) E. repeat split.
  - revert H1 E. apply (frame_becomeObserver (fun r => dom (remotes r) = D));
      try frame_same.
    intros r0 Hr. simpl. rewrite dom_fresh. exact Hr.
  - revert H2 E. apply (frame_becomeObserver
                          (fun r => dom (observers r) = D'));
      try frame_same.
    intros r0 Hr. simpl. rewrite dom_fresh. exact Hr.
  - revert H3 E. apply (frame_becomeObserver (fun r => msgs r = ms));
      frame_same.
  - revert H4 E. apply (frame_becomeObserver (fun r => clusterID r = x));
      frame_same.
Qed.

(** X30.  A node that [newRaft] has built is a follower, or an observer
    when the configuration says so, and knows no leader; it has the ids of
    the configuration, the voters and observers of the stored membership,
    the term and the vote of the stored state when there is one, and
    nothing to send. *)
Theorem newRaft_initial_state (env : Env) (c : config.Config)
    (logdb : ILogDB) (r : raft) :
  newRaft env c logdb = Ok tt r ->
  state r = (if config.IsObserver c then observer else follower)
  /\ leaderID r = NoLeader
  /\ nodeID r = config.NodeID c /\ clusterID r = config.ClusterID c
  /\ dom (remotes r) = pb.Addresses (dbMembership logdb)
  /\ dom (observers r) = pb.Observers (dbMembership logdb)
  /\ (term r, vote r)
     = (if pb.IsEmptyState (dbState logdb) then (0, 0)
        else (pb.stTerm (dbState logdb), pb.stVote (dbState logdb)))
  /\ msgs r = [].
Proof.
  unfold newRaft. destruct (config.Validate c); simpl; [|discriminate].
  match goal with |- _ ?r0 = _ -> _ => set (r0' := r0) end.
  intros E.
  apply bind_Ok in E as ([] & r1 & E1 & E).
  unfold resetMatchValueArray, modify in E1. injection E1 as <-.
  apply bind_Ok in E as ([] & r2 & E2 & E).
  set (P := fun r : raft =>
              dom (remotes r) = pb.Addresses (dbMembership logdb)
              /\ dom (observers r) = pb.Observers (dbMembership logdb)
              /\ msgs r = [] /\ clusterID r = config.ClusterID c).
  assert (H2 : P r2 /\ nodeID r2 = config.NodeID c
               /\ (term r2, vote r2)
                  = (if pb.IsEmptyState (dbState logdb) then (0, 0)
                     else (pb.stTerm (dbState logdb),
                           pb.stVote (dbState logdb)))).
  { assert (HP : P (set_matched (replicate (size (remotes r0')) 0) r0'))
      by (unfold P, r0'; simpl; rewrite !dom_gset_to_gmap; auto).
    destruct (pb.IsEmptyState (dbState logdb)); simpl in E2.
    - unfold ret in E2. injection E2 as <-. auto.
    - apply loadState_eq in E2 as ->. auto. }
  destruct H2 as (HP & Hn & Htv).
  destruct (config.IsObserver c).
  - apply bind_Ok in E as ([] & r3 & E3 & E).
    unfold modify in E3. injection E3 as <-.
    unfold bind, get in E.
    pose proof (boot_becomeObserver _ _ _ _ _ _ (set_state observer r2) _ _
                  HP E) as (?&?&?&?).
    apply becomeObserver_result in E as (Hs & Hl & Ht).
    simpl in Ht. rewrite Z.eqb_refl in Ht. injection Ht as Ht Hv Hn'.
    repeat split; try assumption; congruence.
  - unfold bind, get in E.
    pose proof (boot_becomeFollower _ _ _ _ _ _ _ _ _ HP E) as (?&?&?&?).
    apply becomeFollower_result in E as (Hs & Hl & Ht).
    rewrite Z.eqb_refl in Ht. injection Ht as Ht Hv Hn'.
    repeat split; try assumption; congruence.
Qed.

(** * The further properties at work *)

Lemma step_keeps_config_witness :
  let r := calmFollower in
  let r' := stateAfter (Handle staleHeartbeat) r in
  step (Msg staleHeartbeat) r = Ok tt r' /\ configOf r' = configOf r.
Proof.
  intros r r'.
  assert (H : step (Msg staleHeartbeat) r = Ok tt r')
    by (vm_compute; reflexivity).
  split; [exact H|exact (step_keeps_config _ r r' H)].
Defined.

Lemma observer_stays_observer_witness :
  let r := set_state observer calmFollower in
  let r' := stateAfter (Handle newerHeartbeat) r in
  (state r = observer /\ step (Msg newerHeartbeat) r = Ok tt r')
  /\ state r' = observer.
Proof.
  intros r r'.
  assert (H1 : state r = observer) by reflexivity.
  assert (H2 : step (Msg newerHeartbeat) r = Ok tt r')
    by (vm_compute; reflexivity).
  split; [split; assumption|].
  exact (observer_stays_observer _ r r' H1 H2).
Defined.

Lemma step_output_grows_witness :
  let r := calmFollower in
  let r' := stateAfter (Handle staleHeartbeat) r in
  step (Msg staleHeartbeat) r = Ok tt r'
  /\ (exists new, msgs r' = msgs r ++ new
                  /\ Forall (fun m => pb.mFrom m = nodeID r) new)
  /\ readyToRead r `prefix_of` readyToRead r'.
Proof.
  intros r r'.
  assert (H : step (Msg staleHeartbeat) r = Ok tt r')
    by (vm_compute; reflexivity).
  split; [exact H|exact (step_output_grows _ r r' H)].
Defined.

Lemma stale_message_ignored_witness :
  (pb.mTerm staleHeartbeat <> 0 /\ pb.mTerm staleHeartbeat < term calmFollower)
  /\ Handle staleHeartbeat calmFollower
     = Ok tt (queued [noopReply calmFollower staleHeartbeat] calmFollower).
Proof.
  assert (H1 : pb.mTerm staleHeartbeat <> 0) by discriminate.
  assert (H2 : pb.mTerm staleHeartbeat < term calmFollower) by reflexivity.
  split; [split; assumption|].
  exact (stale_message_ignored staleHeartbeat calmFollower H1 H2).
Defined.

Lemma unhandled_message_dropped_witness :
  (hasHandler (state trioLeader) (pb.mType strayHeartbeat) = false
   /\ (pb.mTerm strayHeartbeat = 0
       \/ pb.mTerm strayHeartbeat = term trioLeader))
  /\ Handle strayHeartbeat trioLeader = Ok tt trioLeader.
Proof.
  assert (H1 : hasHandler (state trioLeader) (pb.mType strayHeartbeat)
               = false) by reflexivity.
  assert (H2 : pb.mTerm strayHeartbeat = 0
               \/ pb.mTerm strayHeartbeat = term trioLeader)
    by (right; reflexivity).
  split; [split; assumption|].
  exact (unhandled_message_dropped strayHeartbeat trioLeader H1 H2).
Defined.

Lemma request_forwarded_to_leader_witness :
  ((state calmFollower = follower \/ state calmFollower = observer)
   /\ (pb.mType readRequest = pb.Propose
       \/ pb.mType readRequest = pb.ReadIndex)
   /\ pb.mTerm readRequest = 0)
  /\ Handle readRequest calmFollower
     = Ok tt (queued [pb.with_From 2 (pb.with_To 1 readRequest)]
                calmFollower).
Proof.
  assert (H1 : state calmFollower = follower \/ state calmFollower = observer)
    by (left; reflexivity).
  assert (H2 : pb.mType readRequest = pb.Propose
               \/ pb.mType readRequest = pb.ReadIndex)
    by (right; reflexivity).
  assert (H3 : pb.mTerm readRequest = 0) by reflexivity.
  split; [split; [|split]; assumption|].
  exact (request_forwarded_to_leader readRequest calmFollower H1 H2 H3).
Defined.

Lemma tick_without_election_witness :
  (state calmFollower <> leader
   /\ (isObserver calmFollower = true \/ selfRemoved calmFollower = true
       \/ add64 (electionTick calmFollower) 1
          < randomizedElectionTimeout calmFollower))
  /\ tick calmFollower = Ok tt (clockAdvanced calmFollower).
Proof.
  assert (H1 : state calmFollower <> leader) by discriminate.
  assert (H2 : isObserver calmFollower = true \/ selfRemoved calmFollower = true
               \/ add64 (electionTick calmFollower) 1
                  < randomizedElectionTimeout calmFollower)
    by (right; right; reflexivity).
  split; [split; assumption|].
  exact (tick_without_election calmFollower H1 H2).
Defined.

Lemma vote_counted_once_witness :
  let r := hopefulCandidate in
  let r' := stateAfter (handleVoteResp 2 false) r in
  handleVoteResp 2 false r = Ok 2 r'
  /\ handleVoteResp 2 true r' = Ok 2 r'
  /\ 0 <= 2 <= Z.of_nat (size (votes r')).
Proof.
  intros r r'.
  assert (H : handleVoteResp 2 false r = Ok 2 r') by (vm_compute; reflexivity).
  split; [exact H|exact (vote_counted_once 2 false true r r' 2 H)].
Defined.

Lemma role_after_vote_response_witness :
  let r := hopefulCandidate in
  let r' := stateAfter (handleCandidateRequestVoteResp voteGranted) r in
  (state r = candidate
   /\ handleCandidateRequestVoteResp voteGranted r = Ok tt r')
  /\ state r' = leader.
Proof.
  intros r r'.
  assert (H1 : state r = candidate) by reflexivity.
  assert (H2 : handleCandidateRequestVoteResp voteGranted r = Ok tt r')
    by (vm_compute; reflexivity).
  split; [split; assumption|].
  apply (proj1 (role_after_vote_response voteGranted r r' H1 H2)).
  split; vm_compute; reflexivity.
Defined.

Lemma candidate_yields_to_leader_witness :
  let r := hopefulCandidate in
  let r' := stateAfter (Handle leaderHeartbeat) r in
  (state r = candidate
   /\ (pb.mType leaderHeartbeat = pb.Replicate
       \/ pb.mType leaderHeartbeat = pb.Heartbeat
       \/ pb.mType leaderHeartbeat = pb.InstallSnapshot)
   /\ pb.mTerm leaderHeartbeat = term r
   /\ Handle leaderHeartbeat r = Ok tt r')
  /\ state r' = follower /\ leaderID r' = pb.mFrom leaderHeartbeat
  /\ term r' = term r /\ vote r' = vote r.
Proof.
  intros r r'.
  assert (H1 : state r = candidate) by reflexivity.
  assert (H2 : pb.mType leaderHeartbeat = pb.Replicate
               \/ pb.mType leaderHeartbeat = pb.Heartbeat
               \/ pb.mType leaderHeartbeat = pb.InstallSnapshot)
    by (right; left; reflexivity).
  assert (H3 : pb.mTerm leaderHeartbeat = term r) by reflexivity.
  assert (H4 : Handle leaderHeartbeat r = Ok tt r')
    by (vm_compute; reflexivity).
  split; [split; [|split; [|split]]; assumption|].
  exact (candidate_yields_to_leader leaderHeartbeat r r' H1 H2 H3 H4).
Defined.

Lemma vote_kept_within_term_witness :
  let r := calmFollower in
  let r' := stateAfter (Handle rivalRequest) r in
  (0 <= term r /\ inputTerm (Msg rivalRequest) < MaxUint64
   /\ vote r <> NoNode /\ step (Msg rivalRequest) r = Ok tt r'
   /\ term r' = term r)
  /\ vote r' = vote r.
Proof.
  intros r r'.
  assert (H1 : 0 <= term r) by discriminate.
  assert (H2 : inputTerm (Msg rivalRequest) < MaxUint64) by reflexivity.
  assert (H3 : vote r <> NoNode) by discriminate.
  assert (H4 : step (Msg rivalRequest) r = Ok tt r')
    by (vm_compute; reflexivity).
  assert (H5 : term r' = term r) by (vm_compute; reflexivity).
  split; [split; [|split; [|split; [|split]]]; assumption|].
  exact (vote_kept_within_term _ r r' H1 H2 H3 H4 H5).
Defined.

Lemma leader_message_heard_witness :
  let r := calmFollower in
  let r' := stateAfter (Handle newerHeartbeat) r in
  ((state r = follower \/ state r = observer)
   /\ (pb.mType newerHeartbeat = pb.Replicate
       \/ pb.mType newerHeartbeat = pb.Heartbeat
       \/ pb.mType newerHeartbeat = pb.InstallSnapshot
       \/ pb.mType newerHeartbeat = pb.ReadIndexResp)
   /\ pb.mTerm newerHeartbeat <> 0 /\ term r <= pb.mTerm newerHeartbeat
   /\ Handle newerHeartbeat r = Ok tt r')
  /\ state r' = state r /\ leaderID r' = pb.mFrom newerHeartbeat
  /\ electionTick r' = 0 /\ term r' = pb.mTerm newerHeartbeat.
Proof.
  intros r r'.
  assert (H1 : state r = follower \/ state r = observer)
    by (left; reflexivity).
  assert (H2 : pb.mType newerHeartbeat = pb.Replicate
               \/ pb.mType newerHeartbeat = pb.Heartbeat
               \/ pb.mType newerHeartbeat = pb.InstallSnapshot
               \/ pb.mType newerHeartbeat = pb.ReadIndexResp)
    by (right; left; reflexivity).
  assert (H3 : pb.mTerm newerHeartbeat <> 0) by discriminate.
  assert (H4 : term r <= pb.mTerm newerHeartbeat) by discriminate.
  assert (H5 : Handle newerHeartbeat r = Ok tt r')
    by (vm_compute; reflexivity).
  split; [split; [|split; [|split; [|split]]]; assumption|].
  exact (leader_message_heard newerHeartbeat r r' H1 H2 H3 H4 H5).
Defined.

Lemma transfer_starts_on_request_witness :
  let r := trioLeader in
  let r' := stateAfter (Handle proposal) r in
  (leaderTransferTarget r = NoNode
   /\ (forall m, Msg proposal = Msg m -> pb.mType m <> pb.LeaderTransfer)
   /\ step (Msg proposal) r = Ok tt r')
  /\ leaderTransferTarget r' = NoNode.
Proof.
  intros r r'.
  assert (H1 : leaderTransferTarget r = NoNode) by reflexivity.
  assert (H2 : forall m, Msg proposal = Msg m
                         -> pb.mType m <> pb.LeaderTransfer)
    by (intros m [= <-]; discriminate).
  assert (H3 : step (Msg proposal) r = Ok tt r') by (vm_compute; reflexivity).
  split; [split; [|split]; assumption|].
  exact (transfer_starts_on_request _ r r' H1 H2 H3).
Defined.

Lemma leader_tick_ends_transfer_witness :
  let r := set_electionTick 9 transferringLeader in
  let r' := stateAfter tick r in
  (state r = leader /\ tick r = Ok tt r')
  /\ leaderTransferTarget r'
     = if electionTimeout r <=? add64 (electionTick r) 1 then NoNode
       else leaderTransferTarget r.
Proof.
  intros r r'.
  assert (H1 : state r = leader) by reflexivity.
  assert (H2 : tick r = Ok tt r') by (vm_compute; reflexivity).
  split; [split; assumption|].
  exact (leader_tick_ends_transfer r r' H1 H2).
Defined.

Lemma transfer_flag_lowered_witness :
  let r := set_applied 1 calmFollower in
  let r' := stateAfter (Handle timeoutNow) r in
  (isLeaderTransferTarget r = false /\ step (Msg timeoutNow) r = Ok tt r')
  /\ isLeaderTransferTarget r' = false.
Proof.
  intros r r'.
  assert (H1 : isLeaderTransferTarget r = false) by reflexivity.
  assert (H2 : step (Msg timeoutNow) r = Ok tt r')
    by (vm_compute; reflexivity).
  split; [split; assumption|].
  exact (transfer_flag_lowered _ r r' H1 H2).
Defined.

Lemma randomized_timeout_range_witness :
  let r := calmFollower in
  (0 < electionTimeout r /\ 2 * electionTimeout r <= MaxUint64)
  /\ exists r',
      setRandomizedElectionTimeout r = Ok tt r'
      /\ electionTimeout r <= randomizedElectionTimeout r'
         < 2 * electionTimeout r
      /\ electionTimeout r' = electionTimeout r
      /\ randPos r' = S (randPos r).
Proof.
  intros r.
  assert (H1 : 0 < electionTimeout r) by reflexivity.
  assert (H2 : 2 * electionTimeout r <= MaxUint64) by discriminate.
  split; [split; assumption|].
  exact (randomized_timeout_range r H1 H2).
Defined.

Lemma send_stamps_message_witness :
  0 <= pb.mTerm readRequest
  /\ exists m',
      send readRequest calmFollower = Ok tt (queued [m'] calmFollower)
      /\ pb.mType m' = pb.ReadIndex /\ pb.mTo m' = 1
      /\ pb.mFrom m' = 2 /\ pb.mTerm m' = 0.
Proof.
  assert (H : 0 <= pb.mTerm readRequest) by discriminate.
  split; [exact H|].
  exact (send_stamps_message readRequest calmFollower H).
Defined.

Lemma loadState_raftState_witness :
  let st := pb.mkState 6 3 1 in
  let r := calmFollower in
  let r' := stateAfter (loadState st) r in
  loadState st r = Ok tt r'
  /\ raftState r' = st
  /\ entryLog.committed (log r) <= pb.stCommit st
     <= entryLog.lastIndex (log r).
Proof.
  intros st r r'.
  assert (H : loadState st r = Ok tt r') by (vm_compute; reflexivity).
  split; [exact H|exact (loadState_raftState st r r' H)].
Defined.

Lemma loadState_own_state_witness :
  entryLog.committed (log calmFollower)
  <= entryLog.lastIndex (log calmFollower)
  /\ loadState (raftState calmFollower) calmFollower = Ok tt calmFollower.
Proof.
  assert (H : entryLog.committed (log calmFollower)
              <= entryLog.lastIndex (log calmFollower)) by discriminate.
  split; [exact H|exact (loadState_own_state calmFollower H)].
Defined.

Lemma tryCommit_needs_voter_witness :
  let r := set_remotes ∅ trioLeader in
  remotes r = ∅ /\ tryCommit r = Panic.
Proof.
  intros r.
  assert (H : remotes r = ∅) by reflexivity.
  split; [exact H|exact (tryCommit_needs_voter r H)].
Defined.

Lemma check_quorum_outcome_witness :
  let m := pb.msg pb.CheckQuorum 0 in
  let r := trioLeader in
  let r' := stateAfter (handleLeaderCheckQuorum m) r in
  (state r = leader /\ handleLeaderCheckQuorum m r = Ok tt r')
  /\ term r' = term r
  /\ if quorum r <=? activeVoters r
     then state r' = leader /\ leaderID r' = leaderID r
     else state r' = follower /\ leaderID r' = NoLeader.
Proof.
  intros m r r'.
  assert (H1 : state r = leader) by reflexivity.
  assert (H2 : handleLeaderCheckQuorum m r = Ok tt r')
    by (vm_compute; reflexivity).
  split; [split; assumption|].
  exact (check_quorum_outcome m r r' H1 H2).
Defined.

Lemma removeNode_membership_witness :
  let r := trioLeader in
  let r' := stateAfter (removeNode 3) r in
  removeNode 3 r = Ok tt r'
  /\ dom (remotes r') = dom (remotes r) ∖ {[3]}
  /\ dom (observers r') = dom (observers r) ∖ {[3]}
  /\ pendingConfigChange r' = false.
Proof.
  intros r r'.
  assert (H : removeNode 3 r = Ok tt r') by (vm_compute; reflexivity).
  split; [exact H|exact (removeNode_membership 3 r r' H)].
Defined.

Lemma addNode_membership_witness :
  let r := trioLeader in
  let r' := stateAfter (addNode 4) r in
  ((remotes r !! 4 = None \/ observers r !! 4 = None)
   /\ addNode 4 r = Ok tt r')
  /\ dom (remotes r') = {[4]} ∪ dom (remotes r)
  /\ dom (observers r') = dom (observers r) ∖ {[4]}
  /\ pendingConfigChange r' = false
  /\ (4 <> nodeID r -> remotes r !! 4 = None ->
      forall rp, observers r !! 4 = Some rp -> remotes r' !! 4 = Some rp).
Proof.
  intros r r'.
  assert (H1 : remotes r !! 4 = None \/ observers r !! 4 = None)
    by (left; reflexivity).
  assert (H2 : addNode 4 r = Ok tt r') by (vm_compute; reflexivity).
  split; [split; assumption|].
  exact (addNode_membership 4 r r' H1 H2).
Defined.

Lemma restoreRemotes_membership_witness :
  let ss := pb.mSnapshot snapshotMsg in
  let r := calmFollower in
  let r' := stateAfter (restoreRemotes ss) r in
  restoreRemotes ss r = Ok tt r'
  /\ dom (remotes r') = pb.Addresses (pb.ssMembership ss)
  /\ dom (observers r') = pb.Observers (pb.ssMembership ss).
Proof.
  intros ss r r'.
  assert (H : restoreRemotes ss r = Ok tt r') by (vm_compute; reflexivity).
  split; [exact H|exact (restoreRemotes_membership ss r r' H)].
Defined.

Lemma leader_ignores_stranger_witness :
  (state trioLeader = leader
   /\ (pb.mType strangerResp = pb.ReplicateResp
       \/ pb.mType strangerResp = pb.HeartbeatResp
       \/ pb.mType strangerResp = pb.SnapshotStatus
       \/ pb.mType strangerResp = pb.Unreachable
       \/ pb.mType strangerResp = pb.LeaderTransfer)
   /\ (pb.mTerm strangerResp = 0 \/ pb.mTerm strangerResp = term trioLeader)
   /\ remotes trioLeader !! pb.mFrom strangerResp = None
   /\ observers trioLeader !! pb.mFrom strangerResp = None)
  /\ Handle strangerResp trioLeader = Ok tt trioLeader.
Proof.
  assert (H1 : state trioLeader = leader) by reflexivity.
  assert (H2 : pb.mType strangerResp = pb.ReplicateResp
               \/ pb.mType strangerResp = pb.HeartbeatResp
               \/ pb.mType strangerResp = pb.SnapshotStatus
               \/ pb.mType strangerResp = pb.Unreachable
               \/ pb.mType strangerResp = pb.LeaderTransfer)
    by (left; reflexivity).
  assert (H3 : pb.mTerm strangerResp = 0
               \/ pb.mTerm strangerResp = term trioLeader)
    by (right; reflexivity).
  assert (H4 : remotes trioLeader !! pb.mFrom strangerResp = None)
    by reflexivity.
  assert (H5 : observers trioLeader !! pb.mFrom strangerResp = None)
    by reflexivity.
  split; [split; [|split; [|split; [|split]]]; assumption|].
  exact (leader_ignores_stranger strangerResp trioLeader H1 H2 H3 H4 H5).
Defined.

Lemma tick_of_quiet_leader_witness :
  (state steadyLeader = leader
   /\ add64 (electionTick steadyLeader) 1 < electionTimeout steadyLeader
   /\ add64 (heartbeatTick steadyLeader) 1 < heartbeatTimeout steadyLeader)
  /\ tick steadyLeader = Ok tt (leaderClockAdvanced steadyLeader).
Proof.
  assert (H1 : state steadyLeader = leader) by reflexivity.
  assert (H2 : add64 (electionTick steadyLeader) 1
               < electionTimeout steadyLeader) by reflexivity.
  assert (H3 : add64 (heartbeatTick steadyLeader) 1
               < heartbeatTimeout steadyLeader) by reflexivity.
  split; [split; [|split]; assumption|].
  exact (tick_of_quiet_leader steadyLeader H1 H2 H3).
Defined.

Lemma term_check_never_fires_witness :
  let r := calmFollower in
  let r1 := stateAfter (onMessageTermNotMatched newerHeartbeat) r in
  onMessageTermNotMatched newerHeartbeat r = Ok false r1
  /\ doubleCheckTermMatched (pb.mTerm newerHeartbeat) r1 = Ok tt r1.
Proof.
  intros r r1.
  assert (H : onMessageTermNotMatched newerHeartbeat r = Ok false r1)
    by (vm_compute; reflexivity).
  split; [exact H|exact (term_check_never_fires newerHeartbeat r r1 H)].
Defined.

Lemma newRaft_initial_state_witness :
  let env := exampleEnv 0 in
  let c := singleConfig 1 false in
  let r := singleFresh env 1 false 10 in
  newRaft env c singleLogDB = Ok tt r
  /\ state r = (if config.IsObserver c then observer else follower)
  /\ leaderID r = NoLeader
  /\ nodeID r = config.NodeID c /\ clusterID r = config.ClusterID c
  /\ dom (remotes r) = pb.Addresses (dbMembership singleLogDB)
  /\ dom (observers r) = pb.Observers (dbMembership singleLogDB)
  /\ (term r, vote r)
     = (if pb.IsEmptyState (dbState singleLogDB) then (0, 0)
        else (pb.stTerm (dbState singleLogDB),
              pb.stVote (dbState singleLogDB)))
  /\ msgs r = [].
Proof.
  intros env c r.
  assert (H : newRaft env c singleLogDB = Ok tt r)
    by (vm_compute; reflexivity).
  split; [exact H|exact (newRaft_initial_state env c singleLogDB r H)].
Defined.
